(** * The file-system incremental cache handler

    A shallow embedding of
    [packages/next/src/server/lib/incremental-cache/file-system-cache.ts]:
    the two module-level singletons ([memoryCache], [tagsManifest]), the
    [FileSystemCache] class with its constructor, [loadTagsManifest],
    [loadTagsManifestSync], [revalidateTag], [get], [set] and [getFilePath],
    and the properties of the tag-revalidation protocol and of the two
    storage tiers. *)

From Stdlib Require Import ZArith Bool Ascii String List.
From stdpp Require Import gmap strings list fin_maps.

Open Scope Z_scope.
Open Scope string_scope.

(** ** Data model *)

(** [IncrementalCacheKind]: the kind a caller of [get] expects. *)
Module IncrementalCacheKind.
Inductive t := APP_PAGE | APP_ROUTE | PAGES | FETCH | IMAGE.
End IncrementalCacheKind.

(** A value of [OutgoingHttpHeaders]: [typeof] tells the three apart. *)
Inductive HeaderValue :=
| HString (s : string)
| HNumber (n : Z)
| HArray (l : list string).

Abbreviation Headers := (gmap string HeaderValue).

(** [TagsManifest = { version: 1, items: { [tag]: { revalidatedAt } } }]:
    [items m !! tag] is the number [m.items[tag]?.revalidatedAt], where
    there is one. *)
Record TagsManifest := {
  version : Z;
  items : gmap string Z
}.

(** [RouteMetadata], the content of a [.meta] sidecar. *)
Record RouteMetadata := {
  meta_status : option Z;
  meta_headers : option Headers;
  meta_postponed : option string
}.

(** [CachedFetchValue]: [{ kind: FETCH, data, tags?, revalidate }]. *)
Record CachedFetchData := {
  fetch_headers : gmap string string;
  fetch_body : string;
  fetch_url : string;
  fetch_status : option Z
}.

Record CachedFetchValue := {
  fetch_data : CachedFetchData;
  fetch_tags : option (list string);
  fetch_revalidate : Z
}.

(** What [JSON.parse] yields and [JSON.stringify] takes.  [JSON.parse]
    checks no type: whatever document a file holds is what the handler goes
    on with, and the documents differ for it by the members it reads of them.
    [DNull] is [null].  A [TagsManifest] is the document with a member
    [items], an object whose entries each have a number [revalidatedAt]; a
    [RouteMetadata] the one with the members [headers], [status] and
    [postponed]; a [CachedFetchValue] the one with [kind: 'FETCH'], [data]
    and [tags].  [DOther] is a document that is none of them and has none of
    these members nor [html]: an object such as [{}] or a page's data
    payload, an array, a number other than [0], a string other than [''],
    [true]; it is named by its canonical text.  The values [false], [0] and
    [''] and the documents that have such a member at another type are not
    represented. *)
Inductive Doc :=
| DNull
| DManifest (m : TagsManifest)
| DMeta (m : RouteMetadata)
| DFetch (v : CachedFetchValue)
| DOther (canon : string).

(** What the module-level variable [tagsManifest] holds once it is truthy:
    a manifest or, after [JSON.parse] of a document of another shape, a
    value without [items]. *)
Inductive Manifest :=
| Shaped (m : TagsManifest)
| Shapeless.

(** The content of a file, and what [readFile] hands back: a string or a
    Buffer.  [JSON.parse] is the only operation the handler applies to such a
    text, so a text that is a JSON document is kept as the document it
    denotes, and any other text as its characters. *)
Inductive Blob :=
| Raw (s : string)
| Json (d : Doc).

(** [IncrementalCacheValue], a union tagged by [CachedRouteKind].
    [CachedUnknown] is a value of none of its kinds: what [get] takes from a
    fetch file that holds a document other than [null] and a fetch value,
    since the annotation [CachedFetchValue] of line 231 is not checked. *)
Inductive IncrementalCacheValue :=
| CachedAppPageValue (html : Blob) (rscData : option Blob)
    (postponed : option string) (headers : option Headers) (status : option Z)
| CachedRouteValue (body : Blob) (headers : option Headers) (status : option Z)
| CachedPageValue (html : Blob) (pageData : Doc)
    (headers : option Headers) (status : option Z)
| CachedFetch (v : CachedFetchValue)
| CachedRedirectValue (props : Doc)
| CachedImageValue (buffer : Blob)
| CachedUnknown (d : Doc).

Module CachedRouteKind.
Inductive t := APP_PAGE | APP_ROUTE | PAGES | FETCH | REDIRECT | IMAGE.
End CachedRouteKind.

(** [value.kind]; a value of none of the kinds has no such member. *)
Definition kind_of (v : IncrementalCacheValue) : option CachedRouteKind.t :=
  match v with
  | CachedAppPageValue _ _ _ _ _ => Some CachedRouteKind.APP_PAGE
  | CachedRouteValue _ _ _ => Some CachedRouteKind.APP_ROUTE
  | CachedPageValue _ _ _ _ => Some CachedRouteKind.PAGES
  | CachedFetch _ => Some CachedRouteKind.FETCH
  | CachedRedirectValue _ => Some CachedRouteKind.REDIRECT
  | CachedImageValue _ => Some CachedRouteKind.IMAGE
  | CachedUnknown _ => None
  end.

(** [CacheHandlerValue]: an entry of either tier.  [value = None] is
    [value: null], a recorded miss. *)
Record CacheHandlerValue := {
  lastModified : Z;
  value : option IncrementalCacheValue
}.

(** ** What the file imports

    The constants of [lib/constants], [path.join] and [path.dirname] of the
    isomorphic [path] module and the lengths of serialised texts are not part
    of this file; they are taken as given. *)
Class Imports := {
  NEXT_CACHE_TAGS_HEADER : string;
  NEXT_DATA_SUFFIX : string;
  NEXT_META_SUFFIX : string;
  RSC_PREFETCH_SUFFIX : string;
  RSC_SUFFIX : string;
  path_join : list string -> string;
  path_dirname : string -> string;
  (** [JSON.stringify(d).length] *)
  json_length : Doc -> nat;
  (** [JSON.stringify(value.data || '').length] *)
  fetch_data_length : CachedFetchData -> nat;
  (** [JSON.stringify(buffer).length] *)
  buffer_json_length : Blob -> nat
}.

(** ** Strings *)

(** [s.split(',')]: never empty, [''.split(',')] is [['']]. *)
Fixpoint split_comma (s : string) : list string :=
  match s with
  | EmptyString => [EmptyString]
  | String c rest =>
      if Ascii.eqb c ","%char then EmptyString :: split_comma rest
      else match split_comma rest with
           | [] => [String c EmptyString]
           | w :: ws => String c w :: ws
           end
  end.

(** [s.endsWith(suffix)]. *)
Definition ends_with (suffix s : string) : bool :=
  let n := String.length s in
  let k := String.length suffix in
  (k <=? n)%nat && String.eqb (substring (n - k) k s) suffix.

(** [s.replace(/<old>$/, new)] for a literal [old]: the regular expression
    is anchored at the end of the input, and a string it does not match is
    returned as it is. *)
Definition replace_suffix (old new s : string) : string :=
  if ends_with old s
  then substring 0 (String.length s - String.length old) s ++ new
  else s.

(** [text.length]. *)
Definition blob_length `{Imports} (b : Blob) : nat :=
  match b with
  | Raw s => String.length s
  | Json d => json_length d
  end.

(** ** Errors and effects *)

Inductive Error :=
| ENOENT (path : string)
| EACCES (path : string)
| SyntaxError
| TypeError
| Invariant (msg : string).

(** The calls the handler makes on what lies outside it: the [CacheFs]
    capability, the console, and the construction of the memory tier. *)
Inductive Event :=
| ReadFile (path : string)
| Stat (path : string)
| Mkdir (path : string)
| WriteFile (path : string) (data : Blob)
| ConsoleLog (msg : string)
| ConsoleWarn (msg : string)
| NewLRUCache (max : nat).

Record File := {
  content : Blob;
  mtime : Z
}.

(** ** The memory tier

    Modelled from the spec: the [lru-cache] package under
    [next/dist/compiled] is not part of this file.  It is the "generic
    capacity-bounded, least-recently-used container ... with a pluggable
    size function": entries are kept most recently used first, each with the
    length computed when it was stored; a [set] that would exceed [max]
    evicts from the least recently used end, and an entry longer than [max]
    on its own is not kept. *)
Record LRUEntry := {
  lru_key : string;
  lru_value : CacheHandlerValue;
  lru_len : nat
}.

Record LRUCache := {
  lru_max : nat;
  lru_list : list LRUEntry
}.

Definition lru_total (l : list LRUEntry) : nat :=
  foldr (fun e acc => (lru_len e + acc)%nat) 0%nat l.

(** Drop least recently used entries until the total fits. *)
Fixpoint lru_trim (max : nat) (l : list LRUEntry) : list LRUEntry :=
  match l with
  | [] => []
  | e :: rest =>
      let rest' := lru_trim (max - lru_len e) rest in
      if (lru_len e <=? max)%nat then e :: rest' else []
  end.

Definition lru_remove (key : string) (l : list LRUEntry) : list LRUEntry :=
  filter (fun e => lru_key e ≠ key) l.

Definition lru_find (key : string) (l : list LRUEntry) : option LRUEntry :=
  list_find (fun e => lru_key e = key) l ≫= λ p, Some p.2.

(** [cache.get(key)]: the entry becomes the most recently used one. *)
Definition lru_get (key : string) (c : LRUCache)
  : option CacheHandlerValue * LRUCache :=
  match lru_find key (lru_list c) with
  | Some e =>
      (Some (lru_value e),
       {| lru_max := lru_max c;
          lru_list := e :: lru_remove key (lru_list c) |})
  | None => (None, c)
  end.

(** [cache.set(key, value)] once the length [len] of [value] is known. *)
Definition lru_set (key : string) (v : CacheHandlerValue) (len : nat)
    (c : LRUCache) : LRUCache :=
  if (lru_max c <? len)%nat
  then {| lru_max := lru_max c; lru_list := lru_remove key (lru_list c) |}
  else {| lru_max := lru_max c;
          lru_list :=
            lru_trim (lru_max c)
              ({| lru_key := key; lru_value := v; lru_len := len |}
                 :: lru_remove key (lru_list c)) |}.

(** The [length] option the constructor passes to the memory tier
    (lines 58-79); it throws on an image, and on a value of none of the
    kinds, which has no [html] to take the length of. *)
Definition length_of `{Imports} (e : CacheHandlerValue) : Error + nat :=
  match value e with
  | None => inr 25%nat
  | Some (CachedRedirectValue props) => inr (json_length props)
  | Some (CachedImageValue _) =>
      inl (Invariant "invariant image should not be incremental-cache")
  | Some (CachedFetch v) => inr (fetch_data_length (fetch_data v))
  | Some (CachedRouteValue body _ _) => inr (blob_length body)
  | Some (CachedAppPageValue html rscData _ _ _) =>
      inr (blob_length html
           + match rscData with
             | Some b => buffer_json_length b
             | None => 0
             end)%nat
  | Some (CachedPageValue html pageData _ _) =>
      inr (blob_length html + json_length pageData)%nat
  | Some (CachedUnknown _) => inl TypeError
  end.

(** ** The process and its surroundings *)

(** The two module-level variables of the file, the disk behind the
    [CacheFs] capability, the clock and the process environment.
    [tagsManifest = None] is the variable while it is [undefined] or [null],
    between which the handler makes no difference.  [trace] records the
    calls made so far, the latest first.  The clock stands still while one
    operation runs: every [Date.now()] of it reads the same [now]. *)
Record World := {
  memoryCache : option LRUCache;
  tagsManifest : option Manifest;
  files : gmap string File;
  (** paths on which [mkdir] and [writeFile] fail *)
  unwritable : gset string;
  (** paths on which [stat] fails *)
  unstatable : gset string;
  (** [Date.now()] *)
  now : Z;
  (** [process.env.NEXT_RUNTIME === 'edge'] *)
  edge_runtime : bool;
  (** [!!process.env.NEXT_PRIVATE_DEBUG_CACHE] *)
  debug_env : bool;
  trace : list Event
}.

Definition with_memoryCache (c : option LRUCache) (w : World) : World :=
  {| memoryCache := c; tagsManifest := tagsManifest w; files := files w;
     unwritable := unwritable w; unstatable := unstatable w; now := now w;
     edge_runtime := edge_runtime w; debug_env := debug_env w;
     trace := trace w |}.

Definition with_tagsManifest (m : option Manifest) (w : World) : World :=
  {| memoryCache := memoryCache w; tagsManifest := m; files := files w;
     unwritable := unwritable w; unstatable := unstatable w; now := now w;
     edge_runtime := edge_runtime w; debug_env := debug_env w;
     trace := trace w |}.

Definition with_files (f : gmap string File) (w : World) : World :=
  {| memoryCache := memoryCache w; tagsManifest := tagsManifest w; files := f;
     unwritable := unwritable w; unstatable := unstatable w; now := now w;
     edge_runtime := edge_runtime w; debug_env := debug_env w;
     trace := trace w |}.

Definition emit (e : Event) (w : World) : World :=
  {| memoryCache := memoryCache w; tagsManifest := tagsManifest w;
     files := files w; unwritable := unwritable w;
     unstatable := unstatable w; now := now w;
     edge_runtime := edge_runtime w; debug_env := debug_env w;
     trace := e :: trace w |}.

(** ** Operations: state passing with exceptions *)

Inductive Result (A : Type) :=
| Ok (a : A)
| Throw (e : Error).
Arguments Ok {A} a.
Arguments Throw {A} e.

Definition Op (A : Type) : Type := World -> Result A * World.

Definition ret {A} (a : A) : Op A := fun w => (Ok a, w).

Definition throw {A} (e : Error) : Op A := fun w => (Throw e, w).

Definition bind {A B} (m : Op A) (f : A -> Op B) : Op B :=
  fun w =>
    match m w with
    | (Ok a, w') => f a w'
    | (Throw e, w') => (Throw e, w')
    end.

(** [try { m } catch { h }]. *)
Definition try_catch {A} (m : Op A) (h : Error -> Op A) : Op A :=
  fun w =>
    match m w with
    | (Ok a, w') => (Ok a, w')
    | (Throw e, w') => h e w'
    end.

Definition gets {A} (f : World -> A) : Op A := fun w => (Ok (f w), w).

Definition modify (f : World -> World) : Op unit := fun w => (Ok tt, f w).

Definition when (b : bool) (m : Op unit) : Op unit :=
  if b then m else ret tt.

Declare Scope op_scope.
Delimit Scope op_scope with op.
Bind Scope op_scope with Op.

Notation "x <- m ;; k" := (bind m (fun x => k))
  (at level 100, m at next level, right associativity) : op_scope.
Notation "m ;; k" := (bind m (fun _ => k))
  (at level 100, right associativity) : op_scope.

Open Scope op_scope.

(** *** The [CacheFs] capability *)

Definition readFile (path : string) : Op Blob :=
  modify (emit (ReadFile path)) ;;
  f <- gets (fun w => files w !! path) ;;
  match f with
  | Some f => ret (content f)
  | None => throw (ENOENT path)
  end.

Definition stat (path : string) : Op Z :=
  modify (emit (Stat path)) ;;
  f <- gets (fun w => files w !! path) ;;
  denied <- gets (fun w => bool_decide (path ∈ unstatable w)) ;;
  match f with
  | Some f => if denied then throw (EACCES path) else ret (mtime f)
  | None => throw (ENOENT path)
  end.

(** [mkdir(dir, { recursive: true })]. *)
Definition mkdir (path : string) : Op unit :=
  modify (emit (Mkdir path)) ;;
  denied <- gets (fun w => bool_decide (path ∈ unwritable w)) ;;
  if denied then throw (EACCES path) else ret tt.

Definition writeFile (path : string) (data : Blob) : Op unit :=
  modify (emit (WriteFile path data)) ;;
  denied <- gets (fun w => bool_decide (path ∈ unwritable w)) ;;
  if denied then throw (EACCES path)
  else
    modify (fun w =>
      with_files (<[path := {| content := data; mtime := now w |}]> (files w)) w).

Definition console_log (msg : string) : Op unit :=
  modify (emit (ConsoleLog msg)).

Definition console_warn (msg : string) : Op unit :=
  modify (emit (ConsoleWarn msg)).

(** *** [JSON.parse] and what the handler reads of its result

    A text that is no JSON document does not parse; every document does,
    whatever type the caller annotates. *)
Definition JSON_parse (text : Blob) : Op Doc :=
  match text with
  | Json d => ret d
  | Raw _ => throw SyntaxError
  end.

Definition JSON_stringify (d : Doc) : Blob := Json d.

(** The value [tagsManifest = JSON.parse(...)] leaves in the variable. *)
Definition as_manifest (d : Doc) : option Manifest :=
  match d with
  | DNull => None
  | DManifest m => Some (Shaped m)
  | _ => Some Shapeless
  end.

(** The members [headers], [status] and [postponed] of a document: those of
    a [RouteMetadata]; another document has none of them, and reading them
    yields [undefined]. *)
Definition metadata_of (d : Doc) : option RouteMetadata :=
  match d with
  | DMeta m => Some m
  | _ => None
  end.

(** [meta.headers], [meta.status] without [?.] (lines 208-209): reading a
    member of [null] throws. *)
Definition members_of (d : Doc) : Op (option RouteMetadata) :=
  match d with
  | DNull => throw TypeError
  | _ => ret (metadata_of d)
  end.

(** [value: parsedData] (lines 231-235): the document as a cache value. *)
Definition value_of (d : Doc) : option IncrementalCacheValue :=
  match d with
  | DNull => None
  | DFetch v => Some (CachedFetch v)
  | _ => Some (CachedUnknown d)
  end.

(** [array.some(callback)] with a callback that may throw: the elements are
    visited in order, up to the first for which it returns [true]. *)
Fixpoint Array_some {A} (callback : A -> Op bool) (array : list A) : Op bool :=
  match array with
  | [] => ret false
  | x :: rest =>
      b <- callback x ;;
      if b then ret true else Array_some callback rest
  end.

(** *** The memory tier, through the module-level variable *)

(** [memoryCache?.get(key)]. *)
Definition memoryCache_get (key : string) : Op (option CacheHandlerValue) :=
  c <- gets memoryCache ;;
  match c with
  | Some c =>
      match lru_get key c with
      | (Some e, c') => modify (with_memoryCache (Some c')) ;; ret (Some e)
      | (None, _) => ret None
      end
  | None => ret None
  end.

(** [memoryCache?.set(key, entry)]. *)
Definition memoryCache_set `{Imports} (key : string) (e : CacheHandlerValue)
  : Op unit :=
  c <- gets memoryCache ;;
  match c with
  | Some c =>
      match length_of e with
      | inr len => modify (with_memoryCache (Some (lru_set key e len c)))
      | inl err => throw err
      end
  | None => ret tt
  end.

(** ** The [FileSystemCache] class *)

(** The private fields of an instance. *)
Record FileSystemCache := {
  flushToDisk : bool;
  serverDistDir : string;
  tagsManifestPath : option string;
  revalidatedTags : list string;
  debug : bool
}.

(** [FileSystemCacheContext], the argument of the constructor.  A
    [maxMemoryCacheSize] that is absent or zero configures no memory tier;
    the [fs] capability, which the type requires, is the disk of the
    world. *)
Record FileSystemCacheContext := {
  ctx_flushToDisk : bool;
  ctx_serverDistDir : string;
  ctx_revalidatedTags : list string;
  maxMemoryCacheSize : option nat
}.

(** The context of [get]. *)
Record GetContext := {
  kind : IncrementalCacheKind.t;
  tags : option (list string);
  softTags : option (list string);
  isRoutePPREnabled : bool;
  isFallback : bool
}.

(** The context of [set]. *)
Record SetContext := {
  set_tags : option (list string);
  set_isRoutePPREnabled : bool;
  set_isFallback : bool
}.

(** The block of [get] that reads the persistent tier either returns from
    [get] or falls through with the candidate. *)
Inductive Flow (A : Type) :=
| Return (r : A)
| Proceed (data : A).
Arguments Return {A} r.
Arguments Proceed {A} data.

Definition empty_manifest : TagsManifest :=
  {| version := 1; items := ∅ |}.

Section FileSystemCache.
Context `{Imports}.

(** [resetRequestCache] (line 99): a hook that does nothing. *)
Definition resetRequestCache (this : FileSystemCache) : Op unit := ret tt.

(** [getFilePath] (lines 475-496). *)
Definition getFilePath (this : FileSystemCache) (pathname : string)
    (k : IncrementalCacheKind.t) : string :=
  match k with
  | IncrementalCacheKind.FETCH =>
      path_join [serverDistDir this; ".."; "cache"; "fetch-cache"; pathname]
  | IncrementalCacheKind.PAGES =>
      path_join [serverDistDir this; "pages"; pathname]
  | IncrementalCacheKind.IMAGE
  | IncrementalCacheKind.APP_PAGE
  | IncrementalCacheKind.APP_ROUTE =>
      path_join [serverDistDir this; "app"; pathname]
  end.

(** [loadTagsManifest] (lines 104-114). *)
Definition loadTagsManifest (this : FileSystemCache) : Op unit :=
  loaded <- gets tagsManifest ;;
  match tagsManifestPath this, loaded with
  | None, _ | _, Some _ => ret tt
  | Some path, None =>
      try_catch
        (text <- readFile path ;;
         d <- JSON_parse text ;;
         modify (with_tagsManifest (as_manifest d)))
        (fun _ => modify (with_tagsManifest (Some (Shaped empty_manifest)))) ;;
      when (debug this) (console_log "loadTagsManifest")
  end.

(** [loadTagsManifestSync] (lines 121-131): the same, on [readFileSync]. *)
Definition loadTagsManifestSync (this : FileSystemCache) : Op unit :=
  loaded <- gets tagsManifest ;;
  match tagsManifestPath this, loaded with
  | None, _ | _, Some _ => ret tt
  | Some path, None =>
      try_catch
        (text <- readFile path ;;
         d <- JSON_parse text ;;
         modify (with_tagsManifest (as_manifest d)))
        (fun _ => modify (with_tagsManifest (Some (Shaped empty_manifest)))) ;;
      when (debug this) (console_log "loadTagsManifest")
  end.

(** The constructor (lines 43-97). *)
Definition new_FileSystemCache (ctx : FileSystemCacheContext)
  : Op FileSystemCache :=
  dbg <- gets debug_env ;;
  match maxMemoryCacheSize ctx with
  | Some (S n) =>
      c <- gets memoryCache ;;
      match c with
      | None =>
          when dbg (console_log "using memory store for fetch cache") ;;
          modify (emit (NewLRUCache (S n))) ;;
          modify (with_memoryCache
                    (Some {| lru_max := S n; lru_list := [] |}))
      | Some _ => ret tt
      end
  | _ => when dbg (console_log "not using memory store for fetch cache")
  end ;;
  if bool_decide (ctx_serverDistDir ctx = "")
  then
    ret {| flushToDisk := ctx_flushToDisk ctx;
           serverDistDir := ctx_serverDistDir ctx;
           tagsManifestPath := None;
           revalidatedTags := ctx_revalidatedTags ctx;
           debug := dbg |}
  else
    let this :=
      {| flushToDisk := ctx_flushToDisk ctx;
         serverDistDir := ctx_serverDistDir ctx;
         tagsManifestPath :=
           Some (path_join [ctx_serverDistDir ctx; ".."; "cache";
                            "fetch-cache"; "tags-manifest.json"]);
         revalidatedTags := ctx_revalidatedTags ctx;
         debug := dbg |} in
    loadTagsManifestSync this ;;
    ret this.

(** The loop of [revalidateTag] (lines 155-159) on a manifest: every tag
    is stamped with [Date.now()].  [items[tag] || {}] finds the entry of the
    tag or makes one; for a tag that names a member of [Object.prototype]
    ([constructor], [__proto__], ...) and has no entry it finds the inherited
    member instead, which is stamped in its place and which
    [JSON.stringify] leaves out of the file: the properties of the written
    manifest are stated for the other tags, see [plain_tag]. *)
Definition stamp (t : Z) (tags : list string) (m : TagsManifest)
  : TagsManifest :=
  {| version := version m;
     items := foldl (fun its tag => <[tag := t]> its) (items m) tags |}.

(** [revalidateTag] (lines 133-173); [tags] is the argument once a single
    string has been wrapped into a list. *)
Definition revalidateTag (this : FileSystemCache) (tags : list string)
  : Op unit :=
  when (debug this) (console_log "revalidateTag") ;;
  match tags with
  | [] => ret tt
  | _ :: _ =>
      loadTagsManifest this ;;
      loaded <- gets tagsManifest ;;
      match loaded, tagsManifestPath this with
      | Some (Shaped m), Some path =>
          t <- gets now ;;
          let m' := stamp t tags m in
          modify (with_tagsManifest (Some (Shaped m'))) ;;
          try_catch
            (mkdir (path_dirname path) ;;
             writeFile path (JSON_stringify (DManifest m')) ;;
             when (debug this) (console_log "Updated tags manifest"))
            (fun _ => console_warn "Failed to update tags manifest.")
      | Some Shapeless, Some path =>
          (* line 156: [tagsManifest.items] is [undefined] *)
          throw TypeError
      | _, _ => ret tt
      end
  end.

(** [set] (lines 383-473). *)
Definition set (this : FileSystemCache) (key : string)
    (data : option IncrementalCacheValue) (ctx : SetContext) : Op unit :=
  t <- gets now ;;
  memoryCache_set key {| lastModified := t; value := data |} ;;
  when (debug this) (console_log "set") ;;
  match flushToDisk this, data with
  | false, _ | _, None => ret tt
  | true, Some (CachedRouteValue body headers status) =>
      let filePath :=
        getFilePath this (key ++ ".body") IncrementalCacheKind.APP_ROUTE in
      mkdir (path_dirname filePath) ;;
      writeFile filePath body ;;
      let meta :=
        {| meta_status := status; meta_headers := headers;
           meta_postponed := None |} in
      writeFile (replace_suffix ".body" NEXT_META_SUFFIX filePath)
        (JSON_stringify (DMeta meta))
  | true, Some (CachedPageValue html pageData headers status) =>
      let htmlPath :=
        getFilePath this (key ++ ".html") IncrementalCacheKind.PAGES in
      mkdir (path_dirname htmlPath) ;;
      writeFile htmlPath html ;;
      when (negb (set_isFallback ctx))
        (writeFile
           (getFilePath this (key ++ NEXT_DATA_SUFFIX)
              IncrementalCacheKind.PAGES)
           (JSON_stringify pageData))
  | true, Some (CachedAppPageValue html rscData postponed headers status) =>
      let htmlPath :=
        getFilePath this (key ++ ".html") IncrementalCacheKind.APP_PAGE in
      mkdir (path_dirname htmlPath) ;;
      writeFile htmlPath html ;;
      when (negb (set_isFallback ctx))
        (let dataPath :=
           getFilePath this
             (key ++ (if set_isRoutePPREnabled ctx
                      then RSC_PREFETCH_SUFFIX else RSC_SUFFIX))
             IncrementalCacheKind.APP_PAGE in
         match rscData with
         | Some b => writeFile dataPath b
         | None => throw TypeError (* [writeFile] rejects [undefined] data *)
         end) ;;
      let meta :=
        {| meta_status := status; meta_headers := headers;
           meta_postponed := postponed |} in
      writeFile (replace_suffix ".html" NEXT_META_SUFFIX htmlPath)
        (JSON_stringify (DMeta meta))
  | true, Some (CachedFetch v) =>
      let filePath := getFilePath this key IncrementalCacheKind.FETCH in
      mkdir (path_dirname filePath) ;;
      writeFile filePath
        (JSON_stringify
           (DFetch {| fetch_data := fetch_data v;
                      fetch_tags := set_tags ctx;
                      fetch_revalidate := fetch_revalidate v |}))
  | true, Some _ =>
      throw (Invariant "Unexpected route kind in file system cache.")
  end.

(** [tags?.every((tag) => storedTags?.includes(tag))] (line 243). *)
Definition every_includes (tags storedTags : option (list string)) : bool :=
  match tags with
  | None => false
  | Some ts =>
      forallb (fun tag =>
                 match storedTags with
                 | Some st => bool_decide (tag ∈ st)
                 | None => false
                 end) ts
  end.

(** The reading of the persistent tier in [get] (lines 179-326). *)
Definition get_seed (this : FileSystemCache) (key : string) (ctx : GetContext)
  : Op (Flow (option CacheHandlerValue)) :=
  data <- memoryCache_get key ;;
  when (debug this) (console_log "get") ;;
  edge <- gets edge_runtime ;;
  match data with
  | Some _ => ret (Proceed data)
  | None =>
      if edge then ret (Proceed None)
      else
        match kind ctx with
        | IncrementalCacheKind.APP_ROUTE =>
            try_catch
              (let filePath :=
                 getFilePath this (key ++ ".body")
                   IncrementalCacheKind.APP_ROUTE in
               fileData <- readFile filePath ;;
               mt <- stat filePath ;;
               text <- readFile
                         (replace_suffix ".body" NEXT_META_SUFFIX filePath) ;;
               d <- JSON_parse text ;;
               meta <- members_of d ;;
               ret (Return
                      (Some {| lastModified := mt;
                               value :=
                                 Some (CachedRouteValue fileData
                                         (meta ≫= meta_headers)
                                         (meta ≫= meta_status)) |})))
              (fun _ => ret (Return None))
        | k =>
            try_catch
              (let filePath :=
                 getFilePath this
                   (match k with
                    | IncrementalCacheKind.FETCH => key
                    | _ => key ++ ".html"
                    end) k in
               fileData <- readFile filePath ;;
               mt <- stat filePath ;;
               match k with
               | IncrementalCacheKind.FETCH =>
                   if negb (flushToDisk this) then ret (Return None)
                   else
                     parsedData <- JSON_parse fileData ;;
                     let data :=
                       {| lastModified := mt;
                          value := value_of parsedData |} in
                     match value data with
                     | Some (CachedFetch v) =>
                         when (negb (every_includes (tags ctx) (fetch_tags v)))
                           (when (debug this)
                              (console_log "tags vs storedTags mismatch") ;;
                            set this key (value data)
                              {| set_tags := tags ctx;
                                 set_isRoutePPREnabled :=
                                   isRoutePPREnabled ctx;
                                 set_isFallback := false |})
                     | _ => ret tt
                     end ;;
                     memoryCache_set key data ;;
                     ret (Proceed (Some data))
               | IncrementalCacheKind.APP_PAGE =>
                   r <- (if isFallback ctx then ret (None, None)
                         else
                           meta <- try_catch
                                     (text <- readFile
                                        (replace_suffix ".html"
                                           NEXT_META_SUFFIX filePath) ;;
                                      d <- JSON_parse text ;;
                                      ret (metadata_of d))
                                     (fun _ => ret None) ;;
                           rscData <- readFile
                                        (getFilePath this
                                           (key ++ (if isRoutePPREnabled ctx
                                                    then RSC_PREFETCH_SUFFIX
                                                    else RSC_SUFFIX))
                                           IncrementalCacheKind.APP_PAGE) ;;
                           ret (meta, Some rscData)) ;;
                   let data :=
                     {| lastModified := mt;
                        value :=
                          Some (CachedAppPageValue fileData r.2
                                  (r.1 ≫= meta_postponed)
                                  (r.1 ≫= meta_headers)
                                  (r.1 ≫= meta_status)) |} in
                   memoryCache_set key data ;;
                   ret (Proceed (Some data))
               | IncrementalCacheKind.PAGES =>
                   pageData <- (if isFallback ctx then ret (DOther "{}")
                                else
                                  text <- readFile
                                            (getFilePath this
                                               (key ++ NEXT_DATA_SUFFIX)
                                               IncrementalCacheKind.PAGES) ;;
                                  JSON_parse text) ;;
                   let data :=
                     {| lastModified := mt;
                        value :=
                          Some (CachedPageValue fileData pageData
                                  None None) |} in
                   memoryCache_set key data ;;
                   ret (Proceed (Some data))
               | _ =>
                   throw
                     (Invariant
                        "Unexpected route kind in file system cache.")
               end)
              (fun _ => ret (Return None))
        end
  end.

(** [revalidatedAt && revalidatedAt >= (data?.lastModified || Date.now())]
    for one tag of a manifest (lines 344-347 and 368-371): a zero on either
    side is falsy. *)
Definition manifest_newer (manifest : option TagsManifest) (t : Z)
    (data : CacheHandlerValue) (tag : string) : bool :=
  match manifest ≫= (fun m : TagsManifest => items m !! tag) with
  | Some revalidatedAt =>
      negb (revalidatedAt =? 0)%Z
      && (revalidatedAt >=?
            (if (lastModified data =? 0)%Z then t else lastModified data))%Z
  | None => false
  end.

(** The same on the variable, [tagsManifest?.items[tag]?.revalidatedAt && ...]:
    [?.] stops at a variable that is [undefined] or [null]; on a value
    without [items] the index [undefined[tag]] throws. *)
Definition tagsManifest_newer (manifest : option Manifest) (t : Z)
    (data : CacheHandlerValue) (tag : string) : Op bool :=
  match manifest with
  | None => ret (manifest_newer None t data tag)
  | Some (Shaped m) => ret (manifest_newer (Some m) t data tag)
  | Some Shapeless => throw TypeError
  end.

(** [data.value.headers?.[NEXT_CACHE_TAGS_HEADER]] split at the commas when
    it is a string (lines 332-337). *)
Definition cacheTags (headers : option Headers) : option (list string) :=
  match headers ≫= (fun h : Headers => h !! NEXT_CACHE_TAGS_HEADER) with
  | Some (HString tagsHeader) => Some (split_comma tagsHeader)
  | _ => None
  end.

(** The staleness evaluation of [get] (lines 328-380). *)
Definition get_fresh (this : FileSystemCache) (ctx : GetContext)
    (data : option CacheHandlerValue) : Op (option CacheHandlerValue) :=
  match data with
  | None => ret None
  | Some d =>
      let page headers :=
        match cacheTags headers with
        | Some ((_ :: _) as cts) =>
            loadTagsManifest this ;;
            manifest <- gets tagsManifest ;;
            t <- gets now ;;
            isStale <- Array_some (tagsManifest_newer manifest t d) cts ;;
            if isStale then ret None else ret (Some d)
        | _ => ret (Some d)
        end in
      match value d with
      | Some (CachedAppPageValue _ _ _ headers _) => page headers
      | Some (CachedPageValue _ _ headers _) => page headers
      | Some (CachedFetch _) =>
          loadTagsManifest this ;;
          manifest <- gets tagsManifest ;;
          t <- gets now ;;
          let combinedTags :=
            (default [] (tags ctx) ++ default [] (softTags ctx))%list in
          wasRevalidated <-
            Array_some (fun tag =>
                          if bool_decide (tag ∈ revalidatedTags this)
                          then ret true
                          else tagsManifest_newer manifest t d tag)
              combinedTags ;;
          if wasRevalidated then ret None else ret (Some d)
      | _ => ret (Some d)
      end
  end.

(** [get] (lines 175-381). *)
Definition get (this : FileSystemCache) (key : string) (ctx : GetContext)
  : Op (option CacheHandlerValue) :=
  r <- get_seed this key ctx ;;
  match r with
  | Return v => ret v
  | Proceed data => get_fresh this ctx data
  end.

End FileSystemCache.

(** ** A sample installation

    The values the imports have in a POSIX deployment, on which the
    operations above can be run: the suffixes and the header name of
    [lib/constants], [path.join] with its normalisation of [.] and [..]
    segments, and byte counts that stand for the serialised lengths. *)
Module Sample.

(** The segments of a path between its slashes. *)
Fixpoint segments (s : string) : list string :=
  match s with
  | EmptyString => [EmptyString]
  | String c rest =>
      if Ascii.eqb c "/"%char then EmptyString :: segments rest
      else match segments rest with
           | [] => [String c EmptyString]
           | w :: ws => String c w :: ws
           end
  end.

(** Resolve [.], [..] and empty segments; the result is in reverse order. *)
Fixpoint normalize (acc segs : list string) : list string :=
  match segs with
  | [] => acc
  | seg :: rest =>
      if String.eqb seg "" || String.eqb seg "." then normalize acc rest
      else if String.eqb seg ".."
           then normalize (tail acc) rest
           else normalize (seg :: acc) rest
  end.

Definition is_absolute (s : string) : bool :=
  match s with
  | String c _ => Ascii.eqb c "/"%char
  | EmptyString => false
  end.

Definition join (parts : list string) : string :=
  let whole := String.concat "/" parts in
  let body := String.concat "/" (rev (normalize [] (segments whole))) in
  if is_absolute whole then "/" ++ body else body.

Definition dirname (p : string) : string :=
  let body := String.concat "/" (rev (tail (normalize [] (segments p)))) in
  if is_absolute p then "/" ++ body else body.

Definition doc_size (d : Doc) : nat :=
  match d with
  | DOther canon => String.length canon
  | _ => 64%nat
  end.

Definition blob_size (b : Blob) : nat :=
  match b with
  | Raw s => String.length s
  | Json d => doc_size d
  end.

Definition imports : Imports := {|
  NEXT_CACHE_TAGS_HEADER := "x-next-cache-tags";
  NEXT_DATA_SUFFIX := ".json";
  NEXT_META_SUFFIX := ".meta";
  RSC_PREFETCH_SUFFIX := ".prefetch.rsc";
  RSC_SUFFIX := ".rsc";
  path_join := join;
  path_dirname := dirname;
  json_length := doc_size;
  fetch_data_length := fun d => (64 + String.length (fetch_body d))%nat;
  buffer_json_length := blob_size
|}.

(** A world with nothing in it. *)
Definition boot (t : Z) : World :=
  {| memoryCache := None; tagsManifest := None; files := ∅;
     unwritable := ∅; unstatable := ∅; now := t;
     edge_runtime := false; debug_env := false; trace := [] |}.

(** An instance as the constructor makes it for [/srv/.next/server]. *)
Definition handler : FileSystemCache :=
  {| flushToDisk := true;
     serverDistDir := "/srv/.next/server";
     tagsManifestPath := Some "/srv/.next/cache/fetch-cache/tags-manifest.json";
     revalidatedTags := [];
     debug := false |}.

End Sample.

#[global] Existing Instance Sample.imports.

(** Worlds and requests on the sample installation. *)
Module Runs.

Definition manifest_of (l : list (string * Z)) : TagsManifest :=
  {| version := 1; items := list_to_map l |}.

Definition fetched (body : string) (tags : option (list string))
  : CachedFetchValue :=
  {| fetch_data :=
       {| fetch_headers := ∅; fetch_body := body;
          fetch_url := "https://example.com/posts";
          fetch_status := Some 200 |};
     fetch_tags := tags;
     fetch_revalidate := 60 |}.

Definition fetch_ctx (tags : list string) : GetContext :=
  {| kind := IncrementalCacheKind.FETCH; tags := Some tags;
     softTags := None; isRoutePPREnabled := false; isFallback := false |}.

Definition kind_ctx (k : IncrementalCacheKind.t) (fallback : bool)
  : GetContext :=
  {| kind := k; tags := None; softTags := None;
     isRoutePPREnabled := false; isFallback := fallback |}.

Definition file (data : Blob) (t : Z) : File :=
  {| content := data; mtime := t |}.

(** The world at time [t] with the given files, manifest in memory and
    memory tier; every file can be written and stat'ed. *)
Definition world (t : Z) (fs : list (string * File))
    (manifest : option TagsManifest) (memory : option LRUCache) : World :=
  {| memoryCache := memory; tagsManifest := Shaped <$> manifest;
     files := list_to_map fs; unwritable := ∅; unstatable := ∅; now := t;
     edge_runtime := false; debug_env := false; trace := [] |}.


Definition empty_cache (max : nat) : LRUCache :=
  {| lru_max := max; lru_list := [] |}.

Definition set_ctx (tags : option (list string)) : SetContext :=
  {| set_tags := tags; set_isRoutePPREnabled := false;
     set_isFallback := false |}.

Definition cache_ctx (size : option nat) : FileSystemCacheContext :=
  {| ctx_flushToDisk := true; ctx_serverDistDir := "/srv/.next/server";
     ctx_revalidatedTags := []; maxMemoryCacheSize := size |}.

(** The sample instance with persistence disabled. *)
Definition memory_only : FileSystemCache :=
  {| flushToDisk := false;
     serverDistDir := "/srv/.next/server";
     tagsManifestPath :=
       Some "/srv/.next/cache/fetch-cache/tags-manifest.json";
     revalidatedTags := [];
     debug := false |}.

Definition route_value : IncrementalCacheValue :=
  CachedRouteValue (Raw "hi") None (Some 200).

Definition tagged (header : HeaderValue) : option Headers :=
  Some {[ "x-next-cache-tags" := header ]}.

Definition page_value (headers : option Headers) : IncrementalCacheValue :=
  CachedPageValue (Raw "<p>about</p>") (DOther "{}") headers (Some 200).

Definition entry (t : Z) (v : IncrementalCacheValue) : CacheHandlerValue :=
  {| lastModified := t; value := Some v |}.

(** A memory tier of capacity 1000 that holds one entry. *)
Definition cache_with (key : string) (e : CacheHandlerValue) : LRUCache :=
  {| lru_max := 1000;
     lru_list := [{| lru_key := key; lru_value := e; lru_len := 10 |}] |}.

End Runs.

(** ** Vocabulary of the properties *)

(** An operation respects a preorder on worlds when every run of it, whether
    it returns or throws, ends in a world related to the one it started in. *)
Definition respects (R : relation World) {A} (m : Op A) : Prop :=
  forall w, R w (m w).2.

(** The run added only calls that satisfy [P] to the trace. *)
Definition emitting (P : Event -> Prop) : relation World :=
  fun w w' => exists new, trace w' = (new ++ trace w)%list /\ Forall P new.

(** The run left the component [f] of the world as it was. *)
Definition keeping {A} (f : World -> A) : relation World :=
  fun w w' => f w' = f w.

(** An operation that returns normally from every world. *)
Definition returns {A} (m : Op A) : Prop :=
  forall w, exists a, (m w).1 = Ok a.

(** The manifest document a file holds, if it holds one. *)
Definition stored_manifest (w : World) (path : string) : option TagsManifest :=
  match files w !! path with
  | Some f =>
      match content f with
      | Json (DManifest m) => Some m
      | _ => None
      end
  | None => None
  end.

(** The JSON document a file holds, if it holds one. *)
Definition stored_doc (w : World) (path : string) : option Doc :=
  match files w !! path with
  | Some f =>
      match content f with
      | Json d => Some d
      | Raw _ => None
      end
  | None => None
  end.

(** What the variable [tagsManifest] holds once [loadTagsManifest] has run:
    what it held, if anything; else what the document of the manifest file
    leaves in it or, for a file that is missing or no JSON document,
    [{ version: 1, items: {} }]; and nothing on an instance without a
    manifest path. *)
Definition loaded_manifest (this : FileSystemCache) (w : World)
  : option Manifest :=
  match tagsManifest w, tagsManifestPath this with
  | Some m, _ => Some m
  | None, Some path =>
      match stored_doc w path with
      | Some d => as_manifest d
      | None => Some (Shaped empty_manifest)
      end
  | None, None => None
  end.

(** The manifest the variable holds, when it holds one. *)
Definition shaped (manifest : option Manifest) : option TagsManifest :=
  match manifest with
  | Some (Shaped m) => Some m
  | _ => None
  end.



(** The tags under which the staleness evaluation of [get] looks a candidate
    up: those of its cache-tags header for a page, the request's tags and
    soft tags for a fetch. *)
Definition carries_tag `{Imports} (ctx : GetContext) (e : CacheHandlerValue)
    (tag : string) : Prop :=
  match value e with
  | Some (CachedAppPageValue _ _ _ headers _)
  | Some (CachedPageValue _ _ headers _) =>
      exists cts, cacheTags headers = Some cts /\ tag ∈ cts
  | Some (CachedFetch _) =>
      tag ∈ (default [] (tags ctx) ++ default [] (softTags ctx))%list
  | _ => False
  end.

(** The same instance with another list of tags revalidated in this
    execution cycle. *)
Definition with_revalidatedTags (l : list string) (this : FileSystemCache)
  : FileSystemCache :=
  {| flushToDisk := flushToDisk this; serverDistDir := serverDistDir this;
     tagsManifestPath := tagsManifestPath this; revalidatedTags := l;
     debug := debug this |}.

(** An operation that neither reads nor writes the manifest in memory: run
    with another manifest, it does the same and leaves that manifest. *)
Definition oblivious {A} (m : Op A) : Prop :=
  forall x w,
    m (with_tagsManifest x w) = ((m w).1, with_tagsManifest x (m w).2).

(** [get] finds nothing under [key] in the memory tier. *)
Definition memory_miss (key : string) (w : World) : Prop :=
  match memoryCache w with
  | Some c => lru_find key (lru_list c) = None
  | None => True
  end.

(** The world once [memoryCache?.set(key, e)] has stored an entry of
    length [len]. *)
Definition remember (key : string) (e : CacheHandlerValue) (len : nat)
    (w : World) : World :=
  match memoryCache w with
  | Some c => with_memoryCache (Some (lru_set key e len c)) w
  | None => w
  end.

(** The world once a debug message has been logged, if debugging is on. *)
Definition logged (dbg : bool) (msg : string) (w : World) : World :=
  if dbg then emit (ConsoleLog msg) w else w.

(** What [set] writes for a fetch value: the value under the tags of the
    call. *)
Definition retagged (tags : option (list string)) (v : CachedFetchValue)
  : CachedFetchValue :=
  {| fetch_data := fetch_data v; fetch_tags := tags;
     fetch_revalidate := fetch_revalidate v |}.

(** The metadata a sidecar file holds, if it holds some. *)
Definition stored_meta (w : World) (path : string) : option RouteMetadata :=
  match files w !! path with
  | Some f =>
      match content f with
      | Json (DMeta m) => Some m
      | _ => None
      end
  | None => None
  end.

(** The fetch value a file holds, if it holds one. *)
Definition stored_fetch (w : World) (path : string)
  : option CachedFetchValue :=
  match files w !! path with
  | Some f =>
      match content f with
      | Json (DFetch v) => Some v
      | _ => None
      end
  | None => None
  end.

(** The content file [get] reads for a key (lines 189-192 and 219-222). *)
Definition contentPath `{Imports} (this : FileSystemCache) (key : string)
    (k : IncrementalCacheKind.t) : string :=
  match k with
  | IncrementalCacheKind.APP_ROUTE =>
      getFilePath this (key ++ ".body") IncrementalCacheKind.APP_ROUTE
  | IncrementalCacheKind.FETCH => getFilePath this key k
  | _ => getFilePath this (key ++ ".html") k
  end.

(** The data-payload file of a page (lines 270-273 and 295-298). *)
Definition dataPath `{Imports} (this : FileSystemCache) (key : string)
    (k : IncrementalCacheKind.t) (ppr : bool) : string :=
  match k with
  | IncrementalCacheKind.PAGES =>
      getFilePath this (key ++ NEXT_DATA_SUFFIX) IncrementalCacheKind.PAGES
  | _ =>
      getFilePath this
        (key ++ (if ppr then RSC_PREFETCH_SUFFIX else RSC_SUFFIX))
        IncrementalCacheKind.APP_PAGE
  end.

(** The ways in which the reading of the persistent tier fails and makes
    [get] miss: the content file is missing or cannot be stat'ed, a fetch
    file is no JSON document, the sidecar of a route is missing, is no JSON
    document or is [null], or the data payload of a page that is no fallback
    is missing or, for a legacy page, is no JSON document. *)
Inductive read_failure `{Imports} (this : FileSystemCache) (key : string)
    (ctx : GetContext) (w : World) : Prop :=
| content_missing :
    files w !! contentPath this key (kind ctx) = None ->
    read_failure this key ctx w
| content_unstatable :
    contentPath this key (kind ctx) ∈ unstatable w ->
    read_failure this key ctx w
| fetch_unparsable :
    kind ctx = IncrementalCacheKind.FETCH ->
    stored_doc w (contentPath this key (kind ctx)) = None ->
    read_failure this key ctx w
| route_meta_unreadable :
    kind ctx = IncrementalCacheKind.APP_ROUTE ->
    stored_doc w
      (replace_suffix ".body" NEXT_META_SUFFIX
         (contentPath this key (kind ctx))) = None ->
    read_failure this key ctx w
| route_meta_null :
    kind ctx = IncrementalCacheKind.APP_ROUTE ->
    stored_doc w
      (replace_suffix ".body" NEXT_META_SUFFIX
         (contentPath this key (kind ctx))) = Some DNull ->
    read_failure this key ctx w
| app_page_data_missing :
    kind ctx = IncrementalCacheKind.APP_PAGE ->
    isFallback ctx = false ->
    files w !! dataPath this key (kind ctx) (isRoutePPREnabled ctx) = None ->
    read_failure this key ctx w
| pages_data_unreadable :
    kind ctx = IncrementalCacheKind.PAGES ->
    isFallback ctx = false ->
    stored_doc w (dataPath this key (kind ctx) (isRoutePPREnabled ctx))
    = None ->
    read_failure this key ctx w.

(** The page kind of a value, for the two page-like variants. *)
Definition page_kind_of (v : IncrementalCacheValue)
  : option IncrementalCacheKind.t :=
  match v with
  | CachedAppPageValue _ _ _ _ _ => Some IncrementalCacheKind.APP_PAGE
  | CachedPageValue _ _ _ _ => Some IncrementalCacheKind.PAGES
  | _ => None
  end.

(** [data.html]. *)
Definition html_of (v : IncrementalCacheValue) : option Blob :=
  match v with
  | CachedAppPageValue html _ _ _ _ => Some html
  | CachedPageValue html _ _ _ => Some html
  | _ => None
  end.

(** The sidecar of a page (lines 263 and 454). *)
Definition metaPath `{Imports} (this : FileSystemCache) (key : string)
    (k : IncrementalCacheKind.t) : string :=
  replace_suffix ".html" NEXT_META_SUFFIX (contentPath this key k).

(** The only files a fallback [set] of a page writes: the html file and,
    for an app page, the sidecar. *)
Definition fallback_write `{Imports} (this : FileSystemCache) (key : string)
    (k : IncrementalCacheKind.t) (e : Event) : Prop :=
  match e with
  | WriteFile p _ =>
      p = contentPath this key k
      \/ (k = IncrementalCacheKind.APP_PAGE /\ p = metaPath this key k)
  | _ => True
  end.

(** The only files a fallback [get] of a page reads: the html file and the
    tags manifest. *)
Definition fallback_read `{Imports} (this : FileSystemCache) (key : string)
    (k : IncrementalCacheKind.t) (e : Event) : Prop :=
  match e with
  | ReadFile p => p = contentPath this key k \/ tagsManifestPath this = Some p
  | _ => True
  end.

(** Any call at all. *)
Definition any_call (e : Event) : Prop := True.

(** The staleness rule without the two guards of the code: any
    [revalidatedAt] at or after the candidate's [lastModified] invalidates. *)
Definition stale_at_or_after `{Imports} (this : FileSystemCache)
    (key : string) (ctx : GetContext) (w : World) : Prop :=
  forall w1 e tag m revalidatedAt,
    get_seed this key ctx w = (Ok (Proceed (Some e)), w1) ->
    carries_tag ctx e tag ->
    loaded_manifest this w1 = Some (Shaped m) ->
    items m !! tag = Some revalidatedAt ->
    revalidatedAt >= lastModified e ->
    (get this key ctx w).1 = Ok None.

(** The write-back of [get] as a union: the tags stored afterwards include
    the tags stored before and the requested ones. *)
Definition stores_tag_union `{Imports} (this : FileSystemCache)
    (key : string) (ctx : GetContext) (w : World) : Prop :=
  let path := getFilePath this key IncrementalCacheKind.FETCH in
  forall v tag,
    stored_fetch w path = Some v ->
    every_includes (tags ctx) (fetch_tags v) = false ->
    tag ∈ default [] (fetch_tags v) \/ tag ∈ default [] (tags ctx) ->
    exists v',
      stored_fetch (get this key ctx w).2 path = Some v'
      /\ tag ∈ default [] (fetch_tags v').

(** A sidecar that is missing or holds no metadata as a failure of the
    read, for every kind. *)
Definition sidecar_failure_is_miss `{Imports} (this : FileSystemCache)
    (key : string) (ctx : GetContext) (w : World) : Prop :=
  memory_miss key w ->
  edge_runtime w = false ->
  stored_meta w (metaPath this key (kind ctx)) = None ->
  (get this key ctx w).1 = Ok None.

(** The paths of the [readFile] calls in a piece of trace. *)
Definition file_reads (evs : list Event) : list string :=
  omap (fun e => match e with ReadFile p => Some p | _ => None end) evs.

(** The load as the claim has it: two calls in sequence read the file at
    most once. *)
Definition loads_at_most_once (this : FileSystemCache) (w : World) : Prop :=
  forall new,
    trace (loadTagsManifest this (loadTagsManifest this w).2).2
    = (new ++ trace w)%list ->
    (length (file_reads new) <= 1)%nat.

(** No memory tier is constructed. *)
Definition no_NewLRUCache (e : Event) : Prop :=
  forall n, e <> NewLRUCache n.

(** While the memory cache is [c], it stays [c] and no cache is
    constructed. *)
Definition retaining (c : LRUCache) : relation World :=
  fun w w' =>
    memoryCache w = Some c ->
    memoryCache w' = Some c /\ emitting no_NewLRUCache w w'.

(** The calls [loadTagsManifest] may make. *)
Definition manifest_calls (this : FileSystemCache) (e : Event) : Prop :=
  (exists path, tagsManifestPath this = Some path /\ e = ReadFile path)
  \/ exists msg, e = ConsoleLog msg.

(** Calls that leave the file system alone. *)
Definition no_fs_call (e : Event) : Prop :=
  match e with
  | ReadFile _ | Stat _ | Mkdir _ | WriteFile _ _ => False
  | _ => True
  end.

(** Calls that write nothing. *)
Definition no_write (e : Event) : Prop :=
  match e with
  | Mkdir _ | WriteFile _ _ => False
  | _ => True
  end.

(** Calls that read nothing. *)
Definition no_read (e : Event) : Prop :=
  match e with
  | ReadFile _ | Stat _ => False
  | _ => True
  end.

(** A manifest in memory is still there afterwards. *)
Definition stays_loaded : relation World :=
  fun w w' => is_Some (tagsManifest w) -> is_Some (tagsManifest w').

(** Every file that exists still exists afterwards. *)
Definition files_persist : relation World :=
  fun w w' => forall p, is_Some (files w !! p) -> is_Some (files w' !! p).

(** Without a memory tier there is none afterwards. *)
Definition stays_without_memory : relation World :=
  fun w w' => memoryCache w = None -> memoryCache w' = None.

(** Only the file at [path] may differ afterwards. *)
Definition files_differ_at (path : string) : relation World :=
  fun w w' => forall p, p <> path -> files w' !! p = files w !! p.

(** The values whose staleness [get] evaluates: pages and fetches. *)
Definition tag_checked (data : option IncrementalCacheValue) : bool :=
  match data with
  | Some (CachedAppPageValue _ _ _ _ _)
  | Some (CachedPageValue _ _ _ _)
  | Some (CachedFetch _) => true
  | _ => false
  end.

(** [get] with other request tags and soft tags. *)
Definition with_tags (ts sts : option (list string)) (ctx : GetContext)
  : GetContext :=
  {| kind := kind ctx; tags := ts; softTags := sts;
     isRoutePPREnabled := isRoutePPREnabled ctx;
     isFallback := isFallback ctx |}.

(** The world as another process sees it: the same disk and clock, its own
    module-level variables. *)
Definition other_process (memory : option LRUCache)
    (manifest : option Manifest) (w : World) : World :=
  with_memoryCache memory (with_tagsManifest manifest w).

(** Whatever the operation returns satisfies [Q]. *)
Definition yields {A} (Q : A -> Prop) (m : Op A) : Prop :=
  forall w a w', m w = (Ok a, w') -> Q a.

(** A page without metadata, as the files give it for a legacy page and for
    the fallback of an app page. *)
Definition bare_page (e : CacheHandlerValue) : Prop :=
  (exists html pd, value e = Some (CachedPageValue html pd None None))
  \/ (exists html, value e = Some (CachedAppPageValue html None None None None)).

(** The candidate of a read is a bare page, if there is one. *)
Definition bare_candidate (r : Flow (option CacheHandlerValue)) : Prop :=
  match r with
  | Proceed (Some e) => bare_page e
  | _ => True
  end.

(** A tag without a comma. *)
Fixpoint comma_free (s : string) : bool :=
  match s with
  | EmptyString => true
  | String c rest => negb (Ascii.eqb c ","%char) && comma_free rest
  end.

(** The capacities of the memory tiers constructed in a piece of trace. *)
Definition constructions (evs : list Event) : list nat :=
  omap (fun e => match e with NewLRUCache k => Some k | _ => None end) evs.

(** ** Reasoning about operations *)

Section Respects.
Context (R : relation World) `{!PreOrder R}.

Lemma respects_ret {A} (a : A) : respects R (ret a).
Proof. intros w. reflexivity. Qed.

Lemma respects_throw {A} (e : Error) : respects R (@throw A e).
Proof. intros w. reflexivity. Qed.

Lemma respects_gets {A} (f : World -> A) : respects R (gets f).
Proof. intros w. reflexivity. Qed.

Lemma respects_modify (f : World -> World) :
  (forall w, R w (f w)) -> respects R (modify f).
Proof. intros Hf w. apply Hf. Qed.

Lemma respects_bind {A B} (m : Op A) (f : A -> Op B) :
  respects R m -> (forall a, respects R (f a)) -> respects R (bind m f).
Proof.
  intros Hm Hf w. unfold bind.
  specialize (Hm w). destruct (m w) as [[a | e] w1]; cbn in *.
  - transitivity w1; [exact Hm | apply Hf].
  - exact Hm.
Qed.

Lemma respects_try {A} (m : Op A) (h : Error -> Op A) :
  respects R m -> (forall e, respects R (h e)) -> respects R (try_catch m h).
Proof.
  intros Hm Hh w. unfold try_catch.
  specialize (Hm w). destruct (m w) as [[a | e] w1]; cbn in *.
  - exact Hm.
  - transitivity w1; [exact Hm | apply Hh].
Qed.

Lemma respects_when (b : bool) (m : Op unit) :
  respects R m -> respects R (when b m).
Proof. intros Hm. destruct b; [exact Hm | apply respects_ret]. Qed.

Lemma respects_Array_some {A} (f : A -> Op bool) (l : list A) :
  (forall x, respects R (f x)) -> respects R (Array_some f l).
Proof.
  intros Hf. induction l as [| x rest IH]; cbn.
  - apply respects_ret.
  - apply respects_bind; [apply Hf |].
    intros [|]; [apply respects_ret | exact IH].
Qed.

End Respects.

#[global] Instance emitting_preorder P : PreOrder (emitting P).
Proof.
  split.
  - intros w. exists []. split; [reflexivity | constructor].
  - intros a b c (n1 & E1 & F1) (n2 & E2 & F2).
    exists (n2 ++ n1)%list. split.
    + rewrite E2, E1. apply app_assoc.
    + apply Forall_app. split; assumption.
Qed.

#[global] Instance keeping_preorder {A} (f : World -> A) : PreOrder (keeping f).
Proof.
  split.
  - intros w. reflexivity.
  - intros a b c E1 E2. unfold keeping in *. congruence.
Qed.

Lemma emitting_emit (P : Event -> Prop) e w : P e -> emitting P w (emit e w).
Proof.
  intros HP. exists [e]. split; [reflexivity | repeat constructor; exact HP].
Qed.

Lemma emitting_silent (P : Event -> Prop) w w' :
  trace w' = trace w -> emitting P w w'.
Proof. intros E. exists []. split; [exact E | constructor]. Qed.

Lemma emitting_weaken (P Q : Event -> Prop) w w' :
  (forall e, P e -> Q e) -> emitting P w w' -> emitting Q w w'.
Proof.
  intros HPQ (new & E & F). exists new. split; [exact E |].
  eapply Forall_impl; eauto.
Qed.

Create HintDb respects discriminated.

(** Walk through the structure of an operation; what is left are the calls
    it makes and the operations it invokes. *)
Ltac respects_walk :=
  repeat first
    [ apply respects_ret; apply _
    | apply respects_throw; apply _
    | apply respects_gets; apply _
    | solve [eauto 2 with respects]
    | apply respects_when; [apply _ |]
    | apply respects_Array_some; [apply _ | intros ?]
    | apply respects_bind; [apply _ | | intros ?]
    | apply respects_try; [apply _ | | intros ?]
    | match goal with
      | |- respects _ (match ?x with _ => _ end) => destruct x
      | |- respects _ (if ?x then _ else _) => destruct x
      end ].

Ltac respects_prims :=
  progress unfold readFile, stat, mkdir, writeFile, console_log, console_warn,
    memoryCache_get, memoryCache_set, JSON_parse, members_of,
    tagsManifest_newer.

Ltac respects_auto :=
  repeat first
    [ progress respects_walk
    | respects_prims
    | apply respects_modify; intros ?;
      first [ reflexivity
            | apply emitting_silent; reflexivity
            | apply emitting_emit ] ].

(** Running a sequence whose first step is known. *)
Lemma bind_ok {A B} (m : Op A) (f : A -> Op B) w a w1 :
  m w = (Ok a, w1) -> bind m f w = f a w1.
Proof. intros E. unfold bind. rewrite E. reflexivity. Qed.

Lemma bind_throw {A B} (m : Op A) (f : A -> Op B) w e w1 :
  m w = (Throw e, w1) -> bind m f w = (Throw e, w1).
Proof. intros E. unfold bind. rewrite E. reflexivity. Qed.

Lemma try_ok {A} (m : Op A) (h : Error -> Op A) w a w1 :
  m w = (Ok a, w1) -> try_catch m h w = (Ok a, w1).
Proof. intros E. unfold try_catch. rewrite E. reflexivity. Qed.

Lemma try_throw {A} (m : Op A) (h : Error -> Op A) w e w1 :
  m w = (Throw e, w1) -> try_catch m h w = h e w1.
Proof. intros E. unfold try_catch. rewrite E. reflexivity. Qed.

Lemma returns_ret {A} (a : A) : returns (ret a).
Proof. intros w. exists a. reflexivity. Qed.

Lemma returns_gets {A} (f : World -> A) : returns (gets f).
Proof. intros w. eexists. reflexivity. Qed.

Lemma returns_modify (f : World -> World) : returns (modify f).
Proof. intros w. eexists. reflexivity. Qed.

Lemma returns_bind {A B} (m : Op A) (f : A -> Op B) :
  returns m -> (forall a, returns (f a)) -> returns (bind m f).
Proof.
  intros Hm Hf w. unfold bind. destruct (Hm w) as [a Ha].
  destruct (m w) as [[a' | e] w1]; cbn in Ha; [| discriminate].
  apply Hf.
Qed.

(** A [try] whose handler returns normally does so itself, whatever its
    body does. *)
Lemma returns_try {A} (m : Op A) (h : Error -> Op A) :
  (forall e, returns (h e)) -> returns (try_catch m h).
Proof.
  intros Hh w. unfold try_catch. destruct (m w) as [[a | e] w1].
  - exists a. reflexivity.
  - apply Hh.
Qed.

Lemma returns_when (b : bool) (m : Op unit) : returns m -> returns (when b m).
Proof. intros Hm. destruct b; [exact Hm | apply returns_ret]. Qed.

Create HintDb returns discriminated.

Ltac returns_walk :=
  repeat first
    [ apply returns_ret
    | apply returns_gets
    | apply returns_modify
    | solve [eauto 2 with returns]
    | apply returns_when
    | apply returns_try; intros ?
    | apply returns_bind; [| intros ?]
    | match goal with
      | |- returns (match ?x with _ => _ end) => destruct x
      | |- returns (if ?x then _ else _) => destruct x
      end ].

Lemma oblivious_ret {A} (a : A) : oblivious (ret a).
Proof. intros x w. reflexivity. Qed.

Lemma oblivious_throw {A} (e : Error) : oblivious (@throw A e).
Proof. intros x w. reflexivity. Qed.

Lemma oblivious_gets {A} (f : World -> A) :
  (forall x w, f (with_tagsManifest x w) = f w) -> oblivious (gets f).
Proof. intros Hf x w. unfold gets. rewrite Hf. reflexivity. Qed.

Lemma oblivious_modify (g : World -> World) :
  (forall x w, g (with_tagsManifest x w) = with_tagsManifest x (g w)) ->
  oblivious (modify g).
Proof. intros Hg x w. unfold modify. rewrite Hg. reflexivity. Qed.

Lemma oblivious_bind {A B} (m : Op A) (f : A -> Op B) :
  oblivious m -> (forall a, oblivious (f a)) -> oblivious (bind m f).
Proof.
  intros Hm Hf x w. unfold bind. rewrite Hm.
  destruct (m w) as [[a | e] w1]; cbn; [apply Hf | reflexivity].
Qed.

Lemma oblivious_try {A} (m : Op A) (h : Error -> Op A) :
  oblivious m -> (forall e, oblivious (h e)) -> oblivious (try_catch m h).
Proof.
  intros Hm Hh x w. unfold try_catch. rewrite Hm.
  destruct (m w) as [[a | e] w1]; cbn; [reflexivity | apply Hh].
Qed.

Lemma oblivious_when (b : bool) (m : Op unit) :
  oblivious m -> oblivious (when b m).
Proof. intros Hm. destruct b; [exact Hm | apply oblivious_ret]. Qed.

Create HintDb oblivious discriminated.

Ltac oblivious_auto :=
  repeat first
    [ apply oblivious_ret
    | apply oblivious_throw
    | apply oblivious_gets; intros ? ?; reflexivity
    | apply oblivious_modify; intros ? ?; reflexivity
    | solve [eauto 2 with oblivious]
    | apply oblivious_when
    | apply oblivious_bind; [| intros ?]
    | apply oblivious_try; [| intros ?]
    | match goal with
      | |- oblivious (match ?x with _ => _ end) => destruct x
      | |- oblivious (if ?x then _ else _) => destruct x
      end
    | respects_prims ].

(** ** Properties *)

Section Properties.
Context `{Imports}.

(** *** The tags manifest *)

Lemma loadTagsManifestSync_eq this :
  loadTagsManifestSync this = loadTagsManifest this.
Proof. reflexivity. Qed.

Lemma loadTagsManifest_emitting this (P : Event -> Prop) :
  (forall path, tagsManifestPath this = Some path -> P (ReadFile path)) ->
  (forall msg, P (ConsoleLog msg)) ->
  respects (emitting P) (loadTagsManifest this).
Proof.
  intros Hread Hlog. unfold loadTagsManifest.
  destruct (tagsManifestPath this) as [path |] eqn:E; respects_auto; auto.
Qed.

Lemma loadTagsManifest_keeping_memoryCache this :
  respects (keeping memoryCache) (loadTagsManifest this).
Proof. unfold loadTagsManifest. respects_auto. Qed.

Lemma loadTagsManifest_keeping_now this :
  respects (keeping now) (loadTagsManifest this).
Proof. unfold loadTagsManifest. respects_auto. Qed.

Lemma loadTagsManifest_keeping_files this :
  respects (keeping files) (loadTagsManifest this).
Proof. unfold loadTagsManifest. respects_auto. Qed.

Lemma loadTagsManifest_keeping_unwritable this :
  respects (keeping unwritable) (loadTagsManifest this).
Proof. unfold loadTagsManifest. respects_auto. Qed.

(** [loadTagsManifest] never throws. *)
Lemma loadTagsManifest_returns this w :
  (loadTagsManifest this w).1 = Ok tt.
Proof.
  unfold loadTagsManifest, bind, gets, try_catch, readFile, modify,
    JSON_parse, when, console_log, ret, throw.
  cbn.
  destruct (tagsManifestPath this) as [path |]; [| reflexivity].
  destruct (tagsManifest w); [reflexivity |].
  destruct (files w !! path) as [f |]; cbn.
  - destruct (content f) as [s | d]; cbn; destruct (debug this); reflexivity.
  - destruct (debug this); reflexivity.
Qed.

(** With a manifest in memory, [loadTagsManifest] changes nothing. *)
Lemma loadTagsManifest_loaded this w m :
  tagsManifest w = Some m -> loadTagsManifest this w = (Ok tt, w).
Proof.
  intros E. unfold loadTagsManifest, bind, gets. cbn. rewrite E.
  destruct (tagsManifestPath this); reflexivity.
Qed.

(** Without a path, it changes nothing either. *)
Lemma loadTagsManifest_no_path this w :
  tagsManifestPath this = None -> loadTagsManifest this w = (Ok tt, w).
Proof.
  intros E. unfold loadTagsManifest, bind, gets. cbn. rewrite E. reflexivity.
Qed.

(** A first load reads the file once and leaves what its document gives. *)
Lemma loadTagsManifest_fresh this w path :
  tagsManifestPath this = Some path ->
  tagsManifest w = None ->
  let w' := (loadTagsManifest this w).2 in
  tagsManifest w'
  = match stored_doc w path with
    | Some d => as_manifest d
    | None => Some (Shaped empty_manifest)
    end
  /\ exists new, trace w' = (new ++ trace w)%list /\ file_reads new = [path].
Proof.
  intros E Em.
  unfold loadTagsManifest, stored_doc, bind, gets, try_catch, readFile,
    modify, JSON_parse, when, console_log, ret, throw.
  cbn. rewrite E, Em.
  destruct (files w !! path) as [f |]; cbn.
  - destruct (content f) as [s | d]; cbn;
      destruct (debug this); cbn; (split; [reflexivity |]);
      first [ by exists [ReadFile path]
            | by exists [ConsoleLog "loadTagsManifest"; ReadFile path] ].
  - destruct (debug this); cbn; (split; [reflexivity |]);
      first [ by exists [ReadFile path]
            | by exists [ConsoleLog "loadTagsManifest"; ReadFile path] ].
Qed.

(** What [loadTagsManifest] leaves in the variable. *)
Lemma loadTagsManifest_manifest this w :
  tagsManifest (loadTagsManifest this w).2 = loaded_manifest this w.
Proof.
  unfold loaded_manifest.
  destruct (tagsManifest w) as [m |] eqn:Em.
  - erewrite loadTagsManifest_loaded by eassumption. exact Em.
  - destruct (tagsManifestPath this) as [path |] eqn:E.
    + apply loadTagsManifest_fresh; assumption.
    + rewrite loadTagsManifest_no_path by assumption. exact Em.
Qed.

(** C6, as the code has it: loading the manifest is idempotent once
    something is loaded.  [loadTagsManifest] (and [loadTagsManifestSync],
    which behaves the same) always returns normally.  With a manifest
    already in memory, or without a manifest path, it changes nothing and
    reads nothing.  Otherwise it reads the file once and leaves in the
    variable what [JSON.parse] gives, whatever document it is, and
    [{ version: 1, items: {} }] when the file is missing or is no JSON
    document.  A second call right after it leaves the whole world, trace
    included, as it is, so the file is not read again, provided the first
    call left something in the variable: a file that holds [null] leaves
    [null], and every call reads it again. *)
Theorem loadTagsManifest_idempotent (this : FileSystemCache) (w : World) :
  let r := loadTagsManifest this w in
  loadTagsManifestSync this w = r
  /\ r.1 = Ok tt
  /\ tagsManifest r.2 = loaded_manifest this w
  /\ (is_Some (loaded_manifest this w) \/ tagsManifestPath this = None ->
      loadTagsManifest this r.2 = (Ok tt, r.2))
  /\ match tagsManifest w, tagsManifestPath this with
     | Some _, _ | None, None => r.2 = w
     | None, Some path =>
         (stored_doc w path = None ->
          tagsManifest r.2 = Some (Shaped empty_manifest))
         /\ (forall d, stored_doc w path = Some d ->
             tagsManifest r.2 = as_manifest d)
         /\ exists new,
              trace r.2 = (new ++ trace w)%list /\ file_reads new = [path]
     end.
Proof.
  cbn zeta. split; [reflexivity |].
  split; [apply loadTagsManifest_returns |].
  split; [apply loadTagsManifest_manifest |].
  split.
  - intros [[m Hm] | Hpath].
    + rewrite <- loadTagsManifest_manifest in Hm.
      eapply loadTagsManifest_loaded; exact Hm.
    + apply loadTagsManifest_no_path; assumption.
  - destruct (tagsManifest w) as [m |] eqn:Em.
    + erewrite loadTagsManifest_loaded by eassumption. reflexivity.
    + destruct (tagsManifestPath this) as [path |] eqn:E.
      * destruct (loadTagsManifest_fresh this w path E Em) as [Hm Hreads].
        split; [| split; [| exact Hreads]].
        -- intros Hs. rewrite Hs in Hm. exact Hm.
        -- intros d Hs. rewrite Hs in Hm. exact Hm.
      * rewrite loadTagsManifest_no_path by assumption. reflexivity.
Qed.

Lemma loadTagsManifest_returns' this : returns (loadTagsManifest this).
Proof. intros w. exists tt. apply loadTagsManifest_returns. Qed.

Hint Resolve loadTagsManifest_returns' : returns.
Hint Resolve loadTagsManifest_keeping_memoryCache loadTagsManifest_keeping_now
  loadTagsManifest_keeping_files loadTagsManifest_keeping_unwritable
  : respects.

(** *** The memory tier *)

#[local] Instance retaining_preorder c : PreOrder (retaining c).
Proof.
  split.
  - intros w Hc. split; [exact Hc | reflexivity].
  - intros w1 w2 w3 H12 H23 Hc.
    destruct (H12 Hc) as [Hc2 E12]. destruct (H23 Hc2) as [Hc3 E23].
    split; [exact Hc3 | etransitivity; eassumption].
Qed.

Lemma loadTagsManifest_retaining this c :
  respects (retaining c) (loadTagsManifest this).
Proof.
  intros w Hc. split.
  - rewrite <- Hc. apply loadTagsManifest_keeping_memoryCache.
  - apply loadTagsManifest_emitting; intros; intros n; discriminate.
Qed.

Lemma console_log_retaining msg c : respects (retaining c) (console_log msg).
Proof.
  intros w Hc. split; [exact Hc |].
  apply emitting_emit. intros n. discriminate.
Qed.

Lemma new_FileSystemCache_returns ctx : returns (new_FileSystemCache ctx).
Proof.
  unfold new_FileSystemCache.
  returns_walk; unfold console_log; returns_walk.
  all: rewrite ?loadTagsManifestSync_eq; returns_walk.
Qed.

Lemma new_FileSystemCache_retaining ctx c :
  respects (retaining c) (new_FileSystemCache ctx).
Proof.
  unfold new_FileSystemCache.
  apply respects_bind; [apply _ | apply respects_gets; apply _ | intros dbg].
  apply respects_bind; [apply _ | | intros _].
  - destruct (maxMemoryCacheSize ctx) as [[| n] |];
      try (apply respects_when; [apply _ | apply console_log_retaining]).
    intros w Hc. unfold bind, gets. cbn. rewrite Hc. cbn.
    split; [exact Hc | reflexivity].
  - destruct (bool_decide (ctx_serverDistDir ctx = ""));
      [apply respects_ret; apply _ |].
    apply respects_bind; [apply _ | | intros _; apply respects_ret; apply _].
    rewrite loadTagsManifestSync_eq. apply loadTagsManifest_retaining.
Qed.

(** C5: the first configuration of the memory tier wins.  Once the
    process-wide memory cache exists, a constructor call, whatever memory
    size it configures or none, returns its instance normally, leaves
    [memoryCache] the very same cache and constructs no other one. *)
Theorem memoryCache_first_configuration_wins
    (ctx : FileSystemCacheContext) (w : World) (c : LRUCache) :
  memoryCache w = Some c ->
  let r := new_FileSystemCache ctx w in
  (exists this, r.1 = Ok this)
  /\ memoryCache r.2 = Some c
  /\ emitting no_NewLRUCache w r.2.
Proof.
  intros Hc. cbn zeta. split.
  - apply new_FileSystemCache_returns.
  - apply new_FileSystemCache_retaining. exact Hc.
Qed.

(** The first constructor call that configures a size creates the cache. *)
Lemma new_FileSystemCache_creates ctx w n :
  memoryCache w = None ->
  maxMemoryCacheSize ctx = Some (S n) ->
  memoryCache (new_FileSystemCache ctx w).2
  = Some {| lru_max := S n; lru_list := [] |}.
Proof.
  intros Hc Hn. unfold new_FileSystemCache.
  erewrite bind_ok by reflexivity. rewrite Hn.
  destruct (debug_env w) eqn:Ed;
    (erewrite (bind_ok (A := unit))
      by (unfold bind, gets, when, console_log, modify, ret; cbn;
          rewrite Hc; reflexivity));
    (destruct (bool_decide (ctx_serverDistDir ctx = "")); [reflexivity |]);
    match goal with
    | |- memoryCache (?k ?w0).2 = _ =>
        assert (Hk : respects (keeping memoryCache) k)
          by (rewrite loadTagsManifestSync_eq; respects_auto);
        rewrite (Hk w0); reflexivity
    end.
Qed.

(** *** Single calls *)

Lemma readFile_found path f w :
  files w !! path = Some f ->
  readFile path w = (Ok (content f), emit (ReadFile path) w).
Proof.
  intros E. unfold readFile, bind, modify, gets. cbn. rewrite E. reflexivity.
Qed.

Lemma readFile_missing path w :
  files w !! path = None ->
  readFile path w = (Throw (ENOENT path), emit (ReadFile path) w).
Proof.
  intros E. unfold readFile, bind, modify, gets. cbn. rewrite E. reflexivity.
Qed.

Lemma stat_found path f w :
  files w !! path = Some f ->
  path ∉ unstatable w ->
  stat path w = (Ok (mtime f), emit (Stat path) w).
Proof.
  intros E Hs. unfold stat, bind, modify, gets. cbn. rewrite E.
  rewrite bool_decide_eq_false_2 by exact Hs. reflexivity.
Qed.

Lemma stat_fails path w :
  files w !! path = None \/ path ∈ unstatable w ->
  exists e, stat path w = (Throw e, emit (Stat path) w).
Proof.
  intros Hs. unfold stat, bind, modify, gets. cbn.
  destruct (files w !! path) as [f |] eqn:E; [| eauto].
  destruct Hs as [Hs | Hs]; [discriminate |].
  rewrite bool_decide_eq_true_2 by exact Hs. eauto.
Qed.

Lemma mkdir_ok path w :
  path ∉ unwritable w -> mkdir path w = (Ok tt, emit (Mkdir path) w).
Proof.
  intros Hw. unfold mkdir, bind, modify, gets. cbn.
  rewrite bool_decide_eq_false_2 by exact Hw. reflexivity.
Qed.


Lemma writeFile_ok path data w :
  path ∉ unwritable w ->
  writeFile path data w
  = (Ok tt,
     with_files (<[path := {| content := data; mtime := now w |}]> (files w))
       (emit (WriteFile path data) w)).
Proof.
  intros Hw. unfold writeFile, bind, modify, gets. cbn.
  rewrite bool_decide_eq_false_2 by exact Hw. reflexivity.
Qed.


(** *** What [loadTagsManifest] leaves in memory *)

Lemma loadTagsManifest_run this w :
  exists w',
    loadTagsManifest this w = (Ok tt, w')
    /\ tagsManifest w' = loaded_manifest this w
    /\ memoryCache w' = memoryCache w
    /\ files w' = files w
    /\ unwritable w' = unwritable w
    /\ now w' = now w
    /\ emitting (manifest_calls this) w w'.
Proof.
  pose proof (loadTagsManifest_returns this w) as Hr.
  pose proof (loadTagsManifest_manifest this w) as Hm.
  pose proof (loadTagsManifest_keeping_memoryCache this w) as Hc.
  pose proof (loadTagsManifest_keeping_files this w) as Hf.
  pose proof (loadTagsManifest_keeping_unwritable this w) as Hu.
  pose proof (loadTagsManifest_keeping_now this w) as Hn.
  assert (He : emitting (manifest_calls this) w (loadTagsManifest this w).2).
  { apply loadTagsManifest_emitting.
    - intros path E. left. eauto.
    - intros msg. right. eauto. }
  destruct (loadTagsManifest this w) as [[[] | e] w']; cbn in *;
    [| discriminate].
  exists w'. repeat split; assumption.
Qed.

(** *** Revalidating tags *)





(** *** Staleness *)

Lemma manifest_newer_true m t e tag revalidatedAt :
  items m !! tag = Some revalidatedAt ->
  revalidatedAt <> 0 ->
  lastModified e <> 0 ->
  revalidatedAt >= lastModified e ->
  manifest_newer (Some m) t e tag = true.
Proof.
  intros Hit Hr Hl Hge. unfold manifest_newer. cbn. rewrite Hit.
  apply andb_true_intro. split.
  - apply negb_true_iff. apply Z.eqb_neq. exact Hr.
  - destruct (Z.eqb_spec (lastModified e) 0) as [E | _]; [contradiction |].
    apply Z.geb_le. lia.
Qed.

Lemma existsb_elem_of {A} (f : A -> bool) (l : list A) (x : A) :
  x ∈ l -> f x = true -> existsb f l = true.
Proof.
  intros Hin Hf. apply existsb_exists. exists x.
  split; [apply list_elem_of_In; exact Hin | exact Hf].
Qed.

(** [some] with a callback that neither throws nor changes anything. *)
Lemma Array_some_pure {A} (f : A -> Op bool) (g : A -> bool) (l : list A) w :
  (forall x, f x w = (Ok (g x), w)) ->
  Array_some f l w = (Ok (existsb g l), w).
Proof.
  intros Hf. induction l as [| x rest IH]; cbn; [reflexivity |].
  erewrite bind_ok by apply Hf.
  destruct (g x); [reflexivity | exact IH].
Qed.

(** The comparison on a variable that holds a manifest or nothing. *)
Lemma tagsManifest_newer_shaped manifest t d tag w :
  manifest <> Some Shapeless ->
  tagsManifest_newer manifest t d tag w
  = (Ok (manifest_newer (shaped manifest) t d tag), w).
Proof.
  intros Hs. destruct manifest as [[m |] |]; try reflexivity. congruence.
Qed.

(** [some] returns [true] or [false] or throws, and changes nothing, when
    its callback changes nothing. *)
Lemma Array_some_keeps {A} (f : A -> Op bool) (l : list A) w :
  (forall x, (f x w).2 = w) -> (Array_some f l w).2 = w.
Proof.
  intros Hf. induction l as [| x rest IH]; cbn; [reflexivity |].
  unfold bind. specialize (Hf x).
  destruct (f x w) as [[[|] | err] w1]; cbn in *; subst; auto.
Qed.

Lemma tagsManifest_newer_keeps manifest t d tag w :
  (tagsManifest_newer manifest t d tag w).2 = w.
Proof. destruct manifest as [[m |] |]; reflexivity. Qed.

(** The staleness evaluation of a page with tags, once the manifest is
    loaded and is no value without [items]. *)
Lemma get_fresh_page_run this ctx w d headers c0 cts :
  (exists html rsc pp st,
      value d = Some (CachedAppPageValue html rsc pp headers st))
  \/ (exists html pd st,
        value d = Some (CachedPageValue html pd headers st)) ->
  cacheTags headers = Some (c0 :: cts) ->
  loaded_manifest this w <> Some Shapeless ->
  exists w1,
    get_fresh this ctx (Some d) w
    = (Ok (if existsb (manifest_newer (shaped (loaded_manifest this w))
                         (now w) d) (c0 :: cts)
           then None else Some d), w1)
    /\ loadTagsManifest this w = (Ok tt, w1).
Proof.
  intros Hv Hcts Hs.
  destruct (loadTagsManifest_run this w)
    as (w1 & E1 & Hm1 & _ & _ & _ & Hn & _).
  exists w1. split; [| exact E1].
  assert (Hrun :
    (loadTagsManifest this ;;
     manifest <- gets tagsManifest ;;
     t <- gets now ;;
     isStale <- Array_some (tagsManifest_newer manifest t d) (c0 :: cts) ;;
     if isStale then ret None else ret (Some d)) w
    = (Ok (if existsb (manifest_newer (shaped (loaded_manifest this w))
                         (now w) d) (c0 :: cts)
           then None else Some d), w1)).
  { erewrite bind_ok by exact E1.
    erewrite bind_ok by reflexivity.
    erewrite bind_ok by reflexivity.
    rewrite Hm1, Hn.
    erewrite bind_ok
      by (apply Array_some_pure; intros x;
          apply tagsManifest_newer_shaped; exact Hs).
    destruct (existsb _ _); reflexivity. }
  unfold get_fresh.
  destruct Hv as [(html & rsc & pp & st & ->) | (html & pd & st & ->)];
    rewrite Hcts; exact Hrun.
Qed.

(** The staleness evaluation of a fetch entry, likewise. *)
Lemma get_fresh_fetch_run this ctx w d v :
  value d = Some (CachedFetch v) ->
  loaded_manifest this w <> Some Shapeless ->
  exists w1,
    get_fresh this ctx (Some d) w
    = (Ok (if existsb
                (fun tag =>
                   bool_decide (tag ∈ revalidatedTags this)
                   || manifest_newer (shaped (loaded_manifest this w))
                        (now w) d tag)
                (default [] (tags ctx) ++ default [] (softTags ctx))%list
           then None else Some d), w1)
    /\ loadTagsManifest this w = (Ok tt, w1).
Proof.
  intros Hv Hs.
  destruct (loadTagsManifest_run this w)
    as (w1 & E1 & Hm1 & _ & _ & _ & Hn & _).
  exists w1. split; [| exact E1].
  unfold get_fresh. rewrite Hv.
  erewrite bind_ok by exact E1.
  erewrite bind_ok by reflexivity.
  erewrite bind_ok by reflexivity.
  rewrite Hm1, Hn.
  erewrite bind_ok.
  2: { apply (Array_some_pure _
                (fun tag =>
                   bool_decide (tag ∈ revalidatedTags this)
                   || manifest_newer (shaped (loaded_manifest this w))
                        (now w) d tag)).
       intros x. destruct (bool_decide (x ∈ revalidatedTags this));
         [reflexivity |].
       apply tagsManifest_newer_shaped. exact Hs. }
  destruct (existsb _ _); reflexivity.
Qed.

(** The staleness evaluation on a candidate one of whose tags the manifest
    has at or after the candidate's time. *)
Lemma get_fresh_stale this ctx w e tag m revalidatedAt :
  carries_tag ctx e tag ->
  loaded_manifest this w = Some (Shaped m) ->
  items m !! tag = Some revalidatedAt ->
  revalidatedAt <> 0 ->
  lastModified e <> 0 ->
  revalidatedAt >= lastModified e ->
  (get_fresh this ctx (Some e) w).1 = Ok None.
Proof.
  intros Htag Hm Hit Hr Hl Hge.
  assert (Hs : loaded_manifest this w <> Some Shapeless)
    by (rewrite Hm; discriminate).
  pose proof (fun t => manifest_newer_true m t e tag revalidatedAt
                         Hit Hr Hl Hge) as Hnewer.
  unfold carries_tag in Htag.
  destruct (value e) as [[html rsc pp headers st | body headers st
                         | html pd headers st | v | props | buf | d] |] eqn:Hv;
    try contradiction.
  - destruct Htag as (cts & Hcts & Hin).
    destruct cts as [| c0 cts']; [by apply not_elem_of_nil in Hin |].
    destruct (get_fresh_page_run this ctx w e headers c0 cts')
      as (w1 & E & _); [left; eauto | exact Hcts | exact Hs |].
    rewrite E, Hm. cbn [shaped fst].
    rewrite (existsb_elem_of _ _ tag Hin (Hnewer _)). reflexivity.
  - destruct Htag as (cts & Hcts & Hin).
    destruct cts as [| c0 cts']; [by apply not_elem_of_nil in Hin |].
    destruct (get_fresh_page_run this ctx w e headers c0 cts')
      as (w1 & E & _); [right; eauto | exact Hcts | exact Hs |].
    rewrite E, Hm. cbn [shaped fst].
    rewrite (existsb_elem_of _ _ tag Hin (Hnewer _)). reflexivity.
  - destruct (get_fresh_fetch_run this ctx w e v Hv Hs) as (w1 & E & _).
    rewrite E, Hm. cbn [shaped fst].
    rewrite (existsb_elem_of _ _ tag Htag); [reflexivity |].
    rewrite Hnewer. apply orb_true_r.
Qed.

(** C1, as the code has it: a candidate that reaches the staleness
    evaluation of [get], a page whose cache-tags header lists [tag] or a
    fetch entry with [tag] among the request's tags and soft tags, is not
    returned when the manifest has for [tag] a non-zero [revalidatedAt] at
    or after the candidate's non-zero [lastModified], equality included. *)
Theorem get_stale_by_tag
    (this : FileSystemCache) (key : string) (ctx : GetContext)
    (w w1 : World) (e : CacheHandlerValue) (tag : string)
    (m : TagsManifest) (revalidatedAt : Z) :
  get_seed this key ctx w = (Ok (Proceed (Some e)), w1) ->
  carries_tag ctx e tag ->
  loaded_manifest this w1 = Some (Shaped m) ->
  items m !! tag = Some revalidatedAt ->
  revalidatedAt <> 0 ->
  lastModified e <> 0 ->
  revalidatedAt >= lastModified e ->
  (get this key ctx w).1 = Ok None.
Proof.
  intros Hseed Htag Hm Hit Hr Hl Hge. unfold get.
  erewrite bind_ok by exact Hseed.
  eapply get_fresh_stale; eassumption.
Qed.

(** *** Independence of the persistent-tier read from the manifest *)

Lemma set_oblivious this key data ctx : oblivious (set this key data ctx).
Proof. unfold set. oblivious_auto. Qed.

Hint Resolve set_oblivious : oblivious.

Lemma get_seed_oblivious this key ctx : oblivious (get_seed this key ctx).
Proof. unfold get_seed. oblivious_auto. Qed.

Lemma get_seed_revalidatedTags l this key ctx :
  get_seed (with_revalidatedTags l this) key ctx = get_seed this key ctx.
Proof. reflexivity. Qed.

(** The staleness evaluation returns the candidate or nothing, when it
    returns. *)
Lemma get_fresh_cases this ctx d w r :
  (get_fresh this ctx (Some d) w).1 = Ok r -> r = None \/ r = Some d.
Proof.
  assert (Hrun : forall (m : Op bool) w0 r0,
            (b <- m ;; if b then ret None else ret (Some d)) w0 = r0 ->
            r0.1 = Ok r -> r = None \/ r = Some d).
  { intros m w0 r0 <-. unfold bind.
    destruct (m w0) as [[[|] | err] w1]; cbn; intros E;
      [left | right |]; congruence. }
  assert (Hload : forall (k : Op (option CacheHandlerValue)),
            (forall w0, (k w0).1 = Ok r -> r = None \/ r = Some d) ->
            (loadTagsManifest this ;; k) w = (loadTagsManifest this ;; k) w ->
            ((loadTagsManifest this ;; k) w).1 = Ok r ->
            r = None \/ r = Some d).
  { intros k Hk _.
    destruct (loadTagsManifest_run this w) as (w1 & E1 & _).
    erewrite bind_ok by exact E1. apply Hk. }
  unfold get_fresh.
  destruct (value d) as [[html rsc pp headers st | body headers st
                         | html pd headers st | v | props | buf | doc] |];
    try (cbn; intros E; right; congruence).
  - destruct (cacheTags headers) as [[| c0 cts] |];
      try (cbn; intros E; right; congruence).
    apply Hload; [| reflexivity]. intros w0.
    unfold bind at 1 2, gets. cbn. eapply Hrun. reflexivity.
  - destruct (cacheTags headers) as [[| c0 cts] |];
      try (cbn; intros E; right; congruence).
    apply Hload; [| reflexivity]. intros w0.
    unfold bind at 1 2, gets. cbn. eapply Hrun. reflexivity.
  - apply Hload; [| reflexivity]. intros w0.
    unfold bind at 1 2, gets. cbn. eapply Hrun. reflexivity.
Qed.

(** A route response passes the staleness evaluation untouched. *)
Lemma get_fresh_route this ctx d w body headers status :
  value d = Some (CachedRouteValue body headers status) ->
  get_fresh this ctx (Some d) w = (Ok (Some d), w).
Proof. intros E. unfold get_fresh. rewrite E. reflexivity. Qed.

(** C10: tag revalidation never invalidates a route response.  When a [get]
    of kind [APP_ROUTE] returns a route response, from the memory tier or
    from the files, the same [get] returns the same entry whatever the
    variable [tagsManifest] holds and whatever tags the instance holds as
    revalidated. *)
Theorem get_route_ignores_revalidation
    (this : FileSystemCache) (key : string) (ctx : GetContext) (w : World)
    (e : CacheHandlerValue) (body : Blob) (headers : option Headers)
    (status : option Z)
    (manifest' : option Manifest) (revalidatedTags' : list string) :
  kind ctx = IncrementalCacheKind.APP_ROUTE ->
  (get this key ctx w).1 = Ok (Some e) ->
  value e = Some (CachedRouteValue body headers status) ->
  (get (with_revalidatedTags revalidatedTags' this) key ctx
     (with_tagsManifest manifest' w)).1 = Ok (Some e).
Proof.
  intros _ Hget Hroute. unfold get in *.
  rewrite get_seed_revalidatedTags.
  unfold bind in *. rewrite get_seed_oblivious.
  destruct (get_seed this key ctx w) as [[[v | data] | err] w1]; cbn in *.
  - exact Hget.
  - destruct data as [d |]; [| discriminate].
    destruct (get_fresh_cases this ctx d w1 _ Hget) as [E | E];
      [discriminate |].
    injection E as ->.
    erewrite get_fresh_route by exact Hroute. reflexivity.
  - discriminate.
Qed.

(** *** Steps of [get] and [set] *)

Lemma memoryCache_get_miss key w :
  memory_miss key w -> memoryCache_get key w = (Ok None, w).
Proof.
  unfold memory_miss, memoryCache_get, bind, gets, lru_get. cbn.
  destruct (memoryCache w) as [c |]; [| reflexivity].
  intros ->. reflexivity.
Qed.

Lemma memoryCache_set_run key e len w :
  length_of e = inr len ->
  memoryCache_set key e w = (Ok tt, remember key e len w).
Proof.
  intros E. unfold memoryCache_set, remember, bind, gets. cbn.
  destruct (memoryCache w); [| reflexivity]. rewrite E. reflexivity.
Qed.

Lemma when_log_run dbg msg w :
  when dbg (console_log msg) w = (Ok tt, logged dbg msg w).
Proof. destruct dbg; reflexivity. Qed.

Lemma remember_frame key e len w :
  files (remember key e len w) = files w
  /\ unwritable (remember key e len w) = unwritable w
  /\ unstatable (remember key e len w) = unstatable w
  /\ now (remember key e len w) = now w
  /\ tagsManifest (remember key e len w) = tagsManifest w
  /\ edge_runtime (remember key e len w) = edge_runtime w.
Proof. unfold remember. destruct (memoryCache w); cbn; auto 10. Qed.

Lemma logged_frame dbg msg w :
  files (logged dbg msg w) = files w
  /\ unwritable (logged dbg msg w) = unwritable w
  /\ unstatable (logged dbg msg w) = unstatable w
  /\ now (logged dbg msg w) = now w
  /\ tagsManifest (logged dbg msg w) = tagsManifest w
  /\ edge_runtime (logged dbg msg w) = edge_runtime w
  /\ memoryCache (logged dbg msg w) = memoryCache w.
Proof. unfold logged. destruct dbg; cbn; auto 10. Qed.

(** [set] of a fetch value when the files can be written. *)
Lemma set_fetch_run this key v ctx w :
  flushToDisk this = true ->
  let path := getFilePath this key IncrementalCacheKind.FETCH in
  path_dirname path ∉ unwritable w ->
  path ∉ unwritable w ->
  exists w',
    set this key (Some (CachedFetch v)) ctx w = (Ok tt, w')
    /\ files w'
       = <[path := {| content := Json (DFetch (retagged (set_tags ctx) v));
                      mtime := now w |}]> (files w)
    /\ unwritable w' = unwritable w
    /\ unstatable w' = unstatable w
    /\ now w' = now w.
Proof.
  intros Hflush path Hdir Hpath. unfold set.
  erewrite bind_ok by reflexivity.
  erewrite bind_ok by (apply memoryCache_set_run; reflexivity).
  erewrite bind_ok by apply when_log_run.
  rewrite Hflush.
  set (w1 := logged _ _ _).
  assert (F1 : files w1 = files w /\ unwritable w1 = unwritable w
               /\ unstatable w1 = unstatable w /\ now w1 = now w).
  { unfold w1.
    pose proof (logged_frame (debug this) "set"
                  (remember key {| lastModified := now w;
                                   value := Some (CachedFetch v) |}
                     (fetch_data_length (fetch_data v)) w)) as L.
    pose proof (remember_frame key {| lastModified := now w;
                                      value := Some (CachedFetch v) |}
                  (fetch_data_length (fetch_data v)) w) as R.
    intuition congruence. }
  destruct F1 as (Ff & Fu & Fs & Fn).
  erewrite bind_ok by (apply mkdir_ok; cbn; rewrite Fu; exact Hdir).
  rewrite writeFile_ok by (cbn; rewrite Fu; exact Hpath).
  eexists. split; [reflexivity |]. cbn. rewrite Ff, Fn. auto.
Qed.

Lemma get_fresh_keeping_files this ctx data :
  respects (keeping files) (get_fresh this ctx data).
Proof. unfold get_fresh. respects_auto. Qed.

(** The reading of a fetch entry whose stored tags do not cover the
    requested ones, when the files can be written. *)
Lemma get_seed_fetch_mismatch this key ctx w f v :
  memory_miss key w ->
  edge_runtime w = false ->
  kind ctx = IncrementalCacheKind.FETCH ->
  flushToDisk this = true ->
  let path := getFilePath this key IncrementalCacheKind.FETCH in
  files w !! path = Some f ->
  content f = Json (DFetch v) ->
  path ∉ unstatable w ->
  every_includes (tags ctx) (fetch_tags v) = false ->
  path_dirname path ∉ unwritable w ->
  path ∉ unwritable w ->
  exists w1,
    get_seed this key ctx w
    = (Ok (Proceed (Some {| lastModified := mtime f;
                            value := Some (CachedFetch v) |})), w1)
    /\ files w1
       = <[path := {| content := Json (DFetch (retagged (tags ctx) v));
                      mtime := now w |}]> (files w).
Proof.
  intros Hmiss Hedge Hkind Hflush path Hf Hc Hstat Hmis Hdir Hpath.
  unfold get_seed.
  erewrite bind_ok by (apply memoryCache_get_miss; exact Hmiss).
  erewrite bind_ok by apply when_log_run.
  set (w0 := logged (debug this) "get" w).
  destruct (logged_frame (debug this) "get" w)
    as (Ff & Fu & Fs & Fn & _ & Fe & _).
  fold w0 in Ff, Fu, Fs, Fn, Fe.
  erewrite bind_ok by reflexivity.
  rewrite Fe, Hedge, Hkind. fold path.
  set (w2 := emit (Stat path) (emit (ReadFile path) w0)).
  destruct (set_fetch_run this key v
              {| set_tags := tags ctx;
                 set_isRoutePPREnabled := isRoutePPREnabled ctx;
                 set_isFallback := false |}
              (logged (debug this) "tags vs storedTags mismatch" w2) Hflush)
    as (w3 & E3 & F3 & _ & _ & _).
  { destruct (logged_frame (debug this) "tags vs storedTags mismatch" w2)
      as (_ & -> & _). cbn. rewrite Fu. exact Hdir. }
  { destruct (logged_frame (debug this) "tags vs storedTags mismatch" w2)
      as (_ & -> & _). cbn. rewrite Fu. exact Hpath. }
  eexists. split.
  - erewrite try_ok; [reflexivity |].
    erewrite bind_ok by (apply readFile_found; rewrite Ff; exact Hf).
    erewrite bind_ok
      by (apply stat_found; cbn; [rewrite Ff; exact Hf | rewrite Fs; exact Hstat]).
    rewrite Hflush, Hc. cbn [negb JSON_parse].
    erewrite bind_ok by reflexivity.
    cbn [value_of value].
    rewrite Hmis. cbn [negb when].
    erewrite bind_ok
      by (erewrite bind_ok by apply when_log_run; exact E3).
    erewrite bind_ok by (apply memoryCache_set_run; reflexivity).
    reflexivity.
  - destruct (remember_frame key
                {| lastModified := mtime f; value := Some (CachedFetch v) |}
                (fetch_data_length (fetch_data v)) w3) as (-> & _).
    rewrite F3.
    destruct (logged_frame (debug this) "tags vs storedTags mismatch" w2)
      as (-> & _ & _ & -> & _).
    cbn. rewrite Ff, Fn. reflexivity.
Qed.

(** C3, as the code has it: a fetch entry read from the files whose stored
    tags do not include every requested tag is written back by [set] under
    the requested tags: the file of the key then holds the same value with
    exactly the tags of the request, which replace the stored ones. *)
Theorem get_rewrites_fetch_tags
    (this : FileSystemCache) (key : string) (ctx : GetContext) (w : World)
    (f : File) (v : CachedFetchValue) :
  memory_miss key w ->
  edge_runtime w = false ->
  kind ctx = IncrementalCacheKind.FETCH ->
  flushToDisk this = true ->
  let path := getFilePath this key IncrementalCacheKind.FETCH in
  files w !! path = Some f ->
  content f = Json (DFetch v) ->
  path ∉ unstatable w ->
  every_includes (tags ctx) (fetch_tags v) = false ->
  path_dirname path ∉ unwritable w ->
  path ∉ unwritable w ->
  files (get this key ctx w).2 !! path
  = Some {| content := Json (DFetch (retagged (tags ctx) v));
            mtime := now w |}
  /\ fetch_tags (retagged (tags ctx) v) = tags ctx.
Proof.
  intros Hmiss Hedge Hkind Hflush path Hf Hc Hstat Hmis Hdir Hpath.
  split; [| reflexivity].
  destruct (get_seed_fetch_mismatch this key ctx w f v
              Hmiss Hedge Hkind Hflush Hf Hc Hstat Hmis Hdir Hpath)
    as (w1 & E1 & F1).
  unfold get. erewrite bind_ok by exact E1.
  pose proof (get_fresh_keeping_files this ctx
                (Some {| lastModified := mtime f;
                         value := Some (CachedFetch v) |}) w1) as K.
  unfold keeping in K. cbv beta iota. rewrite K.
  fold path in F1. rewrite F1. apply lookup_insert_eq.
Qed.

(** *** Failures of the persistent-tier read *)

Lemma memoryCache_get_returns key : returns (memoryCache_get key).
Proof.
  unfold memoryCache_get. returns_walk.
Qed.

Hint Resolve memoryCache_get_returns : returns.

Lemma get_seed_returns this key ctx : returns (get_seed this key ctx).
Proof. unfold get_seed, console_log. returns_walk. Qed.

(** The staleness evaluation returns normally unless the variable
    [tagsManifest] holds, once loaded, a value without [items]. *)
Lemma get_fresh_returns this ctx data w :
  loaded_manifest this w <> Some Shapeless ->
  exists r, (get_fresh this ctx data w).1 = Ok r.
Proof.
  intros Hs. destruct data as [d |]; [| eexists; reflexivity].
  destruct (value d) as [[html rsc pp headers st | body headers st
                         | html pd headers st | v | props | buf | doc] |]
    eqn:Hv;
    try (unfold get_fresh; rewrite Hv; eexists; reflexivity).
  - destruct (cacheTags headers) as [[| c0 cts] |] eqn:Hc;
      try (unfold get_fresh; rewrite Hv, Hc; eexists; reflexivity).
    destruct (get_fresh_page_run this ctx w d headers c0 cts)
      as (w1 & E & _); [left; eauto | exact Hc | exact Hs |].
    rewrite E. eexists. reflexivity.
  - destruct (cacheTags headers) as [[| c0 cts] |] eqn:Hc;
      try (unfold get_fresh; rewrite Hv, Hc; eexists; reflexivity).
    destruct (get_fresh_page_run this ctx w d headers c0 cts)
      as (w1 & E & _); [right; eauto | exact Hc | exact Hs |].
    rewrite E. eexists. reflexivity.
  - destruct (get_fresh_fetch_run this ctx w d v Hv Hs) as (w1 & E & _).
    rewrite E. eexists. reflexivity.
Qed.

(** [get] returns normally unless the staleness evaluation finds a value
    without [items] in the variable [tagsManifest]. *)
Lemma get_returns this key ctx w :
  loaded_manifest this (get_seed this key ctx w).2 <> Some Shapeless ->
  exists r, (get this key ctx w).1 = Ok r.
Proof.
  intros Hs. unfold get, bind.
  destruct (get_seed_returns this key ctx w) as [r Hr].
  destruct (get_seed this key ctx w) as [[[v | data] | err] w1]; cbn in *.
  - eexists. reflexivity.
  - apply get_fresh_returns. exact Hs.
  - discriminate.
Qed.

(** A [get] whose reading of the persistent tier returns nothing returns
    nothing. *)
Lemma get_of_seed_return this key ctx w w1 :
  get_seed this key ctx w = (Ok (Return None), w1) ->
  (get this key ctx w).1 = Ok None.
Proof. intros E. unfold get. erewrite bind_ok by exact E. reflexivity. Qed.

Lemma get_seed_content_missing this key ctx w :
  memory_miss key w ->
  edge_runtime w = false ->
  files w !! contentPath this key (kind ctx) = None ->
  exists w1, get_seed this key ctx w = (Ok (Return None), w1).
Proof.
  intros Hmiss Hedge Hf. unfold get_seed.
  erewrite bind_ok by (apply memoryCache_get_miss; exact Hmiss).
  erewrite bind_ok by apply when_log_run.
  destruct (logged_frame (debug this) "get" w)
    as (Ff & Fu & Fs & Fn & _ & Fe & _).
  erewrite bind_ok by reflexivity.
  rewrite Fe, Hedge.
  unfold contentPath in Hf.
  destruct (kind ctx);
    (erewrite try_throw
       by (erewrite bind_throw; [reflexivity |];
           apply readFile_missing; rewrite Ff; exact Hf));
    eexists; reflexivity.
Qed.

(** The error of a read followed by a parse that cannot succeed. *)
Lemma read_doc_fails {B} path (k : Doc -> Op B) w :
  stored_doc w path = None ->
  (text <- readFile path ;; d <- JSON_parse text ;; k d) w
  = (Throw (match files w !! path with
            | Some _ => SyntaxError
            | None => ENOENT path
            end),
     emit (ReadFile path) w).
Proof.
  unfold stored_doc. intros Hs.
  destruct (files w !! path) as [f |] eqn:Hf.
  - erewrite bind_ok by (apply readFile_found; exact Hf).
    destruct (content f) as [s | d]; [reflexivity | discriminate].
  - erewrite bind_throw by (apply readFile_missing; exact Hf). reflexivity.
Qed.

Lemma read_parse_fails path w :
  stored_doc w path = None ->
  (text <- readFile path ;; JSON_parse text) w
  = (Throw (match files w !! path with
            | Some _ => SyntaxError
            | None => ENOENT path
            end),
     emit (ReadFile path) w).
Proof.
  unfold stored_doc. intros Hs.
  destruct (files w !! path) as [f |] eqn:Hf.
  - erewrite bind_ok by (apply readFile_found; exact Hf).
    destruct (content f) as [s | d]; [reflexivity | discriminate].
  - erewrite bind_throw by (apply readFile_missing; exact Hf). reflexivity.
Qed.

(** A read followed by a parse of a file that holds a document. *)
Lemma read_doc_found {B} path d (k : Doc -> Op B) w :
  stored_doc w path = Some d ->
  (text <- readFile path ;; d <- JSON_parse text ;; k d) w
  = k d (emit (ReadFile path) w).
Proof.
  unfold stored_doc. intros Hs.
  destruct (files w !! path) as [f |] eqn:Hf; [| discriminate].
  erewrite bind_ok by (apply readFile_found; exact Hf).
  destruct (content f) as [s | d']; [discriminate |].
  injection Hs as ->. reflexivity.
Qed.

(** The optional read of a page's sidecar (lines 260-267) never fails. *)
Lemma read_meta_optional path w :
  try_catch
    (text <- readFile path ;; d <- JSON_parse text ;; ret (metadata_of d))
    (fun _ => ret None) w
  = (Ok (stored_meta w path), emit (ReadFile path) w).
Proof.
  unfold stored_meta.
  destruct (files w !! path) as [f |] eqn:Hf.
  - destruct (content f) as [s | d] eqn:Hc.
    + erewrite try_throw; [reflexivity |].
      erewrite bind_ok by (apply readFile_found; exact Hf).
      rewrite Hc. reflexivity.
    + erewrite try_ok; [reflexivity |].
      erewrite bind_ok by (apply readFile_found; exact Hf).
      rewrite Hc. destruct d; reflexivity.
  - erewrite try_throw; [reflexivity |].
    erewrite bind_throw by (apply readFile_missing; exact Hf). reflexivity.
Qed.

(** Every failure of the reading makes it return nothing. *)
Lemma get_seed_read_failure this key ctx w :
  memory_miss key w ->
  edge_runtime w = false ->
  read_failure this key ctx w ->
  exists w1, get_seed this key ctx w = (Ok (Return None), w1).
Proof.
  intros Hmiss Hedge Hfail.
  destruct (files w !! contentPath this key (kind ctx)) as [f |] eqn:Hf;
    [| apply get_seed_content_missing; assumption].
  unfold get_seed.
  erewrite bind_ok by (apply memoryCache_get_miss; exact Hmiss).
  erewrite bind_ok by apply when_log_run.
  destruct (logged_frame (debug this) "get" w)
    as (Ff & Fu & Fs & Fn & _ & Fe & _).
  set (w0 := logged (debug this) "get" w) in *.
  erewrite bind_ok by reflexivity.
  rewrite Fe, Hedge.
  destruct (decide (contentPath this key (kind ctx) ∈ unstatable w))
    as [Hs | Hs].
  { destruct (stat_fails (contentPath this key (kind ctx))
                (emit (ReadFile (contentPath this key (kind ctx))) w0))
      as [e He]; [right; cbn; rewrite Fs; exact Hs |].
    unfold contentPath in *.
    destruct (kind ctx);
      (erewrite try_throw
         by (erewrite bind_ok by (apply readFile_found; rewrite Ff; exact Hf);
             erewrite bind_throw by exact He; reflexivity));
      eexists; reflexivity. }
  assert (Hstat : stat (contentPath this key (kind ctx))
                    (emit (ReadFile (contentPath this key (kind ctx))) w0)
                  = (Ok (mtime f),
                     emit (Stat (contentPath this key (kind ctx)))
                       (emit (ReadFile (contentPath this key (kind ctx))) w0))).
  { apply stat_found; cbn; [rewrite Ff; exact Hf | rewrite Fs; exact Hs]. }
  destruct Hfail as [Hnone | Hin | Hk Hbad | Hk Hbad | Hk Hbad | Hk Hfb Hbad
                    | Hk Hfb Hbad].
  - congruence.
  - contradiction.
  - rewrite Hk in *. unfold contentPath in *. cbv beta iota.
    destruct (flushToDisk this) eqn:Hflush.
    + erewrite try_throw; [eexists; reflexivity |].
      erewrite bind_ok by (apply readFile_found; rewrite Ff; exact Hf).
      erewrite bind_ok by exact Hstat.
      cbn [negb].
      erewrite bind_throw; [reflexivity |].
      unfold stored_doc in Hbad. rewrite Hf in Hbad.
      destruct (content f) as [s | d]; [reflexivity | discriminate].
    + erewrite try_ok; [eexists; reflexivity |].
      erewrite bind_ok by (apply readFile_found; rewrite Ff; exact Hf).
      erewrite bind_ok by exact Hstat.
      reflexivity.
  - rewrite Hk in *. unfold contentPath in *. cbv beta iota.
    erewrite try_throw; [eexists; reflexivity |].
    erewrite bind_ok by (apply readFile_found; rewrite Ff; exact Hf).
    erewrite bind_ok by exact Hstat.
    apply read_doc_fails. unfold stored_doc in *. cbn. rewrite Ff.
    exact Hbad.
  - rewrite Hk in *. unfold contentPath in *. cbv beta iota.
    erewrite try_throw; [eexists; reflexivity |].
    erewrite bind_ok by (apply readFile_found; rewrite Ff; exact Hf).
    erewrite bind_ok by exact Hstat.
    erewrite read_doc_found
      by (unfold stored_doc in *; cbn; rewrite Ff; exact Hbad).
    reflexivity.
  - rewrite Hk in *. unfold contentPath, dataPath in *. cbv beta iota.
    erewrite try_throw; [eexists; reflexivity |].
    erewrite bind_ok by (apply readFile_found; rewrite Ff; exact Hf).
    erewrite bind_ok by exact Hstat.
    rewrite Hfb.
    erewrite bind_throw; [reflexivity |].
    erewrite bind_ok by apply read_meta_optional.
    erewrite bind_throw; [reflexivity |].
    apply readFile_missing. cbn. rewrite Ff. exact Hbad.
  - rewrite Hk in *. unfold contentPath, dataPath in *. cbv beta iota.
    erewrite try_throw; [eexists; reflexivity |].
    erewrite bind_ok by (apply readFile_found; rewrite Ff; exact Hf).
    erewrite bind_ok by exact Hstat.
    rewrite Hfb.
    erewrite bind_throw; [reflexivity |].
    apply read_parse_fails. unfold stored_doc in *. cbn. rewrite Ff.
    exact Hbad.
Qed.

(** An app page whose sidecar is missing or holds no metadata is read all
    the same, without metadata. *)
Lemma get_app_page_without_meta this key ctx w f g :
  memory_miss key w ->
  edge_runtime w = false ->
  kind ctx = IncrementalCacheKind.APP_PAGE ->
  isFallback ctx = false ->
  let htmlPath := contentPath this key (kind ctx) in
  files w !! htmlPath = Some f ->
  htmlPath ∉ unstatable w ->
  files w !! dataPath this key (kind ctx) (isRoutePPREnabled ctx) = Some g ->
  stored_meta w (replace_suffix ".html" NEXT_META_SUFFIX htmlPath) = None ->
  (get this key ctx w).1
  = Ok (Some {| lastModified := mtime f;
                value := Some (CachedAppPageValue (content f)
                                 (Some (content g)) None None None) |}).
Proof.
  intros Hmiss Hedge Hk Hfb htmlPath Hf Hs Hg Hmeta.
  assert (E : exists w1,
             get_seed this key ctx w
             = (Ok (Proceed
                      (Some {| lastModified := mtime f;
                               value := Some (CachedAppPageValue (content f)
                                                (Some (content g))
                                                None None None) |})), w1)).
  { unfold get_seed.
    erewrite bind_ok by (apply memoryCache_get_miss; exact Hmiss).
    erewrite bind_ok by apply when_log_run.
    destruct (logged_frame (debug this) "get" w)
      as (Ff & Fu & Fs & Fn & _ & Fe & _).
    set (w0 := logged (debug this) "get" w) in *.
    erewrite bind_ok by reflexivity.
    rewrite Fe, Hedge.
    unfold htmlPath in *. rewrite Hk in *. unfold contentPath, dataPath in *.
    cbv beta iota.
    eexists. erewrite try_ok; [reflexivity |].
    erewrite bind_ok by (apply readFile_found; rewrite Ff; exact Hf).
    erewrite bind_ok
      by (apply stat_found; cbn;
          [rewrite Ff; exact Hf | rewrite Fs; exact Hs]).
    rewrite Hfb.
    erewrite bind_ok.
    2: { erewrite bind_ok by apply read_meta_optional.
         erewrite bind_ok
           by (apply readFile_found; cbn; rewrite Ff; exact Hg).
         reflexivity. }
    unfold stored_meta in *. cbn [files emit]. rewrite Ff.
    rewrite Hmeta. cbn [fst snd mbind option_bind].
    erewrite bind_ok by (apply memoryCache_set_run; reflexivity).
    reflexivity. }
  destruct E as [w1 E]. unfold get.
  erewrite bind_ok by exact E. reflexivity.
Qed.

(** C8, as the code has it: no failure of the persistent-tier read is
    propagated.  The reading of the persistent tier in [get] always returns
    normally, and so does [get] unless the staleness evaluation then finds
    in the variable [tagsManifest] a value without [items].  When the memory
    tier misses, a missing content file, a failed stat, a fetch file that is
    no JSON document, a sidecar of a route that is missing, is no JSON
    document or is [null], a missing data payload of an app page or a data
    payload of a legacy page that is missing or is no JSON document make
    [get] return nothing; a sidecar of an app page that is missing or holds
    no metadata does not, the page is returned without metadata. *)
Theorem get_read_failure_is_miss
    (this : FileSystemCache) (key : string) (ctx : GetContext) (w : World) :
  (exists r, (get_seed this key ctx w).1 = Ok r)
  /\ (loaded_manifest this (get_seed this key ctx w).2 <> Some Shapeless ->
      exists r, (get this key ctx w).1 = Ok r)
  /\ (memory_miss key w ->
      edge_runtime w = false ->
      read_failure this key ctx w ->
      (get this key ctx w).1 = Ok None)
  /\ (forall f g,
        memory_miss key w ->
        edge_runtime w = false ->
        kind ctx = IncrementalCacheKind.APP_PAGE ->
        isFallback ctx = false ->
        files w !! contentPath this key (kind ctx) = Some f ->
        contentPath this key (kind ctx) ∉ unstatable w ->
        files w !! dataPath this key (kind ctx) (isRoutePPREnabled ctx)
        = Some g ->
        stored_meta w
          (replace_suffix ".html" NEXT_META_SUFFIX
             (contentPath this key (kind ctx))) = None ->
        (get this key ctx w).1
        = Ok (Some {| lastModified := mtime f;
                      value := Some (CachedAppPageValue (content f)
                                       (Some (content g))
                                       None None None) |})).
Proof.
  split; [apply get_seed_returns |].
  split; [apply get_returns |]. split.
  - intros Hmiss Hedge Hfail.
    destruct (get_seed_read_failure this key ctx w Hmiss Hedge Hfail)
      as [w1 E].
    eapply get_of_seed_return. exact E.
  - intros f g. apply get_app_page_without_meta.
Qed.

(** *** Fallbacks *)

(** The start of [set] when the value has a length: the memory tier, the
    debug message and the test of [flushToDisk]. *)
Lemma set_start this key v w len :
  length_of {| lastModified := now w; value := Some v |} = inr len ->
  flushToDisk this = true ->
  exists w0,
    files w0 = files w /\ unwritable w0 = unwritable w /\ now w0 = now w
    /\ forall k : Op unit,
         (t <- gets now ;;
          memoryCache_set key {| lastModified := t; value := Some v |} ;;
          when (debug this) (console_log "set") ;;
          k) w
         = k w0.
Proof.
  intros Hlen Hflush.
  exists (logged (debug this) "set"
            (remember key {| lastModified := now w; value := Some v |}
               len w)).
  destruct (logged_frame (debug this) "set"
              (remember key {| lastModified := now w; value := Some v |}
                 len w)) as (Lf & Lu & _ & Ln & _).
  destruct (remember_frame key {| lastModified := now w; value := Some v |}
              len w) as (Rf & Ru & _ & Rn & _).
  repeat split; try congruence.
  intros k.
  erewrite bind_ok by reflexivity.
  erewrite bind_ok by (apply memoryCache_set_run; exact Hlen).
  erewrite bind_ok by apply when_log_run.
  reflexivity.
Qed.

Lemma set_fallback_emitting this key v ctx k :
  page_kind_of v = Some k ->
  set_isFallback ctx = true ->
  respects (emitting (fallback_write this key k)) (set this key (Some v) ctx).
Proof.
  intros Hk Hfb. unfold set. rewrite Hfb. cbn [negb when].
  destruct v; try discriminate; injection Hk as <-;
    respects_auto; cbn; unfold metaPath, contentPath; auto.
Qed.

(** A fallback [set] of a page leaves every file but the html file and the
    sidecar as it is. *)
Lemma set_fallback_keeping_file this key v ctx k p :
  page_kind_of v = Some k ->
  set_isFallback ctx = true ->
  p <> contentPath this key k ->
  p <> metaPath this key k ->
  respects (keeping (fun w => files w !! p)) (set this key (Some v) ctx).
Proof.
  intros Hk Hfb Hc Hm. unfold set. rewrite Hfb. cbn [negb when].
  unfold metaPath, contentPath in *.
  destruct v; try discriminate; injection Hk as <-;
    respects_auto;
    (apply respects_modify; intros w0; unfold keeping;
     cbn [files with_files]; apply lookup_insert_ne; congruence).
Qed.

Lemma get_fallback_emitting this key ctx :
  kind ctx = IncrementalCacheKind.APP_PAGE
  \/ kind ctx = IncrementalCacheKind.PAGES ->
  isFallback ctx = true ->
  respects (emitting (fallback_read this key (kind ctx))) (get this key ctx).
Proof.
  intros Hk Hfb.
  assert (Hload : respects (emitting (fallback_read this key (kind ctx)))
                    (loadTagsManifest this)).
  { apply loadTagsManifest_emitting; [| intros msg; exact I].
    intros path E. right. exact E. }
  unfold get, get_seed, get_fresh. rewrite Hfb.
  destruct Hk as [Hk | Hk]; rewrite Hk in *; cbv beta iota;
    respects_auto; cbn; unfold contentPath; auto.
Qed.

(** A fallback [set] of a page whose directory and html file can be written
    writes the html file, and the file is there afterwards whatever becomes
    of the sidecar. *)
Lemma set_fallback_writes_html this key v ctx k html w :
  page_kind_of v = Some k ->
  html_of v = Some html ->
  set_isFallback ctx = true ->
  flushToDisk this = true ->
  metaPath this key k <> contentPath this key k ->
  path_dirname (contentPath this key k) ∉ unwritable w ->
  contentPath this key k ∉ unwritable w ->
  (exists before after,
      trace (set this key (Some v) ctx w).2
      = (after ++ WriteFile (contentPath this key k) html :: before
           ++ trace w)%list)
  /\ files (set this key (Some v) ctx w).2 !! contentPath this key k
     = Some {| content := html; mtime := now w |}.
Proof.
  intros Hk Hhtml Hfb Hflush Hmc Hdir Hfile.
  assert (Hlen : exists len,
             length_of {| lastModified := now w; value := Some v |}
             = inr len).
  { destruct v; try discriminate; cbn; eauto. }
  destruct Hlen as [len Hlen].
  destruct (set_start this key v w len Hlen Hflush)
    as (w0 & Ff & Fu & Fn & Hstart).
  assert (Ht : exists n0, trace w0 = (n0 ++ trace w)%list).
  { assert (Hs : respects (emitting any_call)
                   (t <- gets now ;;
                    memoryCache_set key
                      {| lastModified := t; value := Some v |} ;;
                    when (debug this) (console_log "set") ;;
                    ret tt)) by (respects_auto; exact I).
    destruct (Hs w) as (n0 & E & _). rewrite (Hstart (ret tt)) in E.
    exists n0. exact E. }
  destruct Ht as [n0 Ht].
  unfold set. rewrite Hflush, Hfb. cbn [negb when].
  unfold metaPath, contentPath in *.
  destruct v; try discriminate; injection Hk as <-; injection Hhtml as <-;
    rewrite Hstart;
    (erewrite bind_ok by (apply mkdir_ok; rewrite Fu; exact Hdir));
    (erewrite bind_ok
       by (apply writeFile_ok; cbn; rewrite Fu; exact Hfile)).
  - (* app page: the sidecar follows *)
    erewrite bind_ok by reflexivity.
    match goal with
    | |- context [writeFile ?p ?d ?w3] =>
        assert (Hw : respects (emitting any_call) (writeFile p d)
                     /\ respects
                          (keeping (fun w =>
                             files w
                             !! getFilePath this (key ++ ".html")
                                  IncrementalCacheKind.APP_PAGE))
                          (writeFile p d));
          [| destruct Hw as [Hwe Hwk];
             destruct (Hwe w3) as (after & Ea & _); pose proof (Hwk w3) as Ek ]
    end.
    { split; respects_auto; try exact I.
      apply respects_modify; intros w1; unfold keeping;
        cbn [files with_files].
      apply lookup_insert_ne. congruence. }
    split.
    + exists (Mkdir (path_dirname
                       (getFilePath this (key ++ ".html")
                          IncrementalCacheKind.APP_PAGE)) :: n0), after.
      rewrite Ea. cbn. rewrite Ht. reflexivity.
    + unfold keeping in Ek. rewrite Ek. cbn. rewrite Fn.
      apply lookup_insert_eq.
  - (* legacy page *)
    split.
    + exists (Mkdir (path_dirname
                       (getFilePath this (key ++ ".html")
                          IncrementalCacheKind.PAGES)) :: n0), [].
      cbn. rewrite Ht. reflexivity.
    + cbn. rewrite Fn. apply lookup_insert_eq.
Qed.

(** C9: a fallback has no data payload.  For both page variants, when the
    data-payload file is another file than the html file, the sidecar and
    the tags manifest: a [set] with [isFallback] makes no [writeFile] call
    on the data-payload file and leaves that file as it is, and when it
    persists and the directory and the html file can be written it writes
    the html file, which then holds the html; a [get] with [isFallback]
    makes no [readFile] call on the data-payload file nor, for an app page,
    on the sidecar. *)
Theorem fallback_skips_data_payload
    (this : FileSystemCache) (key : string) (k : IncrementalCacheKind.t)
    (ppr : bool) :
  k = IncrementalCacheKind.APP_PAGE \/ k = IncrementalCacheKind.PAGES ->
  dataPath this key k ppr <> contentPath this key k ->
  dataPath this key k ppr <> metaPath this key k ->
  tagsManifestPath this <> Some (dataPath this key k ppr) ->
  metaPath this key k <> contentPath this key k ->
  tagsManifestPath this <> Some (metaPath this key k) ->
  (forall v html ctx w,
      page_kind_of v = Some k ->
      html_of v = Some html ->
      set_isFallback ctx = true ->
      (exists new,
         trace (set this key (Some v) ctx w).2 = (new ++ trace w)%list
         /\ forall data, WriteFile (dataPath this key k ppr) data ∉ new)
      /\ files (set this key (Some v) ctx w).2 !! dataPath this key k ppr
         = files w !! dataPath this key k ppr
      /\ (flushToDisk this = true ->
          path_dirname (contentPath this key k) ∉ unwritable w ->
          contentPath this key k ∉ unwritable w ->
          (exists before after,
             trace (set this key (Some v) ctx w).2
             = (after ++ WriteFile (contentPath this key k) html :: before
                  ++ trace w)%list)
          /\ files (set this key (Some v) ctx w).2 !! contentPath this key k
             = Some {| content := html; mtime := now w |}))
  /\ (forall ctx w,
        kind ctx = k ->
        isFallback ctx = true ->
        exists new,
          trace (get this key ctx w).2 = (new ++ trace w)%list
          /\ (ReadFile (dataPath this key k ppr) ∉ new)
          /\ (k = IncrementalCacheKind.APP_PAGE ->
              ReadFile (metaPath this key k) ∉ new)).
Proof.
  intros Hk Hdc Hdm Hmd Hmc Hmm. split.
  - intros v html ctx w Hv Hhtml Hfb. split; [| split].
    + destruct (set_fallback_emitting this key v ctx k Hv Hfb w)
        as (new & E & F).
      exists new. split; [exact E |].
      intros data Hin. rewrite Forall_forall in F.
      specialize (F _ Hin). cbn in F.
      destruct F as [F | [_ F]]; congruence.
    + apply (set_fallback_keeping_file this key v ctx k
               (dataPath this key k ppr) Hv Hfb Hdc Hdm w).
    + intros Hflush Hdir Hfile.
      apply set_fallback_writes_html; assumption.
  - intros ctx w Hkind Hfb.
    assert (Hk' : kind ctx = IncrementalCacheKind.APP_PAGE
                  \/ kind ctx = IncrementalCacheKind.PAGES)
      by (rewrite Hkind; exact Hk).
    destruct (get_fallback_emitting this key ctx Hk' Hfb w)
      as (new & E & F).
    rewrite Hkind in F. rewrite Forall_forall in F.
    exists new. split; [exact E |]. split.
    + intros Hin. specialize (F _ Hin). cbn in F.
      destruct F as [F | F]; congruence.
    + intros _ Hin. specialize (F _ Hin). cbn in F.
      destruct F as [F | F]; congruence.
Qed.

End Properties.

(** ** Further properties *)

Section Further.
Context `{Imports}.

#[local] Instance stays_loaded_preorder : PreOrder stays_loaded.
Proof.
  split.
  - intros w Hs. exact Hs.
  - intros a b c Hab Hbc Hs. apply Hbc, Hab, Hs.
Qed.

#[local] Instance files_persist_preorder : PreOrder files_persist.
Proof.
  split.
  - intros w p Hp. exact Hp.
  - intros a b c Hab Hbc p Hp. apply Hbc, Hab, Hp.
Qed.

#[local] Instance stays_without_memory_preorder : PreOrder stays_without_memory.
Proof.
  split.
  - intros w Hn. exact Hn.
  - intros a b c Hab Hbc Hn. apply Hbc, Hab, Hn.
Qed.

#[local] Instance files_differ_at_preorder path : PreOrder (files_differ_at path).
Proof.
  split.
  - intros w p Hp. reflexivity.
  - intros a b c Hab Hbc p Hp. rewrite Hbc, Hab by exact Hp. reflexivity.
Qed.

Hint Resolve loadTagsManifest_keeping_memoryCache loadTagsManifest_keeping_now
  loadTagsManifest_keeping_files loadTagsManifest_keeping_unwritable
  : respects.

(** *** What stays as it is *)

Ltac loaded_leaf :=
  apply respects_modify; intros ? ?; cbn; eauto.

Lemma loadTagsManifest_stays_loaded this :
  respects stays_loaded (loadTagsManifest this).
Proof.
  intros w [m Hm]. erewrite loadTagsManifest_loaded by exact Hm.
  cbn. eauto.
Qed.

Lemma set_stays_loaded this key data ctx :
  respects stays_loaded (set this key data ctx).
Proof. unfold set. respects_auto; loaded_leaf. Qed.

Lemma get_stays_loaded this key ctx :
  respects stays_loaded (get this key ctx).
Proof.
  pose proof (loadTagsManifest_stays_loaded this).
  pose proof (fun d c => set_stays_loaded this key d c).
  unfold get, get_seed, get_fresh. respects_auto; loaded_leaf.
Qed.

Lemma revalidateTag_stays_loaded this tags :
  respects stays_loaded (revalidateTag this tags).
Proof.
  pose proof (loadTagsManifest_stays_loaded this).
  unfold revalidateTag. respects_auto; loaded_leaf.
Qed.

Lemma new_FileSystemCache_stays_loaded ctx :
  respects stays_loaded (new_FileSystemCache ctx).
Proof.
  pose proof loadTagsManifest_stays_loaded.
  unfold new_FileSystemCache. rewrite ?loadTagsManifestSync_eq.
  respects_auto; try loaded_leaf.
  all: rewrite ?loadTagsManifestSync_eq; respects_auto; try loaded_leaf.
Qed.

(** X1: once the variable [tagsManifest] holds a manifest, or whatever
    else was loaded into it, no operation of the handler unloads it: after
    [get], [set], [revalidateTag] or a constructor call it still holds
    something. *)
Theorem manifest_stays_loaded
    (this : FileSystemCache) (key : string) (gctx : GetContext)
    (data : option IncrementalCacheValue) (sctx : SetContext)
    (tags : list string) (cctx : FileSystemCacheContext) (w : World) :
  is_Some (tagsManifest w) ->
  is_Some (tagsManifest (get this key gctx w).2)
  /\ is_Some (tagsManifest (set this key data sctx w).2)
  /\ is_Some (tagsManifest (revalidateTag this tags w).2)
  /\ is_Some (tagsManifest (new_FileSystemCache cctx w).2).
Proof.
  intros Hs. repeat split.
  - apply get_stays_loaded, Hs.
  - apply set_stays_loaded, Hs.
  - apply revalidateTag_stays_loaded, Hs.
  - apply new_FileSystemCache_stays_loaded, Hs.
Qed.

Ltac persist_leaf :=
  apply respects_modify; intros ?w ?p ?Hp; cbn;
  first
    [ assumption
    | match goal with
      | Hp : is_Some (_ !! ?p) |- is_Some (<[?q := _]> _ !! ?p) =>
          destruct (decide (q = p)) as [-> | ?];
          [ rewrite lookup_insert_eq; eauto
          | rewrite lookup_insert_ne by assumption; exact Hp ]
      end ].

Lemma loadTagsManifest_files_persist this :
  respects files_persist (loadTagsManifest this).
Proof. unfold loadTagsManifest. respects_auto; persist_leaf. Qed.

Lemma set_files_persist this key data ctx :
  respects files_persist (set this key data ctx).
Proof. unfold set. respects_auto; persist_leaf. Qed.

Lemma get_files_persist this key ctx :
  respects files_persist (get this key ctx).
Proof.
  pose proof (loadTagsManifest_files_persist this).
  pose proof (fun d c => set_files_persist this key d c).
  unfold get, get_seed, get_fresh. respects_auto; persist_leaf.
Qed.

Lemma revalidateTag_files_persist this tags :
  respects files_persist (revalidateTag this tags).
Proof.
  pose proof (loadTagsManifest_files_persist this).
  unfold revalidateTag. respects_auto; persist_leaf.
Qed.

Lemma new_FileSystemCache_files_persist ctx :
  respects files_persist (new_FileSystemCache ctx).
Proof.
  pose proof loadTagsManifest_files_persist.
  unfold new_FileSystemCache. rewrite ?loadTagsManifestSync_eq.
  respects_auto; try persist_leaf.
  all: rewrite ?loadTagsManifestSync_eq; respects_auto; try persist_leaf.
Qed.

(** X2: the handler never deletes a file: a file that exists still exists
    after [get], [set], [revalidateTag] or a constructor call, whether the
    call returns or throws. *)
Theorem files_are_never_deleted
    (this : FileSystemCache) (key : string) (gctx : GetContext)
    (data : option IncrementalCacheValue) (sctx : SetContext)
    (tags : list string) (cctx : FileSystemCacheContext) (w : World)
    (p : string) :
  is_Some (files w !! p) ->
  is_Some (files (get this key gctx w).2 !! p)
  /\ is_Some (files (set this key data sctx w).2 !! p)
  /\ is_Some (files (revalidateTag this tags w).2 !! p)
  /\ is_Some (files (new_FileSystemCache cctx w).2 !! p).
Proof.
  intros Hp. repeat split.
  - apply get_files_persist, Hp.
  - apply set_files_persist, Hp.
  - apply revalidateTag_files_persist, Hp.
  - apply new_FileSystemCache_files_persist, Hp.
Qed.

(** *** The memory tier outside the constructor *)

Lemma memoryCache_get_without_memory key :
  respects stays_without_memory (memoryCache_get key).
Proof.
  intros w Hn. unfold memoryCache_get, bind, gets. cbn. rewrite Hn. exact Hn.
Qed.

Lemma memoryCache_set_without_memory key e :
  respects stays_without_memory (memoryCache_set key e).
Proof.
  intros w Hn. unfold memoryCache_set, bind, gets. cbn. rewrite Hn. exact Hn.
Qed.

Hint Resolve memoryCache_get_without_memory memoryCache_set_without_memory
  : respects.

Ltac without_leaf :=
  apply respects_modify; intros ? ?; cbn; assumption.

Lemma loadTagsManifest_without_memory this :
  respects stays_without_memory (loadTagsManifest this).
Proof. unfold loadTagsManifest. respects_auto; without_leaf. Qed.

Lemma set_without_memory this key data ctx :
  respects stays_without_memory (set this key data ctx).
Proof. unfold set. respects_auto; without_leaf. Qed.

Lemma get_without_memory this key ctx :
  respects stays_without_memory (get this key ctx).
Proof.
  pose proof (loadTagsManifest_without_memory this).
  pose proof (fun d c => set_without_memory this key d c).
  unfold get, get_seed, get_fresh. respects_auto; without_leaf.
Qed.

Lemma revalidateTag_without_memory this tags :
  respects stays_without_memory (revalidateTag this tags).
Proof.
  pose proof (loadTagsManifest_without_memory this).
  unfold revalidateTag. respects_auto; without_leaf.
Qed.

Lemma new_FileSystemCache_without_memory ctx :
  maxMemoryCacheSize ctx = None \/ maxMemoryCacheSize ctx = Some 0%nat ->
  respects stays_without_memory (new_FileSystemCache ctx).
Proof.
  intros Hmax.
  pose proof loadTagsManifest_without_memory.
  unfold new_FileSystemCache. rewrite ?loadTagsManifestSync_eq.
  destruct Hmax as [-> | ->]; cbv beta iota;
    respects_auto; try without_leaf.
  all: rewrite ?loadTagsManifestSync_eq; respects_auto; try without_leaf.
Qed.

(** X3: only a constructor call that configures a size creates the memory
    tier.  Without a memory tier, [get], [set] and [revalidateTag] leave
    the process without one, and so does a constructor call whose
    [maxMemoryCacheSize] is absent or zero. *)
Theorem memoryCache_only_by_constructor
    (this : FileSystemCache) (key : string) (gctx : GetContext)
    (data : option IncrementalCacheValue) (sctx : SetContext)
    (tags : list string) (cctx : FileSystemCacheContext) (w : World) :
  memoryCache w = None ->
  memoryCache (get this key gctx w).2 = None
  /\ memoryCache (set this key data sctx w).2 = None
  /\ memoryCache (revalidateTag this tags w).2 = None
  /\ (maxMemoryCacheSize cctx = None \/ maxMemoryCacheSize cctx = Some 0%nat ->
      memoryCache (new_FileSystemCache cctx w).2 = None).
Proof.
  intros Hn. repeat split.
  - apply get_without_memory, Hn.
  - apply set_without_memory, Hn.
  - apply revalidateTag_without_memory, Hn.
  - intros Hmax. apply new_FileSystemCache_without_memory; assumption.
Qed.

(** *** What the operations never call *)

Lemma loadTagsManifest_no_write this :
  respects (emitting no_write) (loadTagsManifest this).
Proof. apply loadTagsManifest_emitting; intros; exact I. Qed.

Lemma get_fresh_no_write this ctx data :
  respects (emitting no_write) (get_fresh this ctx data).
Proof.
  pose proof (loadTagsManifest_no_write this).
  unfold get_fresh. respects_auto.
Qed.

Lemma get_no_write this key ctx :
  kind ctx <> IncrementalCacheKind.FETCH ->
  respects (emitting no_write) (get this key ctx).
Proof.
  intros Hk.
  pose proof (loadTagsManifest_no_write this).
  unfold get, get_seed, get_fresh.
  destruct (kind ctx); try congruence; respects_auto; exact I.
Qed.

Lemma get_keeping_files this key ctx :
  kind ctx <> IncrementalCacheKind.FETCH ->
  respects (keeping files) (get this key ctx).
Proof.
  intros Hk. unfold get, get_seed, get_fresh.
  destruct (kind ctx); try congruence; respects_auto.
Qed.

(** X4: a [get] of any kind but [FETCH] only reads: it makes no [mkdir]
    and no [writeFile] call and leaves every file as it is. *)
Theorem get_only_reads
    (this : FileSystemCache) (key : string) (ctx : GetContext) (w : World) :
  kind ctx <> IncrementalCacheKind.FETCH ->
  emitting no_write w (get this key ctx w).2
  /\ files (get this key ctx w).2 = files w.
Proof.
  intros Hk. split.
  - apply get_no_write, Hk.
  - apply get_keeping_files, Hk.
Qed.

Lemma set_no_read this key data ctx :
  respects (emitting no_read) (set this key data ctx).
Proof. unfold set. respects_auto; exact I. Qed.

Lemma set_keeping_tagsManifest this key data ctx :
  respects (keeping tagsManifest) (set this key data ctx).
Proof. unfold set. respects_auto. Qed.

(** X5: [set] never reads: it makes no [readFile] and no [stat] call, and
    it leaves the tags manifest in memory as it is. *)
Theorem set_never_reads
    (this : FileSystemCache) (key : string)
    (data : option IncrementalCacheValue) (ctx : SetContext) (w : World) :
  emitting no_read w (set this key data ctx w).2
  /\ tagsManifest (set this key data ctx w).2 = tagsManifest w.
Proof.
  split.
  - apply set_no_read.
  - apply set_keeping_tagsManifest.
Qed.

Lemma set_memory_only_no_fs this key data ctx :
  flushToDisk this = false \/ data = None ->
  respects (emitting no_fs_call) (set this key data ctx).
Proof.
  intros Hoff. unfold set.
  destruct Hoff as [-> | ->]; respects_auto; exact I.
Qed.

Lemma set_memory_only_files this key data ctx :
  flushToDisk this = false \/ data = None ->
  respects (keeping files) (set this key data ctx).
Proof.
  intros Hoff. unfold set.
  destruct Hoff as [-> | ->]; respects_auto.
Qed.

(** X6: with persistence disabled, or for a recorded miss ([data] is
    [null]), [set] stops after the memory tier: it returns normally, makes no
    file-system call, leaves the files as they are, and the memory tier, if
    there is one, has been given the entry dated now. *)
Theorem set_without_persistence
    (this : FileSystemCache) (key : string)
    (data : option IncrementalCacheValue) (ctx : SetContext) (w : World)
    (len : nat) :
  flushToDisk this = false \/ data = None ->
  length_of {| lastModified := now w; value := data |} = inr len ->
  let r := set this key data ctx w in
  r.1 = Ok tt
  /\ emitting no_fs_call w r.2
  /\ files r.2 = files w
  /\ memoryCache r.2
     = memoryCache
         (remember key {| lastModified := now w; value := data |} len w).
Proof.
  intros Hoff Hlen. cbn zeta.
  split; [| split; [apply set_memory_only_no_fs; exact Hoff |
                    split; [apply set_memory_only_files; exact Hoff |]]].
  - unfold set.
    erewrite bind_ok by reflexivity.
    erewrite bind_ok by (apply memoryCache_set_run; exact Hlen).
    erewrite bind_ok by apply when_log_run.
    destruct Hoff as [-> | ->]; [reflexivity |].
    destruct (flushToDisk this); reflexivity.
  - unfold set.
    erewrite bind_ok by reflexivity.
    erewrite bind_ok by (apply memoryCache_set_run; exact Hlen).
    erewrite bind_ok by apply when_log_run.
    destruct (logged_frame (debug this) "set"
                (remember key {| lastModified := now w; value := data |}
                   len w)) as (_ & _ & _ & _ & _ & _ & <-).
    destruct Hoff as [-> | ->]; [reflexivity |].
    destruct (flushToDisk this); reflexivity.
Qed.

(** X7: a redirect or an image is no value of the persistent tier: with
    persistence enabled, [set] of one throws an invariant error, and it does
    so before any file-system call. *)
Theorem set_unsupported_kind_throws
    (this : FileSystemCache) (key : string) (v : IncrementalCacheValue)
    (ctx : SetContext) (w : World) :
  flushToDisk this = true ->
  kind_of v = Some CachedRouteKind.REDIRECT
  \/ kind_of v = Some CachedRouteKind.IMAGE ->
  let r := set this key (Some v) ctx w in
  (exists msg, r.1 = Throw (Invariant msg))
  /\ emitting no_fs_call w r.2
  /\ files r.2 = files w.
Proof.
  intros Hflush Hkind. cbn zeta.
  assert (Hcalls : respects (emitting no_fs_call) (set this key (Some v) ctx)
                   /\ respects (keeping files) (set this key (Some v) ctx)).
  { unfold set. rewrite Hflush.
    destruct v; cbn in Hkind; destruct Hkind as [Hk | Hk]; try discriminate;
      split; respects_auto; exact I. }
  destruct Hcalls as [Hcalls Hfiles].
  split; [| split; [apply Hcalls | apply Hfiles]].
  unfold set. erewrite bind_ok by reflexivity. rewrite Hflush.
  destruct v; cbn in Hkind; destruct Hkind as [Hk | Hk]; try discriminate.
  - erewrite bind_ok by (apply memoryCache_set_run; reflexivity).
    erewrite bind_ok by apply when_log_run. eexists. reflexivity.
  - destruct (memoryCache w) as [c |] eqn:Hc.
    + erewrite bind_throw; [eexists; reflexivity |].
      unfold memoryCache_set, bind, gets. cbn. rewrite Hc. reflexivity.
    + erewrite bind_ok
        by (unfold memoryCache_set, bind, gets; cbn; rewrite Hc; reflexivity).
      erewrite bind_ok by apply when_log_run. eexists. reflexivity.
Qed.

(** X8: [revalidateTag] with no tag, or on an instance without a manifest
    path, does nothing: it returns normally, makes no file-system call and
    leaves the files, the manifest in memory and the memory tier as they
    are. *)
Theorem revalidateTag_noop
    (this : FileSystemCache) (tags : list string) (w : World) :
  tags = [] \/ tagsManifestPath this = None ->
  revalidateTag this tags w
  = (Ok tt, logged (debug this) "revalidateTag" w)
  /\ emitting no_fs_call w (logged (debug this) "revalidateTag" w)
  /\ files (logged (debug this) "revalidateTag" w) = files w
  /\ tagsManifest (logged (debug this) "revalidateTag" w) = tagsManifest w
  /\ memoryCache (logged (debug this) "revalidateTag" w) = memoryCache w.
Proof.
  intros Hnoop.
  destruct (logged_frame (debug this) "revalidateTag" w)
    as (Ff & _ & _ & _ & Fm & _ & Fc).
  split; [| split; [| auto]].
  - unfold revalidateTag.
    erewrite bind_ok by apply when_log_run.
    destruct tags as [| tag rest]; [reflexivity |].
    destruct Hnoop as [Hnil | Hpath]; [discriminate |].
    erewrite bind_ok by (apply loadTagsManifest_no_path; exact Hpath).
    erewrite bind_ok by reflexivity.
    rewrite Hpath. destruct (tagsManifest _) as [[m |] |]; reflexivity.
  - unfold logged. destruct (debug this).
    + apply emitting_emit. exact I.
    + reflexivity.
Qed.

(** *** Reads that cannot hit *)

(** X9: in the edge runtime a [get] that misses the memory tier returns
    nothing without touching the file system. *)
Theorem get_edge_runtime_miss
    (this : FileSystemCache) (key : string) (ctx : GetContext) (w : World) :
  memory_miss key w ->
  edge_runtime w = true ->
  get this key ctx w = (Ok None, logged (debug this) "get" w)
  /\ emitting no_fs_call w (logged (debug this) "get" w)
  /\ files (logged (debug this) "get" w) = files w.
Proof.
  intros Hmiss Hedge.
  destruct (logged_frame (debug this) "get" w)
    as (Ff & _ & _ & _ & _ & Fe & _).
  split; [| split; [| exact Ff]].
  - assert (E : get_seed this key ctx w
                = (Ok (Proceed None), logged (debug this) "get" w)).
    { unfold get_seed.
      erewrite bind_ok by (apply memoryCache_get_miss; exact Hmiss).
      erewrite bind_ok by apply when_log_run.
      erewrite bind_ok by reflexivity.
      rewrite Fe, Hedge. reflexivity. }
    unfold get. erewrite bind_ok by exact E. reflexivity.
  - unfold logged. destruct (debug this).
    + apply emitting_emit. exact I.
    + reflexivity.
Qed.

(** The first two steps of a read from the files, once the content file is
    known to be there. *)
Lemma read_and_stat {B} path f (k : Blob -> Z -> Op B) w :
  files w !! path = Some f ->
  path ∉ unstatable w ->
  (fileData <- readFile path ;; mt <- stat path ;; k fileData mt) w
  = k (content f) (mtime f) (emit (Stat path) (emit (ReadFile path) w)).
Proof.
  intros Hf Hs.
  erewrite bind_ok by (apply readFile_found; exact Hf).
  erewrite bind_ok by (apply stat_found; [exact Hf | exact Hs]).
  reflexivity.
Qed.

Lemma read_and_stat_fails {B} path f (k : Blob -> Z -> Op B) w :
  files w !! path = Some f ->
  path ∈ unstatable w ->
  (fileData <- readFile path ;; mt <- stat path ;; k fileData mt) w
  = (Throw (EACCES path), emit (Stat path) (emit (ReadFile path) w)).
Proof.
  intros Hf Hs.
  erewrite bind_ok by (apply readFile_found; exact Hf).
  erewrite bind_throw; [reflexivity |].
  unfold stat, bind, modify, gets. cbn. rewrite Hf.
  rewrite bool_decide_eq_true_2 by exact Hs. reflexivity.
Qed.

(** [get_seed] up to the dispatch on the kind, after a miss of the memory
    tier outside the edge runtime. *)
Ltac seed_prefix Hmiss Hedge :=
  unfold get_seed;
  erewrite bind_ok by (apply memoryCache_get_miss; exact Hmiss);
  erewrite bind_ok by apply when_log_run;
  erewrite bind_ok by reflexivity;
  match goal with
  | |- context [edge_runtime (logged ?d "get" ?w0)] =>
      let Fe := fresh "Fe" in
      destruct (logged_frame d "get" w0)
        as (?Ff & ?Fu & ?Fs & ?Fn & ?Fm & Fe & ?Fc);
      rewrite Fe, Hedge
  end.

Lemma get_seed_fetch_off this key ctx w :
  kind ctx = IncrementalCacheKind.FETCH ->
  flushToDisk this = false ->
  memory_miss key w ->
  edge_runtime w = false ->
  exists w1, get_seed this key ctx w = (Ok (Return None), w1).
Proof.
  intros Hk Hflush Hmiss Hedge.
  destruct (files w !! contentPath this key (kind ctx)) as [f |] eqn:Hf;
    [| apply get_seed_content_missing; assumption].
  seed_prefix Hmiss Hedge.
  rewrite Hk in *. unfold contentPath in Hf. cbv beta iota.
  destruct (decide (getFilePath this key IncrementalCacheKind.FETCH
                    ∈ unstatable w)) as [Hs | Hs].
  - erewrite try_throw; [eexists; reflexivity |].
    apply read_and_stat_fails with (f := f); [rewrite Ff | rewrite Fs];
      assumption.
  - erewrite try_ok; [eexists; reflexivity |].
    erewrite read_and_stat by ((rewrite Ff || rewrite Fs); eassumption).
    rewrite Hflush. reflexivity.
Qed.

(** X10: with persistence disabled a fetch entry is never served from the
    files: on a miss of the memory tier a [get] of kind [FETCH] returns
    nothing, whatever the file holds, and writes nothing. *)
Theorem get_fetch_without_persistence
    (this : FileSystemCache) (key : string) (ctx : GetContext) (w : World) :
  kind ctx = IncrementalCacheKind.FETCH ->
  flushToDisk this = false ->
  memory_miss key w ->
  edge_runtime w = false ->
  (get this key ctx w).1 = Ok None
  /\ emitting no_write w (get this key ctx w).2
  /\ files (get this key ctx w).2 = files w.
Proof.
  intros Hk Hflush Hmiss Hedge. split; [| split].
  - destruct (get_seed_fetch_off this key ctx w Hk Hflush Hmiss Hedge)
      as [w1 E].
    eapply get_of_seed_return. exact E.
  - pose proof (loadTagsManifest_no_write this).
    unfold get, get_seed, get_fresh. rewrite Hk, Hflush. cbn [negb].
    respects_auto; exact I.
  - unfold get, get_seed, get_fresh. rewrite Hk, Hflush. cbn [negb].
    respects_auto.
Qed.

(** X11: no image is kept in this cache: on a miss of the memory tier a
    [get] of kind [IMAGE] returns nothing, whatever the files hold. *)
Theorem get_image_kind_misses
    (this : FileSystemCache) (key : string) (ctx : GetContext) (w : World) :
  kind ctx = IncrementalCacheKind.IMAGE ->
  memory_miss key w ->
  edge_runtime w = false ->
  (get this key ctx w).1 = Ok None.
Proof.
  intros Hk Hmiss Hedge.
  assert (E : exists w1, get_seed this key ctx w = (Ok (Return None), w1)).
  { destruct (files w !! contentPath this key (kind ctx)) as [f |] eqn:Hf;
      [| apply get_seed_content_missing; assumption].
    seed_prefix Hmiss Hedge.
    rewrite Hk in *. unfold contentPath in Hf. cbv beta iota.
    destruct (decide (getFilePath this (key ++ ".html")
                        IncrementalCacheKind.IMAGE ∈ unstatable w))
      as [Hs | Hs];
      (erewrite try_throw; [eexists; reflexivity |]).
    - apply read_and_stat_fails with (f := f); [rewrite Ff | rewrite Fs];
        assumption.
    - erewrite read_and_stat by ((rewrite Ff || rewrite Fs); eassumption).
      reflexivity. }
  destruct E as [w1 E]. eapply get_of_seed_return. exact E.
Qed.

(** *** Staleness, the other cases *)





(** X13: a fetch entry one of whose tags, requested or soft, is in the
    instance's list of tags revalidated in this cycle is not returned,
    whatever manifest the variable [tagsManifest] holds once loaded, and
    when it holds none. *)
Theorem get_fetch_revalidated_this_cycle
    (this : FileSystemCache) (key : string) (ctx : GetContext)
    (w w1 : World) (e : CacheHandlerValue) (v : CachedFetchValue)
    (tag : string) :
  get_seed this key ctx w = (Ok (Proceed (Some e)), w1) ->
  value e = Some (CachedFetch v) ->
  loaded_manifest this w1 <> Some Shapeless ->
  tag ∈ (default [] (tags ctx) ++ default [] (softTags ctx))%list ->
  tag ∈ revalidatedTags this ->
  (get this key ctx w).1 = Ok None.
Proof.
  intros Hseed Hv Hs Hin Hrev. unfold get.
  erewrite bind_ok by exact Hseed.
  destruct (get_fresh_fetch_run this ctx w1 e v Hv Hs) as (w2 & E & _).
  rewrite E.
  rewrite (existsb_elem_of _ _ tag Hin); [reflexivity |].
  rewrite bool_decide_eq_true_2 by exact Hrev. reflexivity.
Qed.

(** X14: only a cache-tags header that is a string counts.  A page whose
    headers are absent, or have no cache-tags header, or have one that is
    a number or an array, is returned by [get] whatever the manifest says;
    the manifest is not even loaded. *)
Theorem get_page_without_tags_header
    (this : FileSystemCache) (key : string) (ctx : GetContext)
    (w w1 : World) (e : CacheHandlerValue)
    (headers : option Headers) :
  get_seed this key ctx w = (Ok (Proceed (Some e)), w1) ->
  (exists html rsc pp st,
      value e = Some (CachedAppPageValue html rsc pp headers st))
  \/ (exists html pd st,
        value e = Some (CachedPageValue html pd headers st)) ->
  (forall s, headers ≫= (fun h : Headers => h !! NEXT_CACHE_TAGS_HEADER)
             <> Some (HString s)) ->
  get this key ctx w = (Ok (Some e), w1).
Proof.
  intros Hseed Hpage Hnot. unfold get.
  erewrite bind_ok by exact Hseed.
  assert (Hct : cacheTags headers = None).
  { unfold cacheTags.
    destruct (headers ≫= _) as [[s | n | l] |]; try reflexivity.
    exfalso. eapply Hnot. reflexivity. }
  unfold get_fresh.
  destruct Hpage as [(html & rsc & pp & st & ->) | (html & pd & st & ->)];
    rewrite Hct; reflexivity.
Qed.

Lemma get_seed_with_tags this key ctx ts sts rts :
  kind ctx <> IncrementalCacheKind.FETCH ->
  get_seed (with_revalidatedTags rts this) key (with_tags ts sts ctx)
  = get_seed this key ctx.
Proof.
  intros Hk. unfold get_seed. cbn [kind with_tags].
  destruct (kind ctx); try congruence; reflexivity.
Qed.

(** X15: for a page there are no request tags: the request's tags and soft
    tags and the instance's list of revalidated tags play no part.  A [get]
    of a kind other than [FETCH] whose candidate is a page does the same,
    result and world, under any other tags, soft tags and revalidated
    tags. *)
Theorem get_page_ignores_request_tags
    (this : FileSystemCache) (key : string) (ctx : GetContext)
    (w w1 : World) (e : CacheHandlerValue)
    (ts sts : option (list string)) (rts : list string) :
  kind ctx <> IncrementalCacheKind.FETCH ->
  get_seed this key ctx w = (Ok (Proceed (Some e)), w1) ->
  (exists k, (value e ≫= page_kind_of) = Some k) ->
  get (with_revalidatedTags rts this) key (with_tags ts sts ctx) w
  = get this key ctx w.
Proof.
  intros Hk Hseed [k Hpage]. unfold get.
  rewrite get_seed_with_tags by exact Hk.
  erewrite !bind_ok by exact Hseed.
  unfold get_fresh.
  destruct (value e) as [[html rsc pp headers st | body headers st
                         | html pd headers st | v | props | buf | d] |];
    try discriminate; reflexivity.
Qed.

(** *** What a read from the files returns *)

Lemma yields_ret {A} (Q : A -> Prop) (a : A) : Q a -> yields Q (ret a).
Proof. intros HQ w a' w' E. injection E as <- _. exact HQ. Qed.

Lemma yields_throw {A} (Q : A -> Prop) (e : Error) : yields Q (throw e).
Proof. intros w a' w' E. discriminate E. Qed.

Lemma yields_bind {A B} (Q : B -> Prop) (m : Op A) (f : A -> Op B) :
  (forall a, yields Q (f a)) -> yields Q (bind m f).
Proof.
  intros Hf w b w' E. unfold bind in E.
  destruct (m w) as [[a | e] w1]; [| discriminate].
  eapply Hf. exact E.
Qed.

Lemma yields_try {A} (Q : A -> Prop) (m : Op A) (h : Error -> Op A) :
  yields Q m -> (forall e, yields Q (h e)) -> yields Q (try_catch m h).
Proof.
  intros Hm Hh w a w' E. unfold try_catch in E.
  destruct (m w) as [[a' | e] w1] eqn:Em.
  - injection E as <- _. eapply Hm. exact Em.
  - eapply Hh. exact E.
Qed.

Lemma yields_bind_ret {A B} (Q : B -> Prop) (a : A) (f : A -> Op B) :
  yields Q (f a) -> yields Q (bind (ret a) f).
Proof. intros Hf w b w' E. eapply Hf. exact E. Qed.

Ltac yields_walk :=
  repeat first
    [ apply yields_throw
    | apply yields_try; [| intros ?]
    | apply yields_bind_ret
    | apply yields_bind; intros ?
    | match goal with
      | |- yields _ (match ?x with _ => _ end) => destruct x
      | |- yields _ (if ?x then _ else _) => destruct x
      end ].

(** X16: the files give a legacy page, and the fallback of an app page,
    without headers: such a page read from the files after a miss of the
    memory tier carries no tag, and [get] returns it whatever the manifest
    says, without loading the manifest. *)
Theorem get_bare_page_from_files
    (this : FileSystemCache) (key : string) (ctx : GetContext)
    (w w1 : World) (e : CacheHandlerValue) :
  kind ctx = IncrementalCacheKind.PAGES
  \/ (kind ctx = IncrementalCacheKind.APP_PAGE /\ isFallback ctx = true) ->
  memory_miss key w ->
  get_seed this key ctx w = (Ok (Proceed (Some e)), w1) ->
  bare_page e /\ get this key ctx w = (Ok (Some e), w1).
Proof.
  intros Hk Hmiss Hseed.
  assert (Hbare : bare_page e).
  { revert Hseed. unfold get_seed.
    erewrite bind_ok by (apply memoryCache_get_miss; exact Hmiss).
    erewrite bind_ok by apply when_log_run.
    erewrite bind_ok by reflexivity.
    destruct (edge_runtime _); [intros E; discriminate E |].
    intros E. cbv beta iota in E.
    match type of E with
    | ?m ?w0 = _ => assert (Hy : yields bare_candidate m)
    end.
    { destruct Hk as [Hk | [Hk Hfb]]; rewrite Hk; cbv beta iota;
        rewrite ?Hfb; cbv beta iota.
      - yields_walk; apply yields_ret; cbn; try exact I.
        all: left; do 2 eexists; reflexivity.
      - yields_walk; apply yields_ret; cbn; try exact I.
        all: right; eexists; reflexivity. }
    exact (Hy _ _ _ E). }
  split; [exact Hbare |].
  unfold get. erewrite bind_ok by exact Hseed.
  unfold get_fresh.
  destruct Hbare as [(html & pd & ->) | (html & ->)]; reflexivity.
Qed.

(** *** Revalidation, when it goes through *)



Lemma loadTagsManifest_files_differ_at this path :
  respects (files_differ_at path) (loadTagsManifest this).
Proof.
  intros w p _. rewrite (loadTagsManifest_keeping_files this w). reflexivity.
Qed.

Lemma revalidateTag_files_differ_at this tags path :
  tagsManifestPath this = Some path ->
  respects (files_differ_at path) (revalidateTag this tags).
Proof.
  intros Hpath.
  pose proof (loadTagsManifest_files_differ_at this path).
  unfold revalidateTag. rewrite Hpath.
  respects_auto;
    (apply respects_modify; intros w p Hne; cbn;
     first [ reflexivity | apply lookup_insert_ne; congruence ]).
Qed.

Lemma revalidateTag_keeping_memoryCache this tags :
  respects (keeping memoryCache) (revalidateTag this tags).
Proof. unfold revalidateTag. respects_auto. Qed.

(** X18: revalidation is lazy.  [revalidateTag] evicts nothing from the
    memory tier and touches no artifact: the memory tier is as it was, and
    so is every file but the tags manifest. *)
Theorem revalidateTag_touches_only_the_manifest
    (this : FileSystemCache) (tags : list string) (w : World)
    (path p : string) :
  tagsManifestPath this = Some path ->
  p <> path ->
  memoryCache (revalidateTag this tags w).2 = memoryCache w
  /\ files (revalidateTag this tags w).2 !! p = files w !! p.
Proof.
  intros Hpath Hne. split.
  - apply revalidateTag_keeping_memoryCache.
  - apply (revalidateTag_files_differ_at this tags path Hpath w p Hne).
Qed.



(** *** Round trips through the memory tier *)

Lemma lru_find_head key e l :
  lru_key e = key -> lru_find key (e :: l) = Some e.
Proof.
  intros Hk. unfold lru_find. cbn.
  rewrite decide_True by exact Hk. reflexivity.
Qed.

(** An entry that fits is found right after it was stored. *)
Lemma lru_get_set key e len c :
  (len <= lru_max c)%nat ->
  exists c', lru_get key (lru_set key e len c) = (Some e, c').
Proof.
  intros Hfit. unfold lru_set.
  destruct (Nat.ltb_spec (lru_max c) len) as [Hlt | _]; [lia |].
  unfold lru_get. cbn [lru_list lru_trim lru_len].
  destruct (Nat.leb_spec len (lru_max c)) as [_ | Hgt]; [| lia].
  rewrite lru_find_head by reflexivity. eauto.
Qed.

Lemma memoryCache_get_hit key w c e c' :
  memoryCache w = Some c ->
  lru_get key c = (Some e, c') ->
  memoryCache_get key w = (Ok (Some e), with_memoryCache (Some c') w).
Proof.
  intros Hc Hget. unfold memoryCache_get, bind, gets. cbn.
  rewrite Hc, Hget. reflexivity.
Qed.

(** The memory tier after [set], whether its writes succeed or not. *)
Lemma set_memoryCache this key data ctx w len :
  length_of {| lastModified := now w; value := data |} = inr len ->
  memoryCache (set this key data ctx w).2
  = memoryCache
      (remember key {| lastModified := now w; value := data |} len w).
Proof.
  intros Hlen. unfold set.
  erewrite bind_ok by reflexivity.
  erewrite bind_ok by (apply memoryCache_set_run; exact Hlen).
  match goal with
  | |- memoryCache (?k ?w0).2 = _ =>
      assert (Hk : respects (keeping memoryCache) k) by respects_auto;
      apply (Hk w0)
  end.
Qed.

(** X20: what is set is found.  With a memory tier in which the entry fits,
    a [get] of the key right after a [set], of whatever kind and whether or
    not the writes of the [set] succeeded, finds the value in the memory
    tier, dated at the time of the [set], without any file-system call; and
    unless the value is a page or a fetch, whose staleness is still to be
    evaluated, [get] returns it. *)
Theorem set_then_get_from_memory
    (this : FileSystemCache) (key : string)
    (data : option IncrementalCacheValue) (sctx : SetContext)
    (ctx : GetContext) (w : World) (c : LRUCache) (len : nat) :
  memoryCache w = Some c ->
  length_of {| lastModified := now w; value := data |} = inr len ->
  (len <= lru_max c)%nat ->
  let w' := (set this key data sctx w).2 in
  let entry := {| lastModified := now w; value := data |} in
  exists w1,
    get_seed this key ctx w' = (Ok (Proceed (Some entry)), w1)
    /\ emitting no_fs_call w' w1
    /\ (tag_checked data = false ->
        get this key ctx w' = (Ok (Some entry), w1)).
Proof.
  intros Hc Hlen Hfit. cbn zeta.
  pose proof (set_memoryCache this key data sctx w len Hlen) as Hm.
  unfold remember in Hm. rewrite Hc in Hm.
  cbn [memoryCache with_memoryCache] in Hm.
  destruct (lru_get_set key {| lastModified := now w; value := data |}
              len c Hfit) as [c' Hget].
  set (w' := (set this key data sctx w).2) in *.
  assert (E : get_seed this key ctx w'
              = (Ok (Proceed (Some {| lastModified := now w;
                                      value := data |})),
                 logged (debug this) "get"
                   (with_memoryCache (Some c') w'))).
  { unfold get_seed.
    erewrite bind_ok by (eapply memoryCache_get_hit; eassumption).
    erewrite bind_ok by apply when_log_run.
    erewrite bind_ok by reflexivity.
    reflexivity. }
  eexists. split; [exact E |]. split.
  - unfold logged. destruct (debug this).
    + exists [ConsoleLog "get"]. split; [reflexivity |].
      repeat constructor.
    + apply emitting_silent. reflexivity.
  - intros Hun. unfold get. erewrite bind_ok by exact E.
    unfold get_fresh. cbn [value].
    destruct data as [[html rsc pp headers st | body headers st
                      | html pd headers st | v | props | buf | doc] |];
      try discriminate; reflexivity.
Qed.

(** *** Round trips through the files *)

Lemma set_keeping_edge_runtime this key data ctx :
  respects (keeping edge_runtime) (set this key data ctx).
Proof. unfold set. respects_auto. Qed.

Lemma set_keeping_unstatable this key data ctx :
  respects (keeping unstatable) (set this key data ctx).
Proof. unfold set. respects_auto. Qed.

(** [set] of a route response when the files can be written. *)
Lemma set_route_run this key body headers status ctx w :
  flushToDisk this = true ->
  let path := getFilePath this (key ++ ".body")
                IncrementalCacheKind.APP_ROUTE in
  let meta := replace_suffix ".body" NEXT_META_SUFFIX path in
  path_dirname path ∉ unwritable w ->
  path ∉ unwritable w ->
  meta ∉ unwritable w ->
  exists w',
    set this key (Some (CachedRouteValue body headers status)) ctx w
    = (Ok tt, w')
    /\ files w'
       = <[meta := {| content :=
                        Json (DMeta {| meta_status := status;
                                       meta_headers := headers;
                                       meta_postponed := None |});
                      mtime := now w |}]>
           (<[path := {| content := body; mtime := now w |}]> (files w)).
Proof.
  intros Hflush path meta Hdir Hpath Hmeta.
  destruct (set_start this key (CachedRouteValue body headers status) w
              (blob_length body) eq_refl Hflush)
    as (w0 & Ff & Fu & Fn & E).
  unfold set. rewrite Hflush. rewrite E. fold path. fold meta.
  erewrite bind_ok by (apply mkdir_ok; rewrite Fu; exact Hdir).
  erewrite bind_ok by (apply writeFile_ok; cbn; rewrite Fu; exact Hpath).
  rewrite writeFile_ok by (cbn; rewrite Fu; exact Hmeta).
  eexists. split; [reflexivity |]. cbn. rewrite Ff, Fn. reflexivity.
Qed.

(** X21: a route response goes through the files unchanged.  After a [set]
    of a route response whose files can be written, a [get] of kind
    [APP_ROUTE] that misses the memory tier, in this or in another process,
    returns the same body, headers and status, dated at the time of the
    write.  The sidecar is a file of its own. *)
Theorem set_then_get_route_from_files
    (this : FileSystemCache) (key : string) (body : Blob)
    (headers : option Headers) (status : option Z) (sctx : SetContext)
    (ctx : GetContext) (w : World)
    (memory : option LRUCache) (manifest : option Manifest) :
  let path := getFilePath this (key ++ ".body")
                IncrementalCacheKind.APP_ROUTE in
  let meta := replace_suffix ".body" NEXT_META_SUFFIX path in
  flushToDisk this = true ->
  path_dirname path ∉ unwritable w ->
  path ∉ unwritable w ->
  meta ∉ unwritable w ->
  meta <> path ->
  path ∉ unstatable w ->
  edge_runtime w = false ->
  kind ctx = IncrementalCacheKind.APP_ROUTE ->
  (forall c, memory = Some c -> lru_find key (lru_list c) = None) ->
  (get this key ctx
     (other_process memory manifest
        (set this key (Some (CachedRouteValue body headers status))
           sctx w).2)).1
  = Ok (Some {| lastModified := now w;
                value := Some (CachedRouteValue body headers status) |}).
Proof.
  intros path meta Hflush Hdir Hpath Hmeta Hne Hstat Hedge Hk Hmem.
  destruct (set_route_run this key body headers status sctx w
              Hflush Hdir Hpath Hmeta) as (w' & E & Hf).
  fold path in Hf. fold meta in Hf.
  pose proof (set_keeping_edge_runtime this key
                (Some (CachedRouteValue body headers status)) sctx w) as He.
  pose proof (set_keeping_unstatable this key
                (Some (CachedRouteValue body headers status)) sctx w) as Hs.
  unfold keeping in He, Hs. rewrite E in *. cbn [snd] in *.
  set (w2 := other_process memory manifest w').
  assert (Hmiss : memory_miss key w2).
  { unfold memory_miss, w2, other_process. cbn.
    destruct memory as [c |]; [apply Hmem; reflexivity | exact I]. }
  assert (Hedge2 : edge_runtime w2 = false) by (cbn; congruence).
  assert (Hbody : files w2 !! path
                  = Some {| content := body; mtime := now w |}).
  { cbn. rewrite Hf. rewrite lookup_insert_ne by exact Hne.
    apply lookup_insert_eq. }
  assert (Hsidecar : files w2 !! meta
                     = Some {| content :=
                                 Json (DMeta {| meta_status := status;
                                                meta_headers := headers;
                                                meta_postponed := None |});
                               mtime := now w |}).
  { cbn. rewrite Hf. apply lookup_insert_eq. }
  assert (Hstat2 : path ∉ unstatable w2) by (cbn; rewrite Hs; exact Hstat).
  assert (Eseed : exists w3,
             get_seed this key ctx w2
             = (Ok (Return
                      (Some {| lastModified := now w;
                               value := Some (CachedRouteValue body headers
                                                status) |})), w3)).
  { seed_prefix Hmiss Hedge2. rewrite Hk. cbv beta iota. fold path.
    eexists. erewrite try_ok; [reflexivity |].
    erewrite read_and_stat
      by first [rewrite Ff; exact Hbody | rewrite Fs; exact Hstat2].
    erewrite bind_ok
      by (apply readFile_found; cbn; rewrite Ff; exact Hsidecar).
    reflexivity. }
  destruct Eseed as [w3 Eseed].
  unfold get. erewrite bind_ok by exact Eseed. reflexivity.
Qed.

(** X22: a fetch value goes through the files under the tags of its [set].
    After a [set] of a fetch value whose file can be written, a [get] of
    kind [FETCH] that misses the memory tier, in this or in another
    process, and whose requested tags are all among the tags of the [set],
    has as its candidate that value under those tags, dated at the time of
    the write, and does not write the file again. *)
Theorem set_then_get_fetch_from_files
    (this : FileSystemCache) (key : string) (v : CachedFetchValue)
    (sctx : SetContext) (ctx : GetContext) (w : World)
    (memory : option LRUCache) (manifest : option Manifest) :
  let path := getFilePath this key IncrementalCacheKind.FETCH in
  flushToDisk this = true ->
  path_dirname path ∉ unwritable w ->
  path ∉ unwritable w ->
  path ∉ unstatable w ->
  edge_runtime w = false ->
  kind ctx = IncrementalCacheKind.FETCH ->
  every_includes (tags ctx) (set_tags sctx) = true ->
  (forall c, memory = Some c -> lru_find key (lru_list c) = None) ->
  let w2 := other_process memory manifest
              (set this key (Some (CachedFetch v)) sctx w).2 in
  exists w3,
    get_seed this key ctx w2
    = (Ok (Proceed
             (Some {| lastModified := now w;
                      value := Some (CachedFetch
                                       (retagged (set_tags sctx) v)) |})),
       w3)
    /\ files w3 = files w2.
Proof.
  intros path Hflush Hdir Hpath Hstat Hedge Hk Hinc Hmem. cbn zeta.
  destruct (set_fetch_run this key v sctx w Hflush Hdir Hpath)
    as (w' & E & Hf & _ & Hs & _).
  fold path in Hf.
  pose proof (set_keeping_edge_runtime this key (Some (CachedFetch v))
                sctx w) as He.
  unfold keeping in He. rewrite E in *. cbn [snd] in *.
  set (w2 := other_process memory manifest w').
  assert (Hmiss : memory_miss key w2).
  { unfold memory_miss, w2, other_process. cbn.
    destruct memory as [c |]; [apply Hmem; reflexivity | exact I]. }
  assert (Hedge2 : edge_runtime w2 = false) by (cbn; congruence).
  assert (Hfile : files w2 !! path
                  = Some {| content :=
                              Json (DFetch (retagged (set_tags sctx) v));
                            mtime := now w |}).
  { cbn. rewrite Hf. apply lookup_insert_eq. }
  assert (Hstat2 : path ∉ unstatable w2) by (cbn; rewrite Hs; exact Hstat).
  seed_prefix Hmiss Hedge2. rewrite Hk. cbv beta iota. fold path.
  eexists. split.
  - erewrite try_ok; [reflexivity |].
    erewrite read_and_stat
      by first [rewrite Ff; exact Hfile | rewrite Fs; exact Hstat2].
    rewrite Hflush. cbn [negb content mtime JSON_parse].
    erewrite bind_ok by reflexivity.
    cbn [value_of value fetch_tags retagged]. rewrite Hinc. cbn [negb when].
    erewrite bind_ok by reflexivity.
    erewrite bind_ok by (apply memoryCache_set_run; reflexivity).
    reflexivity.
  - match goal with
    | |- files (remember ?k ?e ?l ?w0) = _ =>
        destruct (remember_frame k e l w0) as (-> & _)
    end.
    cbn. exact Ff.
Qed.

(** [set] of a legacy page that is no fallback, when the files can be
    written. *)
Lemma set_pages_run this key html pageData headers status ctx w :
  flushToDisk this = true ->
  set_isFallback ctx = false ->
  let path := getFilePath this (key ++ ".html") IncrementalCacheKind.PAGES in
  let data := getFilePath this (key ++ NEXT_DATA_SUFFIX)
                IncrementalCacheKind.PAGES in
  path_dirname path ∉ unwritable w ->
  path ∉ unwritable w ->
  data ∉ unwritable w ->
  exists w',
    set this key (Some (CachedPageValue html pageData headers status)) ctx w
    = (Ok tt, w')
    /\ files w'
       = <[data := {| content := Json pageData; mtime := now w |}]>
           (<[path := {| content := html; mtime := now w |}]> (files w)).
Proof.
  intros Hflush Hfb path data Hdir Hpath Hdata.
  destruct (set_start this key (CachedPageValue html pageData headers status)
              w (blob_length html + json_length pageData) eq_refl Hflush)
    as (w0 & Ff & Fu & Fn & E).
  unfold set. rewrite Hflush. rewrite E. fold path. fold data.
  erewrite bind_ok by (apply mkdir_ok; rewrite Fu; exact Hdir).
  erewrite bind_ok by (apply writeFile_ok; cbn; rewrite Fu; exact Hpath).
  rewrite Hfb. cbn [negb when].
  rewrite writeFile_ok by (cbn; rewrite Fu; exact Hdata).
  eexists. split; [reflexivity |]. cbn. rewrite Ff, Fn. reflexivity.
Qed.

(** X23: a legacy page loses its headers and status in the files.  After a
    [set] of a legacy page, not as a fallback, whose files can be written,
    a [get] of kind [PAGES], not as a fallback, that misses the memory tier
    returns the html and the page data that were set, dated at the time of
    the write, without headers and without status, whatever the page was
    set with and whatever the manifest says. *)
Theorem set_then_get_page_from_files
    (this : FileSystemCache) (key : string) (html : Blob) (pageData : Doc)
    (headers : option Headers) (status : option Z) (sctx : SetContext)
    (ctx : GetContext) (w : World)
    (memory : option LRUCache) (manifest : option Manifest) :
  let path := getFilePath this (key ++ ".html") IncrementalCacheKind.PAGES in
  let data := getFilePath this (key ++ NEXT_DATA_SUFFIX)
                IncrementalCacheKind.PAGES in
  flushToDisk this = true ->
  set_isFallback sctx = false ->
  isFallback ctx = false ->
  path_dirname path ∉ unwritable w ->
  path ∉ unwritable w ->
  data ∉ unwritable w ->
  data <> path ->
  path ∉ unstatable w ->
  edge_runtime w = false ->
  kind ctx = IncrementalCacheKind.PAGES ->
  (forall c, memory = Some c -> lru_find key (lru_list c) = None) ->
  (get this key ctx
     (other_process memory manifest
        (set this key (Some (CachedPageValue html pageData headers status))
           sctx w).2)).1
  = Ok (Some {| lastModified := now w;
                value := Some (CachedPageValue html pageData None None) |}).
Proof.
  intros path data Hflush Hsfb Hfb Hdir Hpath Hdata Hne Hstat Hedge Hk Hmem.
  destruct (set_pages_run this key html pageData headers status sctx w
              Hflush Hsfb Hdir Hpath Hdata) as (w' & E & Hf).
  fold path in Hf. fold data in Hf.
  pose proof (set_keeping_edge_runtime this key
                (Some (CachedPageValue html pageData headers status))
                sctx w) as He.
  pose proof (set_keeping_unstatable this key
                (Some (CachedPageValue html pageData headers status))
                sctx w) as Hs.
  unfold keeping in He, Hs. rewrite E in *. cbn [snd] in *.
  set (w2 := other_process memory manifest w').
  assert (Hmiss : memory_miss key w2).
  { unfold memory_miss, w2, other_process. cbn.
    destruct memory as [c |]; [apply Hmem; reflexivity | exact I]. }
  assert (Hedge2 : edge_runtime w2 = false) by (cbn; congruence).
  assert (Hhtml : files w2 !! path
                  = Some {| content := html; mtime := now w |}).
  { cbn. rewrite Hf. rewrite lookup_insert_ne by exact Hne.
    apply lookup_insert_eq. }
  assert (Hpayload : files w2 !! data
                     = Some {| content := Json pageData; mtime := now w |}).
  { cbn. rewrite Hf. apply lookup_insert_eq. }
  assert (Hstat2 : path ∉ unstatable w2) by (cbn; rewrite Hs; exact Hstat).
  assert (Eseed : exists w3,
             get_seed this key ctx w2
             = (Ok (Proceed
                      (Some {| lastModified := now w;
                               value := Some (CachedPageValue html pageData
                                                None None) |})), w3)).
  { seed_prefix Hmiss Hedge2. rewrite Hk. cbv beta iota. fold path.
    eexists. erewrite try_ok; [reflexivity |].
    erewrite read_and_stat
      by first [rewrite Ff; exact Hhtml | rewrite Fs; exact Hstat2].
    rewrite Hfb. fold data.
    erewrite bind_ok
      by (erewrite bind_ok
            by (apply readFile_found; cbn; rewrite Ff; exact Hpayload);
          reflexivity).
    erewrite bind_ok by (apply memoryCache_set_run; reflexivity).
    reflexivity. }
  destruct Eseed as [w3 Eseed].
  unfold get. erewrite bind_ok by exact Eseed. reflexivity.
Qed.

(** [set] of an app page with its data payload, not as a fallback, when the
    files can be written. *)
Lemma set_app_page_run this key html rsc postponed headers status ctx w :
  flushToDisk this = true ->
  set_isFallback ctx = false ->
  let path := getFilePath this (key ++ ".html")
                IncrementalCacheKind.APP_PAGE in
  let data := getFilePath this
                (key ++ (if set_isRoutePPREnabled ctx
                         then RSC_PREFETCH_SUFFIX else RSC_SUFFIX))
                IncrementalCacheKind.APP_PAGE in
  let meta := replace_suffix ".html" NEXT_META_SUFFIX path in
  path_dirname path ∉ unwritable w ->
  path ∉ unwritable w ->
  data ∉ unwritable w ->
  meta ∉ unwritable w ->
  exists w',
    set this key
      (Some (CachedAppPageValue html (Some rsc) postponed headers status))
      ctx w
    = (Ok tt, w')
    /\ files w'
       = <[meta := {| content :=
                        Json (DMeta {| meta_status := status;
                                       meta_headers := headers;
                                       meta_postponed := postponed |});
                      mtime := now w |}]>
           (<[data := {| content := rsc; mtime := now w |}]>
              (<[path := {| content := html; mtime := now w |}]> (files w))).
Proof.
  intros Hflush Hfb path data meta Hdir Hpath Hdata Hmeta.
  destruct (set_start this key
              (CachedAppPageValue html (Some rsc) postponed headers status)
              w (blob_length html + buffer_json_length rsc) eq_refl Hflush)
    as (w0 & Ff & Fu & Fn & E).
  unfold set. rewrite Hflush. rewrite E. fold path. fold data. fold meta.
  erewrite bind_ok by (apply mkdir_ok; rewrite Fu; exact Hdir).
  erewrite bind_ok by (apply writeFile_ok; cbn; rewrite Fu; exact Hpath).
  rewrite Hfb. cbn [negb when].
  erewrite bind_ok by (apply writeFile_ok; cbn; rewrite Fu; exact Hdata).
  rewrite writeFile_ok by (cbn; rewrite Fu; exact Hmeta).
  eexists. split; [reflexivity |]. cbn. rewrite Ff, Fn. reflexivity.
Qed.

(** X24: an app page goes through the files whole.  After a [set] of an
    app page with its data payload, not as a fallback, whose files can be
    written, a [get] of kind [APP_PAGE] with the same choice of payload
    suffix, not as a fallback, that misses the memory tier has as its
    candidate the very value that was set, headers, status and postponed
    state included, dated at the time of the write.  The html file, the
    payload and the sidecar are three files. *)
Theorem set_then_get_app_page_from_files
    (this : FileSystemCache) (key : string) (html rsc : Blob)
    (postponed : option string) (headers : option Headers)
    (status : option Z) (sctx : SetContext)
    (ctx : GetContext) (w : World)
    (memory : option LRUCache) (manifest : option Manifest) :
  let path := getFilePath this (key ++ ".html")
                IncrementalCacheKind.APP_PAGE in
  let data := getFilePath this
                (key ++ (if set_isRoutePPREnabled sctx
                         then RSC_PREFETCH_SUFFIX else RSC_SUFFIX))
                IncrementalCacheKind.APP_PAGE in
  let meta := replace_suffix ".html" NEXT_META_SUFFIX path in
  flushToDisk this = true ->
  set_isFallback sctx = false ->
  isFallback ctx = false ->
  isRoutePPREnabled ctx = set_isRoutePPREnabled sctx ->
  path_dirname path ∉ unwritable w ->
  path ∉ unwritable w ->
  data ∉ unwritable w ->
  meta ∉ unwritable w ->
  data <> path -> meta <> path -> meta <> data ->
  path ∉ unstatable w ->
  edge_runtime w = false ->
  kind ctx = IncrementalCacheKind.APP_PAGE ->
  (forall c, memory = Some c -> lru_find key (lru_list c) = None) ->
  exists w3,
    get_seed this key ctx
      (other_process memory manifest
         (set this key
            (Some (CachedAppPageValue html (Some rsc) postponed headers
                     status))
            sctx w).2)
    = (Ok (Proceed
             (Some {| lastModified := now w;
                      value :=
                        Some (CachedAppPageValue html (Some rsc) postponed
                                headers status) |})), w3).
Proof.
  intros path data meta Hflush Hsfb Hfb Hppr Hdir Hpath Hdata Hmeta
    Hdp Hmp Hmd Hstat Hedge Hk Hmem.
  destruct (set_app_page_run this key html rsc postponed headers status
              sctx w Hflush Hsfb Hdir Hpath Hdata Hmeta) as (w' & E & Hf).
  fold path in Hf. fold data in Hf. fold meta in Hf.
  pose proof (set_keeping_edge_runtime this key
                (Some (CachedAppPageValue html (Some rsc) postponed headers
                         status)) sctx w) as He.
  pose proof (set_keeping_unstatable this key
                (Some (CachedAppPageValue html (Some rsc) postponed headers
                         status)) sctx w) as Hs.
  unfold keeping in He, Hs. rewrite E in *. cbn [snd] in *.
  set (w2 := other_process memory manifest w').
  assert (Hmiss : memory_miss key w2).
  { unfold memory_miss, w2, other_process. cbn.
    destruct memory as [c |]; [apply Hmem; reflexivity | exact I]. }
  assert (Hedge2 : edge_runtime w2 = false) by (cbn; congruence).
  assert (Hhtml : files w2 !! path
                  = Some {| content := html; mtime := now w |}).
  { cbn. rewrite Hf. rewrite lookup_insert_ne by exact Hmp.
    rewrite lookup_insert_ne by exact Hdp. apply lookup_insert_eq. }
  assert (Hpayload : files w2 !! data
                     = Some {| content := rsc; mtime := now w |}).
  { cbn. rewrite Hf. rewrite lookup_insert_ne by exact Hmd.
    apply lookup_insert_eq. }
  assert (Hsidecar : stored_meta
                       (emit (Stat path) (emit (ReadFile path)
                          (logged (debug this) "get" w2))) meta
                     = Some {| meta_status := status;
                               meta_headers := headers;
                               meta_postponed := postponed |}).
  { unfold stored_meta.
    destruct (logged_frame (debug this) "get" w2) as (Lf & _).
    cbn [files emit]. rewrite Lf. cbn. rewrite Hf.
    rewrite lookup_insert_eq. reflexivity. }
  assert (Hstat2 : path ∉ unstatable w2) by (cbn; rewrite Hs; exact Hstat).
  seed_prefix Hmiss Hedge2. rewrite Hk. cbv beta iota. fold path. fold meta.
  rewrite Hppr. fold data.
  eexists. erewrite try_ok; [reflexivity |].
  erewrite read_and_stat
    by first [rewrite Ff; exact Hhtml | rewrite Fs; exact Hstat2].
  rewrite Hfb.
  erewrite bind_ok.
  2: { erewrite bind_ok by apply read_meta_optional.
       erewrite bind_ok
         by (apply readFile_found; cbn; rewrite Ff; exact Hpayload).
       reflexivity. }
  rewrite Hsidecar. cbn [fst snd mbind option_bind meta_postponed
                         meta_headers meta_status content mtime].
  erewrite bind_ok by (apply memoryCache_set_run; reflexivity).
  reflexivity.
Qed.

(** *** The constructor *)

(** X25: the constructor copies its context and loads the manifest.  A
    constructor call always returns an instance, whose fields are those of
    the context, whose debug flag is that of the environment and whose
    manifest path lies under the server directory, if there is one; it
    leaves the files as they are; and the variable [tagsManifest] holds
    afterwards what [loadTagsManifest] leaves in it: what it held, or what
    the manifest file gives, which is nothing for a file that holds
    [null]. *)
Theorem new_FileSystemCache_instance
    (ctx : FileSystemCacheContext) (w : World) :
  exists this,
    (new_FileSystemCache ctx w).1 = Ok this
    /\ flushToDisk this = ctx_flushToDisk ctx
    /\ serverDistDir this = ctx_serverDistDir ctx
    /\ revalidatedTags this = ctx_revalidatedTags ctx
    /\ debug this = debug_env w
    /\ tagsManifestPath this
       = (if bool_decide (ctx_serverDistDir ctx = "") then None
          else Some (path_join [ctx_serverDistDir ctx; ".."; "cache";
                                "fetch-cache"; "tags-manifest.json"]))
    /\ tagsManifest (new_FileSystemCache ctx w).2 = loaded_manifest this w
    /\ files (new_FileSystemCache ctx w).2 = files w.
Proof.
  unfold new_FileSystemCache.
  erewrite bind_ok by reflexivity.
  match goal with
  | |- context [bind ?A _ w] =>
      assert (HA : returns A
                   /\ respects (keeping tagsManifest) A
                   /\ respects (keeping files) A)
  end.
  { repeat split;
      destruct (maxMemoryCacheSize ctx) as [[| n] |];
      first [ solve [unfold console_log; returns_walk]
            | solve [respects_auto] ]. }
  destruct HA as (Hret & Hkm & Hkf).
  specialize (Hret w). specialize (Hkm w). specialize (Hkf w).
  unfold keeping in Hkm, Hkf.
  match goal with
  | |- context [bind ?A _ w] => destruct (A w) as [[[] | err] wa] eqn:EA
  end;
    [| destruct Hret as [a Ha]; discriminate Ha].
  cbn [snd] in Hkm, Hkf.
  erewrite bind_ok by exact EA.
  destruct (bool_decide (ctx_serverDistDir ctx = "")) eqn:Hdir.
  - eexists. cbn. repeat split; try assumption.
    rewrite Hkm. unfold loaded_manifest. cbn.
    destruct (tagsManifest w); reflexivity.
  - rewrite loadTagsManifestSync_eq.
    match goal with
    | |- context [loadTagsManifest ?t] =>
        destruct (loadTagsManifest_run t wa)
          as (w' & E & Hm & _ & Hf & _)
    end.
    erewrite bind_ok by exact E.
    eexists. cbn [fst snd ret]. repeat split; try reflexivity.
    + rewrite Hm. unfold loaded_manifest, stored_doc.
      rewrite Hkm, Hkf. reflexivity.
    + congruence.
Qed.

(** *** Strings *)

Lemma split_comma_not_nil s : split_comma s <> [].
Proof.
  destruct s as [| c rest]; cbn [split_comma]; [discriminate |].
  destruct (Ascii.eqb c ","); [discriminate |].
  destruct (split_comma rest); discriminate.
Qed.

(** Joining what was split gives the string back. *)
Lemma concat_split_comma s : String.concat "," (split_comma s) = s.
Proof.
  induction s as [| c rest IH]; [reflexivity |].
  cbn [split_comma].
  destruct (Ascii.eqb_spec c ","%char) as [-> | Hc].
  - pose proof (split_comma_not_nil rest) as Hne.
    destruct (split_comma rest) as [| x l]; [congruence |].
    cbn [String.concat] in *. rewrite IH. reflexivity.
  - pose proof (split_comma_not_nil rest) as Hne.
    destruct (split_comma rest) as [| x l]; [congruence |].
    cbn [String.concat] in *.
    destruct l as [| y l']; cbn in *; rewrite <- IH; reflexivity.
Qed.

Lemma split_comma_free s : comma_free s = true -> split_comma s = [s].
Proof.
  induction s as [| c rest IH]; [reflexivity |].
  cbn [split_comma comma_free String.append]. intros [Hc Hrest]%andb_prop.
  apply negb_true_iff in Hc. rewrite Hc, (IH Hrest). reflexivity.
Qed.

Lemma split_comma_app s t :
  comma_free s = true ->
  split_comma (s ++ String ","%char t) = s :: split_comma t.
Proof.
  induction s as [| c rest IH]; [reflexivity |].
  change (String c rest ++ String ","%char t)
    with (String c (rest ++ String ","%char t)).
  cbn [split_comma comma_free]. intros [Hc Hrest]%andb_prop.
  apply negb_true_iff in Hc. rewrite Hc, (IH Hrest). reflexivity.
Qed.

(** Splitting what was joined gives the list back. *)
Lemma split_comma_concat l :
  l <> [] ->
  Forall (fun s => comma_free s = true) l ->
  split_comma (String.concat "," l) = l.
Proof.
  induction l as [| x rest IH]; [congruence |].
  intros _ Hall. apply Forall_cons in Hall as [Hx Hrest].
  destruct rest as [| y rest'].
  - cbn. apply split_comma_free. exact Hx.
  - change (String.concat "," (x :: y :: rest'))
      with (x ++ String ","%char (String.concat "," (y :: rest'))).
    rewrite split_comma_app by exact Hx.
    rewrite IH by (congruence || exact Hrest). reflexivity.
Qed.

(** X26: the cache-tags header is the list of tags joined by commas.  The
    tags the staleness evaluation finds in a header that is the join of a
    non-empty list of comma-free tags are those tags, in order; and joining
    the tags found in any header gives the header back. *)
Theorem cacheTags_of_joined_tags
    (headers : Headers) (tagList : list string) :
  tagList <> [] ->
  Forall (fun s => comma_free s = true) tagList ->
  headers !! NEXT_CACHE_TAGS_HEADER
  = Some (HString (String.concat "," tagList)) ->
  cacheTags (Some headers) = Some tagList
  /\ forall s, String.concat "," (split_comma s) = s.
Proof.
  intros Hne Hall Hh. split; [| apply concat_split_comma].
  unfold cacheTags. cbn. rewrite Hh.
  rewrite split_comma_concat by assumption. reflexivity.
Qed.

Lemma substring_0_app s t : substring 0 (String.length s) (s ++ t) = s.
Proof.
  induction s as [| c rest IH].
  - destruct t; reflexivity.
  - change (String c rest ++ t) with (String c (rest ++ t)).
    cbn [String.length substring]. rewrite IH. reflexivity.
Qed.

Lemma substring_skip_app s t k :
  substring (String.length s) k (s ++ t) = substring 0 k t.
Proof.
  induction s as [| c rest IH]; [reflexivity |].
  change (String c rest ++ t) with (String c (rest ++ t)).
  cbn [String.length substring]. exact IH.
Qed.

Lemma substring_0_all t : substring 0 (String.length t) t = t.
Proof.
  induction t as [| c rest IH]; cbn [String.length substring];
    [reflexivity | rewrite IH; reflexivity].
Qed.

Lemma string_length_app s t :
  String.length (s ++ t) = (String.length s + String.length t)%nat.
Proof.
  induction s as [| c rest IH]; [reflexivity |].
  change (String c rest ++ t) with (String c (rest ++ t)).
  cbn [String.length]. rewrite IH. reflexivity.
Qed.

(** The sidecar of a file is named after it.  Replacing the suffix of
    a name that ends in it swaps the suffix and keeps the rest: the sidecar
    of [x.body] or [x.html] is [x] followed by the metadata suffix. *)
Theorem replace_suffix_app (old new s : string) :
  replace_suffix old new (s ++ old) = s ++ new.
Proof.
  unfold replace_suffix, ends_with. rewrite string_length_app.
  replace (String.length s + String.length old - String.length old)%nat
    with (String.length s) by lia.
  rewrite substring_skip_app, substring_0_all, String.eqb_refl.
  destruct (Nat.leb_spec (String.length old)
              (String.length s + String.length old)) as [_ | Hlt]; [| lia].
  cbn. rewrite substring_0_app. reflexivity.
Qed.

(** *** The memory tier and the manifest in memory come first *)

(** X27: a hit of the memory tier is served as it is.  When the memory
    tier has an entry under the key, the reading phase of [get] takes it as
    the candidate without any file-system call, whatever kind is asked for,
    whatever the files hold and in the edge runtime as well; the entry
    becomes the most recently used one. *)
Theorem get_memory_hit
    (this : FileSystemCache) (key : string) (ctx : GetContext) (w : World)
    (c c' : LRUCache) (e : CacheHandlerValue) :
  memoryCache w = Some c ->
  lru_get key c = (Some e, c') ->
  get_seed this key ctx w
  = (Ok (Proceed (Some e)),
     logged (debug this) "get" (with_memoryCache (Some c') w))
  /\ files (logged (debug this) "get" (with_memoryCache (Some c') w))
     = files w
  /\ (exists rest, lru_list c' = {| lru_key := lru_key rest;
                                    lru_value := e;
                                    lru_len := lru_len rest |}
                                 :: lru_remove key (lru_list c)).
Proof.
  intros Hc Hget. split; [| split].
  - unfold get_seed.
    erewrite bind_ok by (eapply memoryCache_get_hit; eassumption).
    erewrite bind_ok by apply when_log_run.
    erewrite bind_ok by reflexivity.
    reflexivity.
  - destruct (logged_frame (debug this) "get"
                (with_memoryCache (Some c') w)) as (-> & _).
    reflexivity.
  - unfold lru_get in Hget.
    destruct (lru_find key (lru_list c)) as [le |]; [| discriminate].
    injection Hget as <- <-. exists le. destruct le; reflexivity.
Qed.

(** [some] with a callback that neither looks at the world nor changes it
    does neither itself. *)
Lemma Array_some_const {A} (f : A -> Op bool) (l : list A) :
  (forall x, exists r, forall w, f x w = (r, w)) ->
  exists r, forall w, Array_some f l w = (r, w).
Proof.
  intros Hf. induction l as [| x rest [r IH]]; cbn.
  - eexists. reflexivity.
  - destruct (Hf x) as [[[|] | err] Hx].
    + exists (Ok true). intros w. unfold bind. rewrite Hx. reflexivity.
    + exists r. intros w. unfold bind. rewrite Hx. apply IH.
    + exists (Throw err). intros w. unfold bind. rewrite Hx. reflexivity.
Qed.

Lemma stale_check_const (f : string -> Op bool) (l : list string)
    (d : CacheHandlerValue) :
  (forall x, exists r, forall w, f x w = (r, w)) ->
  exists r, forall w,
    (isStale <- Array_some f l ;;
     if isStale then ret None else ret (Some d)) w = (r, w).
Proof.
  intros Hf. destruct (Array_some_const f l Hf) as [[[|] | err] Hr].
  - exists (Ok None). intros w. unfold bind. rewrite Hr. reflexivity.
  - exists (Ok (Some d)). intros w. unfold bind. rewrite Hr. reflexivity.
  - exists (Throw err). intros w. unfold bind. rewrite Hr. reflexivity.
Qed.

Lemma tagsManifest_newer_const manifest t d tag :
  exists r, forall w, tagsManifest_newer manifest t d tag w = (r, w).
Proof. destruct manifest as [[m |] |]; eexists; reflexivity. Qed.

(** X28: with something in the variable [tagsManifest], staleness is
    decided from memory alone.  The staleness evaluation then reads no file
    and changes nothing, and its outcome is the same whatever the files
    hold: what another process has written to the manifest file since is
    not seen. *)
Theorem staleness_from_memory_alone
    (this : FileSystemCache) (ctx : GetContext)
    (data : option CacheHandlerValue) (w : World) (m : Manifest)
    (fs : gmap string File) :
  tagsManifest w = Some m ->
  (get_fresh this ctx data w).2 = w
  /\ (get_fresh this ctx data (with_files fs w)).1
     = (get_fresh this ctx data w).1.
Proof.
  intros Hm.
  pose proof (loadTagsManifest_loaded this w m Hm) as E.
  pose proof (loadTagsManifest_loaded this (with_files fs w) m Hm) as E'.
  unfold get_fresh.
  destruct data as [d |]; [| split; reflexivity].
  destruct (value d) as [[html rsc pp headers st | body headers st
                         | html pd headers st | v | props | buf | doc] |];
    try (split; reflexivity);
    try (destruct (cacheTags headers) as [[| c0 cts] |];
         try (split; reflexivity)).
  - destruct (stale_check_const
                (tagsManifest_newer (tagsManifest w) (now w) d) (c0 :: cts) d)
      as [r Hr]; [intros x; apply tagsManifest_newer_const |].
    split.
    + erewrite bind_ok by exact E.
      do 2 erewrite bind_ok by reflexivity.
      rewrite Hr. reflexivity.
    + erewrite bind_ok by exact E'.
      do 2 erewrite bind_ok by reflexivity.
      cbn [tagsManifest now with_files]. rewrite Hr.
      erewrite bind_ok by exact E.
      do 2 erewrite bind_ok by reflexivity.
      rewrite Hr. reflexivity.
  - destruct (stale_check_const
                (tagsManifest_newer (tagsManifest w) (now w) d) (c0 :: cts) d)
      as [r Hr]; [intros x; apply tagsManifest_newer_const |].
    split.
    + erewrite bind_ok by exact E.
      do 2 erewrite bind_ok by reflexivity.
      rewrite Hr. reflexivity.
    + erewrite bind_ok by exact E'.
      do 2 erewrite bind_ok by reflexivity.
      cbn [tagsManifest now with_files]. rewrite Hr.
      erewrite bind_ok by exact E.
      do 2 erewrite bind_ok by reflexivity.
      rewrite Hr. reflexivity.
  - destruct (stale_check_const
                (fun tag =>
                   if bool_decide (tag ∈ revalidatedTags this)
                   then ret true
                   else tagsManifest_newer (tagsManifest w) (now w) d tag)
                (default [] (tags ctx) ++ default [] (softTags ctx))%list d)
      as [r Hr].
    { intros x. destruct (bool_decide (x ∈ revalidatedTags this)).
      - eexists. reflexivity.
      - apply tagsManifest_newer_const. }
    split.
    + erewrite bind_ok by exact E.
      do 2 erewrite bind_ok by reflexivity.
      rewrite Hr. reflexivity.
    + erewrite bind_ok by exact E'.
      do 2 erewrite bind_ok by reflexivity.
      cbn [tagsManifest now with_files]. rewrite Hr.
      erewrite bind_ok by exact E.
      do 2 erewrite bind_ok by reflexivity.
      rewrite Hr. reflexivity.
Qed.

Lemma constructions_none evs :
  Forall no_NewLRUCache evs -> constructions evs = [].
Proof.
  induction 1 as [| e rest He _ IH]; [reflexivity |].
  unfold constructions in *. cbn. rewrite IH.
  destruct e; try reflexivity. exfalso. eapply He. reflexivity.
Qed.

(** X29: the first constructor call that configures a size creates the
    memory tier: without one, a constructor call with a positive
    [maxMemoryCacheSize] returns normally and leaves an empty memory tier
    of that capacity, which it constructs once. *)
Theorem first_sized_constructor_creates_memoryCache
    (ctx : FileSystemCacheContext) (w : World) (n : nat) :
  memoryCache w = None ->
  maxMemoryCacheSize ctx = Some (S n) ->
  let r := new_FileSystemCache ctx w in
  (exists this, r.1 = Ok this)
  /\ memoryCache r.2 = Some {| lru_max := S n; lru_list := [] |}
  /\ exists new,
       trace r.2 = (new ++ trace w)%list /\ constructions new = [S n].
Proof.
  intros Hc Hn. cbn zeta.
  split; [apply new_FileSystemCache_returns |].
  split; [apply new_FileSystemCache_creates; assumption |].
  unfold new_FileSystemCache.
  erewrite bind_ok by reflexivity. rewrite Hn.
  destruct (debug_env w) eqn:Ed;
    (erewrite (bind_ok (A := unit))
      by (unfold bind, gets, when, console_log, modify, ret; cbn;
          rewrite Hc; reflexivity));
    match goal with
    | |- context [trace (?k ?w0).2] =>
        assert (Hk : respects (emitting no_NewLRUCache) k)
          by (assert (forall t, respects (emitting no_NewLRUCache)
                                  (loadTagsManifest t))
                by (intros t; apply loadTagsManifest_emitting;
                    intros; intros ?; discriminate);
              rewrite ?loadTagsManifestSync_eq;
              destruct (bool_decide (ctx_serverDistDir ctx = ""));
              respects_auto);
        destruct (Hk w0) as (new & E & F)
    end.
  - exists (new ++ [NewLRUCache (S n);
                    ConsoleLog "using memory store for fetch cache"])%list.
    split; [rewrite E, <- app_assoc; reflexivity |].
    unfold constructions. rewrite omap_app.
    fold (constructions new). rewrite (constructions_none new F).
    reflexivity.
  - exists (new ++ [NewLRUCache (S n)])%list.
    split; [rewrite E, <- app_assoc; reflexivity |].
    unfold constructions. rewrite omap_app.
    fold (constructions new). rewrite (constructions_none new F).
    reflexivity.
Qed.

(** X30: a manifest file of another shape breaks revalidation.  For a
    non-empty tag list on an instance with a manifest path: when
    [loadTagsManifest] leaves nothing in the variable, as for a manifest
    file that holds [null], [revalidateTag] returns normally without
    stamping anything, and the variable is still empty; when it leaves a
    value without [items], as for a file that holds [{}], [revalidateTag]
    throws a [TypeError]; either way no file is written, and nothing is
    called but the read of the manifest file and the debug log. *)
Theorem revalidateTag_without_manifest
    (this : FileSystemCache) (tags : list string) (w : World) (path : string) :
  tags <> [] ->
  tagsManifestPath this = Some path ->
  let r := revalidateTag this tags w in
  (loaded_manifest this w = None ->
   r.1 = Ok tt /\ tagsManifest r.2 = None)
  /\ (loaded_manifest this w = Some Shapeless ->
      r.1 = Throw TypeError /\ tagsManifest r.2 = Some Shapeless)
  /\ (loaded_manifest this w = None
      \/ loaded_manifest this w = Some Shapeless ->
      files r.2 = files w /\ emitting (manifest_calls this) w r.2).
Proof.
  intros Hne Hpath. cbn zeta.
  destruct tags as [| tag0 rest]; [congruence |].
  destruct (logged_frame (debug this) "revalidateTag" w)
    as (Sf & _ & _ & _ & Sm & _ & _).
  set (w0 := logged (debug this) "revalidateTag" w) in *.
  assert (Sl : loaded_manifest this w0 = loaded_manifest this w).
  { unfold loaded_manifest, stored_doc. rewrite Sm, Sf. reflexivity. }
  assert (S0 : emitting (manifest_calls this) w w0).
  { unfold w0, logged. destruct (debug this); [| reflexivity].
    apply emitting_emit. right. eauto. }
  destruct (loadTagsManifest_run this w0)
    as (w1 & E1 & Hm & _ & Hf & _ & _ & He).
  assert (Hrun : forall l r,
            loaded_manifest this w = l ->
            match l with
            | Some (Shaped m) => False
            | Some Shapeless => r = Throw TypeError
            | None => r = Ok tt
            end ->
            revalidateTag this (tag0 :: rest) w = (r, w1)).
  { intros l r Hl Hr. unfold revalidateTag.
    erewrite bind_ok by apply when_log_run. fold w0.
    erewrite bind_ok by exact E1.
    erewrite bind_ok by reflexivity.
    rewrite Hm, Sl, Hl, Hpath.
    destruct l as [[m |] |]; [contradiction | |]; subst r; reflexivity. }
  rewrite Sl in Hm.
  split; [| split].
  - intros Hl. rewrite (Hrun None (Ok tt) Hl eq_refl).
    split; [reflexivity |]. cbn. congruence.
  - intros Hl. rewrite (Hrun (Some Shapeless) (Throw TypeError) Hl eq_refl).
    split; [reflexivity |]. cbn. congruence.
  - intros [Hl | Hl];
      [ rewrite (Hrun None (Ok tt) Hl eq_refl)
      | rewrite (Hrun (Some Shapeless) (Throw TypeError) Hl eq_refl) ];
      cbn; (split; [congruence | etransitivity; [exact S0 | exact He]]).
Qed.

End Further.

(** ** The properties on the sample installation *)

Import Sample Runs.

(** The scenario of the boundary: the manifest has [a] revalidated at 100 and
    the fetch entry tagged [a] was last modified at 100. *)
Lemma get_stale_by_tag_witness :
  (get handler "k" (fetch_ctx ["a"])
     (world 200
        [("/srv/.next/cache/fetch-cache/k",
          file (Json (DFetch (fetched "x" (Some ["a"])))) 100)]
        (Some (manifest_of [("a", 100)])) None)).1
  = Ok None.
Proof.
  eapply (get_stale_by_tag handler "k" (fetch_ctx ["a"]) _
            (get_seed handler "k" (fetch_ctx ["a"])
               (world 200
                  [("/srv/.next/cache/fetch-cache/k",
                    file (Json (DFetch (fetched "x" (Some ["a"])))) 100)]
                  (Some (manifest_of [("a", 100)])) None)).2
            {| lastModified := 100;
               value := Some (CachedFetch (fetched "x" (Some ["a"]))) |}
            "a" (manifest_of [("a", 100)]) 100).
  - vm_compute. reflexivity.
  - vm_compute. apply list_elem_of_here.
  - vm_compute. reflexivity.
  - vm_compute. reflexivity.
  - lia.
  - cbn. lia.
  - cbn. lia.
Defined.

(** C1 as stated fails on the code: an entry whose file is dated at the
    epoch ([lastModified = 0]) is compared with the current time and is
    returned although its tag was revalidated after it was written; and a
    [revalidatedAt] of zero invalidates nothing. *)
Lemma stale_at_or_after_counterexample :
  ~ stale_at_or_after handler "k" (fetch_ctx ["a"])
      (world 200
         [("/srv/.next/cache/fetch-cache/k",
           file (Json (DFetch (fetched "x" (Some ["a"])))) 0)]
         (Some (manifest_of [("a", 100)])) None)
  /\ ~ stale_at_or_after handler "k" (fetch_ctx ["a"])
         (world 200
            [("/srv/.next/cache/fetch-cache/k",
              file (Json (DFetch (fetched "x" (Some ["a"])))) (-1))]
            (Some (manifest_of [("a", 0)])) None).
Proof.
  split; intros Hclaim.
  - specialize (Hclaim _ {| lastModified := 0;
                             value := Some (CachedFetch
                                              (fetched "x" (Some ["a"]))) |}
                  "a" (manifest_of [("a", 100)]) 100 eq_refl).
    assert (Hget : Ok (Some {| lastModified := 0;
                               value := Some (CachedFetch
                                                (fetched "x" (Some ["a"]))) |})
                   = Ok None).
    { rewrite <- Hclaim.
      - vm_compute. reflexivity.
      - vm_compute. apply list_elem_of_here.
      - vm_compute. reflexivity.
      - vm_compute. reflexivity.
      - cbn. lia. }
    discriminate Hget.
  - specialize (Hclaim _ {| lastModified := -1;
                             value := Some (CachedFetch
                                              (fetched "x" (Some ["a"]))) |}
                  "a" (manifest_of [("a", 0)]) 0 eq_refl).
    assert (Hget : Ok (Some {| lastModified := -1;
                               value := Some (CachedFetch
                                                (fetched "x" (Some ["a"]))) |})
                   = Ok None).
    { rewrite <- Hclaim.
      - vm_compute. reflexivity.
      - vm_compute. apply list_elem_of_here.
      - vm_compute. reflexivity.
      - vm_compute. reflexivity.
      - cbn. lia. }
    discriminate Hget.
Qed.

(** C2 on the code: [revalidateTag] does not read the manifest file again
    when a manifest is already in memory.  Here the manifest was loaded as
    [{a: 10}], another worker has since written [{a: 10, b: 50}] to the
    file, and [c] is revalidated at time 100: no file is read, and the file
    written is the copy in memory with [c] added, without [b]. *)
Theorem revalidateTag_merges_into_memory_copy :
  let path := "/srv/.next/cache/fetch-cache/tags-manifest.json" in
  let w :=
    world 100
      [(path, file (Json (DManifest (manifest_of [("a", 10); ("b", 50)]))) 60)]
      (Some (manifest_of [("a", 10)])) None in
  let r := revalidateTag handler ["c"] w in
  r.1 = Ok tt
  /\ file_reads (trace r.2) = []
  /\ stored_manifest r.2 path = Some (manifest_of [("a", 10); ("c", 100)])
  /\ (stored_manifest r.2 path ≫= fun m => items m !! "b") = None
  /\ (stored_manifest w path ≫= fun m => items m !! "b") = Some 50.
Proof. vm_compute. repeat split; reflexivity. Qed.

(** A fetch entry stored under [a] and requested under [b]. *)
Lemma get_rewrites_fetch_tags_witness :
  let path := "/srv/.next/cache/fetch-cache/k" in
  let w :=
    world 200 [(path, file (Json (DFetch (fetched "x" (Some ["a"])))) 100)]
      None None in
  files (get handler "k" (fetch_ctx ["b"]) w).2 !! path
  = Some (file (Json (DFetch (fetched "x" (Some ["b"])))) 200)
  /\ fetch_tags (retagged (Some ["b"]) (fetched "x" (Some ["a"])))
     = Some ["b"].
Proof.
  cbn zeta.
  refine (get_rewrites_fetch_tags handler "k" (fetch_ctx ["b"])
            (world 200
               [("/srv/.next/cache/fetch-cache/k",
                 file (Json (DFetch (fetched "x" (Some ["a"])))) 100)]
               None None)
            (file (Json (DFetch (fetched "x" (Some ["a"])))) 100)
            (fetched "x" (Some ["a"])) _ _ _ _ _ _ _ _ _ _).
  - exact I.
  - reflexivity.
  - reflexivity.
  - reflexivity.
  - vm_compute. reflexivity.
  - reflexivity.
  - apply not_elem_of_empty.
  - vm_compute. reflexivity.
  - apply not_elem_of_empty.
  - apply not_elem_of_empty.
Defined.

(** C3 as stated fails on the code: the entry stored under [a] and
    requested under [b] is written back under [b] alone, and [a] is lost. *)
Lemma stores_tag_union_counterexample :
  ~ stores_tag_union handler "k" (fetch_ctx ["b"])
      (world 200
         [("/srv/.next/cache/fetch-cache/k",
           file (Json (DFetch (fetched "x" (Some ["a"])))) 100)]
         None None).
Proof.
  intros Hclaim.
  destruct (Hclaim (fetched "x" (Some ["a"])) "a") as (v' & Hv' & Hin).
  - vm_compute. reflexivity.
  - vm_compute. reflexivity.
  - left. apply list_elem_of_here.
  - vm_compute in Hv'. injection Hv' as <-. cbn in Hin.
    apply list_elem_of_singleton in Hin. discriminate Hin.
Qed.

(** C4 on the code: a route response read from the files is returned without
    being stored in the memory tier, while a page read the same way is
    stored.  The memory tier exists and is empty; the route's body and
    sidecar and the page's html and data payload are on the disk. *)
Theorem get_route_skips_memoryCache :
  let w :=
    world 200
      [("/srv/.next/server/app/api/hello.body", file (Raw "hi") 50);
       ("/srv/.next/server/app/api/hello.meta",
        file (Json (DMeta {| meta_status := Some 200; meta_headers := None;
                             meta_postponed := None |})) 50);
       ("/srv/.next/server/pages/about.html", file (Raw "<p>about</p>") 50);
       ("/srv/.next/server/pages/about.json", file (Json (DOther "{}")) 50)]
      None (Some (empty_cache 1000)) in
  let route :=
    {| lastModified := 50;
       value := Some (CachedRouteValue (Raw "hi") None (Some 200)) |} in
  let page :=
    {| lastModified := 50;
       value := Some (CachedPageValue (Raw "<p>about</p>") (DOther "{}")
                        None None) |} in
  let r := get handler "/api/hello"
             (kind_ctx IncrementalCacheKind.APP_ROUTE false) w in
  let r' :=
    get handler "/about" (kind_ctx IncrementalCacheKind.PAGES false) w in
  r.1 = Ok (Some route)
  /\ memoryCache r.2 = Some (empty_cache 1000)
  /\ (memoryCache r.2 ≫= fun c => (lru_get "/api/hello" c).1) = None
  /\ r'.1 = Ok (Some page)
  /\ (memoryCache r'.2 ≫= fun c => (lru_get "/about" c).1) = Some page.
Proof. vm_compute. repeat split; reflexivity. Qed.

(** A second constructor call that configures no memory tier, after a first
    one created a memory tier of size 1000. *)
Lemma memoryCache_first_configuration_wins_witness :
  let ctx :=
    {| ctx_flushToDisk := true; ctx_serverDistDir := "/srv/.next/server";
       ctx_revalidatedTags := []; maxMemoryCacheSize := None |} in
  let w := world 200 [] None (Some (empty_cache 1000)) in
  let r := new_FileSystemCache ctx w in
  (exists this, r.1 = Ok this)
  /\ memoryCache r.2 = Some (empty_cache 1000)
  /\ emitting no_NewLRUCache w r.2.
Proof.
  cbn zeta.
  apply (memoryCache_first_configuration_wins
           {| ctx_flushToDisk := true;
              ctx_serverDistDir := "/srv/.next/server";
              ctx_revalidatedTags := []; maxMemoryCacheSize := None |}
           (world 200 [] None (Some (empty_cache 1000)))
           (empty_cache 1000)).
  reflexivity.
Defined.


(** A legacy page whose data payload is missing. *)
Lemma get_read_failure_is_miss_witness :
  (get handler "/about" (kind_ctx IncrementalCacheKind.PAGES false)
     (world 200
        [("/srv/.next/server/pages/about.html", file (Raw "<p>about</p>") 50)]
        None None)).1
  = Ok None.
Proof.
  refine (proj1 (proj2 (proj2
            (get_read_failure_is_miss handler "/about"
               (kind_ctx IncrementalCacheKind.PAGES false)
               (world 200
                  [("/srv/.next/server/pages/about.html",
                    file (Raw "<p>about</p>") 50)]
                  None None)))) _ _ _).
  - exact I.
  - reflexivity.
  - apply pages_data_unreadable; vm_compute; reflexivity.
Defined.

(** C8 as stated fails on the code: the sidecar of an app page is missing,
    and [get] returns the page all the same, without metadata. *)
Lemma sidecar_failure_is_miss_counterexample :
  ~ sidecar_failure_is_miss handler "/blog"
      (kind_ctx IncrementalCacheKind.APP_PAGE false)
      (world 200
         [("/srv/.next/server/app/blog.html", file (Raw "<p>blog</p>") 50);
          ("/srv/.next/server/app/blog.rsc", file (Raw "0:blog") 50)]
         None None).
Proof.
  intros Hclaim.
  assert (Hget : Ok (Some {| lastModified := 50;
                             value :=
                               Some (CachedAppPageValue (Raw "<p>blog</p>")
                                       (Some (Raw "0:blog"))
                                       None None None) |})
                 = Ok None).
  { rewrite <- Hclaim.
    - vm_compute. reflexivity.
    - exact I.
    - reflexivity.
    - vm_compute. reflexivity. }
  discriminate Hget.
Qed.

(** The fallback of an app page of the sample installation, set on an
    empty disk and read back. *)
Lemma fallback_skips_data_payload_witness :
  let v := CachedAppPageValue (Raw "<p>blog</p>") None None None None in
  let sctx :=
    {| set_tags := None; set_isRoutePPREnabled := false;
       set_isFallback := true |} in
  let w := world 100 [] None None in
  let w' := (set handler "/blog" (Some v) sctx w).2 in
  files w' !! "/srv/.next/server/app/blog.rsc" = None
  /\ files w' !! "/srv/.next/server/app/blog.html"
     = Some (file (Raw "<p>blog</p>") 100)
  /\ exists new,
       trace (get handler "/blog"
                (kind_ctx IncrementalCacheKind.APP_PAGE true) w').2
       = (new ++ trace w')%list
       /\ (ReadFile "/srv/.next/server/app/blog.rsc" ∉ new)
       /\ (ReadFile "/srv/.next/server/app/blog.meta" ∉ new).
Proof.
  cbn zeta.
  pose proof (fallback_skips_data_payload handler "/blog"
                IncrementalCacheKind.APP_PAGE false) as T.
  destruct T as [Tset Tget].
  - left. reflexivity.
  - vm_compute. discriminate.
  - vm_compute. discriminate.
  - vm_compute. discriminate.
  - vm_compute. discriminate.
  - vm_compute. discriminate.
  - destruct (Tset (CachedAppPageValue (Raw "<p>blog</p>") None None None
                      None)
                (Raw "<p>blog</p>")
                {| set_tags := None; set_isRoutePPREnabled := false;
                   set_isFallback := true |}
                (world 100 [] None None) eq_refl eq_refl eq_refl)
      as (_ & Hdata & Hhtml).
    split; [exact Hdata |].
    split.
    + apply Hhtml; [reflexivity | apply not_elem_of_empty
                   | apply not_elem_of_empty].
    + destruct (Tget (kind_ctx IncrementalCacheKind.APP_PAGE true)
                  (set handler "/blog"
                     (Some (CachedAppPageValue (Raw "<p>blog</p>") None None
                              None None))
                     {| set_tags := None; set_isRoutePPREnabled := false;
                        set_isFallback := true |}
                     (world 100 [] None None)).2 eq_refl eq_refl)
        as (new & E & Hd & Hm).
      exists new. split; [exact E |]. split; [exact Hd |].
      apply Hm. reflexivity.
Defined.

(** A route response in the memory tier, with a manifest that has every tag
    revalidated and an instance that holds them as revalidated. *)
Lemma get_route_ignores_revalidation_witness :
  let route :=
    {| lastModified := 50;
       value := Some (CachedRouteValue (Raw "hi") None (Some 200)) |} in
  let w :=
    world 200 [] None
      (Some {| lru_max := 1000;
               lru_list := [{| lru_key := "/api/hello"; lru_value := route;
                               lru_len := 2 |}] |}) in
  (get (with_revalidatedTags ["a"] handler) "/api/hello"
     (kind_ctx IncrementalCacheKind.APP_ROUTE false)
     (with_tagsManifest (Some (Shaped (manifest_of [("a", 300)]))) w)).1
  = Ok (Some route).
Proof.
  cbn zeta.
  refine (get_route_ignores_revalidation handler "/api/hello"
            (kind_ctx IncrementalCacheKind.APP_ROUTE false) _ _
            (Raw "hi") None (Some 200) _ _ _ _ _).
  - reflexivity.
  - vm_compute. reflexivity.
  - reflexivity.
Defined.

(** A manifest file that holds a manifest: the first load leaves it in
    memory and the second load does nothing. *)
Lemma loadTagsManifest_idempotent_witness :
  let w :=
    world 5
      [("/srv/.next/cache/fetch-cache/tags-manifest.json",
        file (Json (DManifest (manifest_of [("a", 10)]))) 1)]
      None None in
  let w1 := (loadTagsManifest handler w).2 in
  tagsManifest w1 = Some (Shaped (manifest_of [("a", 10)]))
  /\ loadTagsManifest handler w1 = (Ok tt, w1).
Proof.
  cbn zeta.
  destruct (loadTagsManifest_idempotent handler
              (world 5
                 [("/srv/.next/cache/fetch-cache/tags-manifest.json",
                   file (Json (DManifest (manifest_of [("a", 10)]))) 1)]
                 None None))
    as (_ & _ & Hm & Hidem & _).
  split.
  - rewrite Hm. vm_compute. reflexivity.
  - apply Hidem. left. vm_compute. eauto.
Defined.

(** C6 as stated fails on the code: the manifest file holds [null], which
    parses; the variable is left [null], and the second of two calls in
    sequence reads the file again. *)
Lemma loads_at_most_once_counterexample :
  ~ loads_at_most_once handler
      (world 5
         [("/srv/.next/cache/fetch-cache/tags-manifest.json",
           file (Json DNull) 1)]
         None None).
Proof.
  intros Hclaim.
  specialize (Hclaim
                [ReadFile "/srv/.next/cache/fetch-cache/tags-manifest.json";
                 ReadFile "/srv/.next/cache/fetch-cache/tags-manifest.json"]
                eq_refl).
  vm_compute in Hclaim. lia.
Qed.

(** The manifest is loaded once: from an empty disk, the first call leaves
    the empty manifest and the second call does nothing. *)
Example loadTagsManifest_twice :
  let w1 := (loadTagsManifest handler (boot 5)).2 in
  tagsManifest w1 = Some (Shaped empty_manifest)
  /\ file_reads (trace w1) = ["/srv/.next/cache/fetch-cache/tags-manifest.json"]
  /\ loadTagsManifest handler w1 = (Ok tt, w1).
Proof. vm_compute. repeat split; reflexivity. Qed.

(** The scenario without revalidation: with an empty manifest the entry
    tagged [a] is returned. *)
Example get_not_revalidated :
  (get handler "k" (fetch_ctx ["a"])
     (world 200
        [("/srv/.next/cache/fetch-cache/k",
          file (Json (DFetch (fetched "x" (Some ["a"])))) 100)]
        (Some (manifest_of [])) None)).1
  = Ok (Some {| lastModified := 100;
                value := Some (CachedFetch (fetched "x" (Some ["a"]))) |}).
Proof. vm_compute. reflexivity. Qed.

Example split_comma_two : split_comma "a,b" = ["a"; "b"].
Proof. reflexivity. Qed.

Example split_comma_empty : split_comma "" = [""].
Proof. reflexivity. Qed.

Example replace_suffix_body :
  replace_suffix ".body" ".meta" "/srv/app/api/hello.body"
  = "/srv/app/api/hello.meta".
Proof. reflexivity. Qed.

Example replace_suffix_unmatched :
  replace_suffix ".body" ".meta" "/srv/app/api.body/hello"
  = "/srv/app/api.body/hello".
Proof. reflexivity. Qed.

Example sample_constructor :
  (new_FileSystemCache
     {| ctx_flushToDisk := true; ctx_serverDistDir := "/srv/.next/server";
        ctx_revalidatedTags := []; maxMemoryCacheSize := None |}
     (boot 5)).1 = Ok handler.
Proof. vm_compute. reflexivity. Qed.

(** A manifest file that holds [null]: nothing is left in the variable, and
    [revalidateTag] returns without stamping, writing or warning. *)
Example manifest_file_null :
  let path := "/srv/.next/cache/fetch-cache/tags-manifest.json" in
  let w := world 100 [(path, file (Json DNull) 1)] None None in
  let r := revalidateTag handler ["a"] w in
  tagsManifest (loadTagsManifest handler w).2 = None
  /\ r.1 = Ok tt
  /\ tagsManifest r.2 = None
  /\ files r.2 = files w
  /\ trace r.2 = [ReadFile path].
Proof. vm_compute. repeat split; reflexivity. Qed.

(** A manifest file that holds [{}]: the value is kept, and the first look
    at its [items] throws, in [revalidateTag] and in the staleness
    evaluation of [get], outside every [try]. *)
Example manifest_file_without_items :
  let path := "/srv/.next/cache/fetch-cache/tags-manifest.json" in
  let w :=
    world 200
      [(path, file (Json (DOther "{}")) 1);
       ("/srv/.next/cache/fetch-cache/k",
        file (Json (DFetch (fetched "x" (Some ["a"])))) 100)]
      None None in
  tagsManifest (loadTagsManifest handler w).2 = Some Shapeless
  /\ (revalidateTag handler ["a"] w).1 = Throw TypeError
  /\ (get handler "k" (fetch_ctx ["a"]) w).1 = Throw TypeError
  /\ (get (with_revalidatedTags ["s"] handler) "k"
        {| kind := IncrementalCacheKind.FETCH; tags := Some ["a"];
           softTags := Some ["s"]; isRoutePPREnabled := false;
           isFallback := false |} w).1 = Throw TypeError
  /\ (get (with_revalidatedTags ["a"] handler) "k" (fetch_ctx ["a"]) w).1
     = Ok None.
Proof. vm_compute. repeat split; reflexivity. Qed.

(** A fetch file that holds [null] gives an entry without value; one that
    holds [[]] gives an entry of none of the kinds, which the memory tier,
    where there is one, cannot measure. *)
Example fetch_file_of_another_shape :
  let path := "/srv/.next/cache/fetch-cache/k" in
  (get handler "k" (fetch_ctx ["a"])
     (world 200 [(path, file (Json DNull) 100)] None None)).1
  = Ok (Some {| lastModified := 100; value := None |})
  /\ (get handler "k" (fetch_ctx ["a"])
        (world 200 [(path, file (Json (DOther "[]")) 100)] None None)).1
     = Ok (Some (entry 100 (CachedUnknown (DOther "[]"))))
  /\ (get handler "k" (fetch_ctx ["a"])
        (world 200 [(path, file (Json (DOther "[]")) 100)] None
           (Some (empty_cache 1000)))).1
     = Ok None
  /\ (get handler "k" (fetch_ctx ["a"])
        (world 200 [(path, file (Raw "{") 100)] None None)).1
     = Ok None.
Proof. vm_compute. repeat split; reflexivity. Qed.

(** The sidecar of a route: [[]] has no [headers] and no [status], and the
    route is returned without them; [null] has no members to read, and the
    read misses. *)
Example route_sidecar_of_another_shape :
  let body := ("/srv/.next/server/app/api/hello.body", file (Raw "hi") 50) in
  let meta := "/srv/.next/server/app/api/hello.meta" in
  let ctx := kind_ctx IncrementalCacheKind.APP_ROUTE false in
  (get handler "/api/hello" ctx
     (world 200 [body; (meta, file (Json (DOther "[]")) 50)] None None)).1
  = Ok (Some (entry 50 (CachedRouteValue (Raw "hi") None None)))
  /\ (get handler "/api/hello" ctx
        (world 200 [body; (meta, file (Json DNull) 50)] None None)).1
     = Ok None.
Proof. vm_compute. repeat split; reflexivity. Qed.

(** ** The further properties on the sample installation *)

(** A loaded, empty manifest. *)
Lemma manifest_stays_loaded_witness :
  is_Some
    (tagsManifest
       (revalidateTag handler ["a"]
          (world 5 [] (Some (manifest_of [])) None)).2).
Proof.
  refine (proj1 (proj2 (proj2
            (manifest_stays_loaded handler "k" (fetch_ctx ["a"]) None
               (set_ctx None) ["a"] (cache_ctx None)
               (world 5 [] (Some (manifest_of [])) None) _)))).
  eexists. reflexivity.
Defined.

(** A page on the disk while a fetch value is set. *)
Lemma files_are_never_deleted_witness :
  is_Some
    (files
       (set handler "k" (Some (CachedFetch (fetched "x" None)))
          (set_ctx None)
          (world 5
             [("/srv/.next/server/pages/about.html",
               file (Raw "<p>about</p>") 1)] None None)).2
     !! "/srv/.next/server/pages/about.html").
Proof.
  refine (proj1 (proj2
            (files_are_never_deleted handler "k" (fetch_ctx ["a"])
               (Some (CachedFetch (fetched "x" None))) (set_ctx None) ["a"]
               (cache_ctx None)
               (world 5
                  [("/srv/.next/server/pages/about.html",
                    file (Raw "<p>about</p>") 1)] None None)
               "/srv/.next/server/pages/about.html" _))).
  vm_compute. eexists. reflexivity.
Defined.

(** A process without a memory tier. *)
Lemma memoryCache_only_by_constructor_witness :
  memoryCache
    (set handler "k" (Some route_value) (set_ctx None)
       (world 5 [] None None)).2 = None.
Proof.
  refine (proj1 (proj2
            (memoryCache_only_by_constructor handler "k" (fetch_ctx ["a"])
               (Some route_value) (set_ctx None) ["a"] (cache_ctx None)
               (world 5 [] None None) _))).
  reflexivity.
Defined.

(** A [get] of a page. *)
Lemma get_only_reads_witness :
  files (get handler "/about" (kind_ctx IncrementalCacheKind.PAGES false)
           (world 5 [] None None)).2
  = files (world 5 [] None None).
Proof.
  refine (proj2
            (get_only_reads handler "/about"
               (kind_ctx IncrementalCacheKind.PAGES false)
               (world 5 [] None None) _)).
  discriminate.
Defined.

(** A route response set on the instance without persistence. *)
Lemma set_without_persistence_witness :
  (set memory_only "/api/hello" (Some route_value) (set_ctx None)
     (world 5 [] None (Some (empty_cache 1000)))).1 = Ok tt.
Proof.
  refine (proj1
            (set_without_persistence memory_only "/api/hello"
               (Some route_value) (set_ctx None)
               (world 5 [] None (Some (empty_cache 1000))) 2 _ _)).
  - left. reflexivity.
  - reflexivity.
Defined.

(** A redirect. *)
Lemma set_unsupported_kind_throws_witness :
  exists msg,
    (set handler "/old" (Some (CachedRedirectValue (DOther "{}")))
       (set_ctx None) (world 5 [] None None)).1
    = Throw (Invariant msg).
Proof.
  refine (proj1
            (set_unsupported_kind_throws handler "/old"
               (CachedRedirectValue (DOther "{}")) (set_ctx None)
               (world 5 [] None None) _ _)).
  - reflexivity.
  - left. reflexivity.
Defined.

(** No tag at all. *)
Lemma revalidateTag_noop_witness :
  revalidateTag handler [] (world 5 [] None None)
  = (Ok tt, logged (debug handler) "revalidateTag" (world 5 [] None None)).
Proof.
  refine (proj1 (revalidateTag_noop handler [] (world 5 [] None None) _)).
  left. reflexivity.
Defined.

(** The edge runtime, with the page on the disk. *)
Lemma get_edge_runtime_miss_witness :
  let w :=
    {| memoryCache := None; tagsManifest := None;
       files := {[ "/srv/.next/server/pages/about.html"
                   := file (Raw "<p>about</p>") 1 ]};
       unwritable := ∅; unstatable := ∅; now := 5; edge_runtime := true;
       debug_env := false; trace := [] |} in
  get handler "/about" (kind_ctx IncrementalCacheKind.PAGES false) w
  = (Ok None, logged (debug handler) "get" w).
Proof.
  cbn zeta.
  refine (proj1 (get_edge_runtime_miss handler "/about"
                   (kind_ctx IncrementalCacheKind.PAGES false) _ _ _)).
  - exact I.
  - reflexivity.
Defined.

(** The fetch file is there, persistence is disabled. *)
Lemma get_fetch_without_persistence_witness :
  (get memory_only "k" (fetch_ctx ["a"])
     (world 200
        [("/srv/.next/cache/fetch-cache/k",
          file (Json (DFetch (fetched "x" (Some ["a"])))) 100)]
        None None)).1
  = Ok None.
Proof.
  refine (proj1 (get_fetch_without_persistence memory_only "k"
                   (fetch_ctx ["a"]) _ _ _ _ _)).
  - reflexivity.
  - reflexivity.
  - exact I.
  - reflexivity.
Defined.

(** An html file under the key, asked for as an image. *)
Lemma get_image_kind_misses_witness :
  (get handler "/logo" (kind_ctx IncrementalCacheKind.IMAGE false)
     (world 200
        [("/srv/.next/server/app/logo.html", file (Raw "<svg/>") 100)]
        None None)).1
  = Ok None.
Proof.
  refine (get_image_kind_misses handler "/logo"
            (kind_ctx IncrementalCacheKind.IMAGE false) _ _ _ _).
  - reflexivity.
  - exact I.
  - reflexivity.
Defined.


(** The instance holds [a] as revalidated; there is no manifest. *)
Lemma get_fetch_revalidated_this_cycle_witness :
  (get (with_revalidatedTags ["a"] handler) "k" (fetch_ctx ["a"])
     (world 200
        [("/srv/.next/cache/fetch-cache/k",
          file (Json (DFetch (fetched "x" (Some ["a"])))) 100)]
        (Some (manifest_of [])) None)).1
  = Ok None.
Proof.
  refine (get_fetch_revalidated_this_cycle
            (with_revalidatedTags ["a"] handler) "k" (fetch_ctx ["a"]) _
            (get_seed (with_revalidatedTags ["a"] handler) "k"
               (fetch_ctx ["a"])
               (world 200
                  [("/srv/.next/cache/fetch-cache/k",
                    file (Json (DFetch (fetched "x" (Some ["a"])))) 100)]
                  (Some (manifest_of [])) None)).2
            (entry 100 (CachedFetch (fetched "x" (Some ["a"]))))
            (fetched "x" (Some ["a"])) "a" _ _ _ _ _).
  - vm_compute. reflexivity.
  - reflexivity.
  - vm_compute. discriminate.
  - vm_compute. apply list_elem_of_here.
  - apply list_elem_of_here.
Defined.

(** A page in the memory tier whose cache-tags header is an array, with
    the tag revalidated after the page was stored. *)
Lemma get_page_without_tags_header_witness :
  (get handler "/about" (kind_ctx IncrementalCacheKind.PAGES false)
     (world 200 [] (Some (manifest_of [("a", 150)]))
        (Some (cache_with "/about"
                 (entry 100 (page_value (tagged (HArray ["a"])))))))).1
  = Ok (Some (entry 100 (page_value (tagged (HArray ["a"]))))).
Proof.
  refine (f_equal fst
            (get_page_without_tags_header handler "/about"
               (kind_ctx IncrementalCacheKind.PAGES false) _
               (get_seed handler "/about"
                  (kind_ctx IncrementalCacheKind.PAGES false)
                  (world 200 [] (Some (manifest_of [("a", 150)]))
                     (Some (cache_with "/about"
                              (entry 100
                                 (page_value (tagged (HArray ["a"])))))))).2
               (entry 100 (page_value (tagged (HArray ["a"]))))
               (tagged (HArray ["a"])) _ _ _)).
  - vm_compute. reflexivity.
  - right. do 3 eexists. reflexivity.
  - intros s E. vm_compute in E. discriminate E.
Defined.

(** A tagged page in the memory tier, asked for with request tags. *)
Lemma get_page_ignores_request_tags_witness :
  let w :=
    world 200 [] (Some (manifest_of [("a", 150)]))
      (Some (cache_with "/about"
               (entry 100 (page_value (tagged (HString "a")))))) in
  get (with_revalidatedTags ["b"] handler) "/about"
    (with_tags (Some ["b"]) (Some ["c"])
       (kind_ctx IncrementalCacheKind.PAGES false)) w
  = get handler "/about" (kind_ctx IncrementalCacheKind.PAGES false) w.
Proof.
  cbn zeta.
  refine (get_page_ignores_request_tags handler "/about"
            (kind_ctx IncrementalCacheKind.PAGES false) _
            (get_seed handler "/about"
               (kind_ctx IncrementalCacheKind.PAGES false)
               (world 200 [] (Some (manifest_of [("a", 150)]))
                  (Some (cache_with "/about"
                           (entry 100
                              (page_value (tagged (HString "a")))))))).2
            (entry 100 (page_value (tagged (HString "a"))))
            (Some ["b"]) (Some ["c"]) ["b"] _ _ _).
  - discriminate.
  - vm_compute. reflexivity.
  - eexists. reflexivity.
Defined.

(** A legacy page on the disk. *)
Lemma get_bare_page_from_files_witness :
  let w :=
    world 200
      [("/srv/.next/server/pages/about.html", file (Raw "<p>about</p>") 50);
       ("/srv/.next/server/pages/about.json", file (Json (DOther "{}")) 50)]
      (Some (manifest_of [("a", 150)])) None in
  let page :=
    entry 50 (CachedPageValue (Raw "<p>about</p>") (DOther "{}") None None) in
  bare_page page
  /\ get handler "/about" (kind_ctx IncrementalCacheKind.PAGES false) w
     = (Ok (Some page),
        (get_seed handler "/about"
           (kind_ctx IncrementalCacheKind.PAGES false) w).2).
Proof.
  cbn zeta.
  refine (get_bare_page_from_files handler "/about"
            (kind_ctx IncrementalCacheKind.PAGES false) _ _ _ _ _ _).
  - left. reflexivity.
  - exact I.
  - vm_compute. reflexivity.
Defined.


(** A page on the disk and in the memory tier while [a] is revalidated. *)
Lemma revalidateTag_touches_only_the_manifest_witness :
  let w :=
    world 100
      [("/srv/.next/server/pages/about.html", file (Raw "<p>about</p>") 50)]
      None
      (Some (cache_with "/about"
               (entry 50 (page_value (tagged (HString "a")))))) in
  memoryCache (revalidateTag handler ["a"] w).2 = memoryCache w
  /\ files (revalidateTag handler ["a"] w).2
       !! "/srv/.next/server/pages/about.html"
     = files w !! "/srv/.next/server/pages/about.html".
Proof.
  cbn zeta.
  refine (revalidateTag_touches_only_the_manifest handler ["a"] _
            "/srv/.next/cache/fetch-cache/tags-manifest.json"
            "/srv/.next/server/pages/about.html" _ _).
  - reflexivity.
  - discriminate.
Defined.


(** A route response set and read back in a process with a memory tier. *)
Lemma set_then_get_from_memory_witness :
  let w := world 100 [] None (Some (empty_cache 1000)) in
  let w' := (set handler "/api/hello" (Some route_value) (set_ctx None) w).2 in
  exists w1,
    get_seed handler "/api/hello"
      (kind_ctx IncrementalCacheKind.APP_ROUTE false) w'
    = (Ok (Proceed (Some (entry 100 route_value))), w1)
    /\ emitting no_fs_call w' w1
    /\ (tag_checked (Some route_value) = false ->
        get handler "/api/hello"
          (kind_ctx IncrementalCacheKind.APP_ROUTE false) w'
        = (Ok (Some (entry 100 route_value)), w1)).
Proof.
  cbn zeta.
  refine (set_then_get_from_memory handler "/api/hello" (Some route_value)
            (set_ctx None) (kind_ctx IncrementalCacheKind.APP_ROUTE false)
            (world 100 [] None (Some (empty_cache 1000)))
            (empty_cache 1000) 2 _ _ _).
  - reflexivity.
  - reflexivity.
  - cbn. lia.
Defined.

(** A route response set in one process and read in another. *)
Lemma set_then_get_route_from_files_witness :
  (get handler "/api/hello" (kind_ctx IncrementalCacheKind.APP_ROUTE false)
     (other_process None None
        (set handler "/api/hello" (Some route_value) (set_ctx None)
           (world 100 [] None None)).2)).1
  = Ok (Some (entry 100 route_value)).
Proof.
  refine (set_then_get_route_from_files handler "/api/hello" (Raw "hi") None
            (Some 200) (set_ctx None)
            (kind_ctx IncrementalCacheKind.APP_ROUTE false)
            (world 100 [] None None) None None _ _ _ _ _ _ _ _ _).
  - reflexivity.
  - apply not_elem_of_empty.
  - apply not_elem_of_empty.
  - apply not_elem_of_empty.
  - vm_compute. discriminate.
  - apply not_elem_of_empty.
  - reflexivity.
  - reflexivity.
  - discriminate.
Defined.

(** A fetch value set under [a] and [b] and read back under [a]. *)
Lemma set_then_get_fetch_from_files_witness :
  let w2 :=
    other_process None None
      (set handler "k" (Some (CachedFetch (fetched "x" None)))
         (set_ctx (Some ["a"; "b"])) (world 100 [] None None)).2 in
  exists w3,
    get_seed handler "k" (fetch_ctx ["a"]) w2
    = (Ok (Proceed
             (Some (entry 100
                      (CachedFetch (fetched "x" (Some ["a"; "b"])))))), w3)
    /\ files w3 = files w2.
Proof.
  cbn zeta.
  refine (set_then_get_fetch_from_files handler "k" (fetched "x" None)
            (set_ctx (Some ["a"; "b"])) (fetch_ctx ["a"])
            (world 100 [] None None) None None _ _ _ _ _ _ _ _).
  - reflexivity.
  - apply not_elem_of_empty.
  - apply not_elem_of_empty.
  - apply not_elem_of_empty.
  - reflexivity.
  - reflexivity.
  - vm_compute. reflexivity.
  - discriminate.
Defined.

(** A legacy page set with a tag header and read back without it. *)
Lemma set_then_get_page_from_files_witness :
  (get handler "/about" (kind_ctx IncrementalCacheKind.PAGES false)
     (other_process None None
        (set handler "/about"
           (Some (CachedPageValue (Raw "<p>about</p>") (DOther "{}")
                    (tagged (HString "a")) (Some 200)))
           (set_ctx None) (world 100 [] None None)).2)).1
  = Ok (Some (entry 100
                (CachedPageValue (Raw "<p>about</p>") (DOther "{}")
                   None None))).
Proof.
  refine (set_then_get_page_from_files handler "/about" (Raw "<p>about</p>")
            (DOther "{}") (tagged (HString "a")) (Some 200) (set_ctx None)
            (kind_ctx IncrementalCacheKind.PAGES false)
            (world 100 [] None None) None None _ _ _ _ _ _ _ _ _ _ _).
  - reflexivity.
  - reflexivity.
  - reflexivity.
  - apply not_elem_of_empty.
  - apply not_elem_of_empty.
  - apply not_elem_of_empty.
  - vm_compute. discriminate.
  - apply not_elem_of_empty.
  - reflexivity.
  - reflexivity.
  - discriminate.
Defined.

(** An app page set with a tag header and read back with it. *)
Lemma set_then_get_app_page_from_files_witness :
  let v :=
    CachedAppPageValue (Raw "<p>blog</p>") (Some (Raw "0:blog")) None
      (tagged (HString "a")) (Some 200) in
  exists w3,
    get_seed handler "/blog" (kind_ctx IncrementalCacheKind.APP_PAGE false)
      (other_process None None
         (set handler "/blog" (Some v) (set_ctx None)
            (world 100 [] None None)).2)
    = (Ok (Proceed (Some (entry 100 v))), w3).
Proof.
  cbn zeta.
  refine (set_then_get_app_page_from_files handler "/blog"
            (Raw "<p>blog</p>") (Raw "0:blog") None (tagged (HString "a"))
            (Some 200) (set_ctx None)
            (kind_ctx IncrementalCacheKind.APP_PAGE false)
            (world 100 [] None None) None None
            _ _ _ _ _ _ _ _ _ _ _ _ _ _ _).
  - reflexivity.
  - reflexivity.
  - reflexivity.
  - reflexivity.
  - apply not_elem_of_empty.
  - apply not_elem_of_empty.
  - apply not_elem_of_empty.
  - apply not_elem_of_empty.
  - vm_compute. discriminate.
  - vm_compute. discriminate.
  - vm_compute. discriminate.
  - apply not_elem_of_empty.
  - reflexivity.
  - reflexivity.
  - discriminate.
Defined.

(** A header that lists two tags. *)
Lemma cacheTags_of_joined_tags_witness :
  cacheTags (tagged (HString "a,b")) = Some ["a"; "b"]
  /\ forall s, String.concat "," (split_comma s) = s.
Proof.
  refine (cacheTags_of_joined_tags {[ "x-next-cache-tags" := HString "a,b" ]}
            ["a"; "b"] _ _ _).
  - discriminate.
  - repeat constructor.
  - vm_compute. reflexivity.
Defined.

(** The first constructor call of a process, with a capacity of 1000. *)
Lemma first_sized_constructor_creates_memoryCache_witness :
  memoryCache (new_FileSystemCache (cache_ctx (Some 1000%nat)) (boot 5)).2
  = Some (empty_cache 1000).
Proof.
  refine (proj1 (proj2
            (first_sized_constructor_creates_memoryCache
               (cache_ctx (Some 1000%nat)) (boot 5) 999 _ _))).
  - reflexivity.
  - reflexivity.
Defined.

(** A page in the memory tier, asked for as a route, with no file. *)
Lemma get_memory_hit_witness :
  let page := entry 100 (page_value None) in
  let w := world 200 [] None (Some (cache_with "/about" page)) in
  get_seed handler "/about" (kind_ctx IncrementalCacheKind.APP_ROUTE false) w
  = (Ok (Proceed (Some page)),
     logged (debug handler) "get"
       (with_memoryCache (Some (cache_with "/about" page)) w)).
Proof.
  cbn zeta.
  refine (proj1
            (get_memory_hit handler "/about"
               (kind_ctx IncrementalCacheKind.APP_ROUTE false) _
               (cache_with "/about" (entry 100 (page_value None)))
               (cache_with "/about" (entry 100 (page_value None)))
               (entry 100 (page_value None)) _ _)).
  - reflexivity.
  - vm_compute. reflexivity.
Defined.

(** The manifest in memory has [a] at 10; the file, rewritten by another
    process, has it at 150. *)
Lemma staleness_from_memory_alone_witness :
  let page := entry 100 (page_value (tagged (HString "a"))) in
  let w := world 200 [] (Some (manifest_of [("a", 10)])) None in
  let fs : gmap string File :=
    {[ "/srv/.next/cache/fetch-cache/tags-manifest.json"
       := file (Json (DManifest (manifest_of [("a", 150)]))) 150 ]} in
  (get_fresh handler (kind_ctx IncrementalCacheKind.PAGES false)
     (Some page) (with_files fs w)).1
  = (get_fresh handler (kind_ctx IncrementalCacheKind.PAGES false)
       (Some page) w).1.
Proof.
  cbn zeta.
  refine (proj2
            (staleness_from_memory_alone handler
               (kind_ctx IncrementalCacheKind.PAGES false) _ _
               (Shaped (manifest_of [("a", 10)])) _ _)).
  reflexivity.
Defined.

(** The manifest file holds [null] when [a] is revalidated. *)
Lemma revalidateTag_without_manifest_witness :
  let w :=
    world 100
      [("/srv/.next/cache/fetch-cache/tags-manifest.json",
        file (Json DNull) 1)]
      None None in
  (revalidateTag handler ["a"] w).1 = Ok tt
  /\ tagsManifest (revalidateTag handler ["a"] w).2 = None.
Proof.
  cbn zeta.
  refine (proj1
            (revalidateTag_without_manifest handler ["a"]
               (world 100
                  [("/srv/.next/cache/fetch-cache/tags-manifest.json",
                    file (Json DNull) 1)]
                  None None)
               "/srv/.next/cache/fetch-cache/tags-manifest.json" _ _) _).
  - discriminate.
  - reflexivity.
  - vm_compute. reflexivity.
Defined.
